(** * Network state model of chrome/browser/chromeos/cros/network_library.cc

    A shallow embedding of the Network class family (Network, WifiNetwork,
    VirtualNetwork), CellularDataPlan and NetworkIPConfig, together with the
    properties of the connection state machine, the credential wipe, the
    unique-id computation, the netmask prefix computation and the
    certificate-pattern connection protocol.

    Conventions.
    - C++ [int], [int32] and [int64] values are [Z]; 64-bit subtraction is
      written with its wrap-around ([wrap64]).
    - A member function is a [Method O A]: it receives the object, returns a
      value, the updated object and the calls it made to the outside world
      (libcros, closures, the enrollment handler), in program order.
    - Helpers that live outside this translation unit (base/, the header,
      libcros) are Section variables: every theorem holds for each
      implementation of them.
    - [VLOG], [LOG] and [DCHECK] are compiled out (release build); libcros
      calls are made on the UI thread, so the [CHECK] of [EnsureCrosLoaded]
      passes.
    - A credential string is its value ([std_string]) in the member
      functions.  What assigning and wiping do to the bytes in memory is
      modelled in [InMemory], on the reference-counted buffers of
      libstdc++'s [std::string]. *)

From Stdlib Require Import String Ascii ZArith List Bool Lia.
From Stdlib Require Sorted DecimalString DecimalZ.
Import ListNotations.
Open Scope string_scope.
Open Scope Z_scope.
Set Default Proof Using "Type".

(** ** Enumerations (network_library.h: the values the .cc file and the
    design document name) *)

Inductive ConnectionType :=
| TYPE_UNKNOWN | TYPE_ETHERNET | TYPE_WIFI | TYPE_CELLULAR | TYPE_VPN.

Inductive ConnectionState :=
| STATE_UNKNOWN | STATE_IDLE | STATE_CARRIER | STATE_ASSOCIATION
| STATE_CONFIGURATION | STATE_READY | STATE_DISCONNECT | STATE_FAILURE
| STATE_ACTIVATION_FAILURE | STATE_PORTAL | STATE_ONLINE.

Inductive ConnectionError :=
| ERROR_NO_ERROR | ERROR_OUT_OF_RANGE | ERROR_PIN_MISSING | ERROR_DHCP_FAILED
| ERROR_CONNECT_FAILED | ERROR_BAD_PASSPHRASE | ERROR_BAD_WEPKEY
| ERROR_ACTIVATION_FAILED | ERROR_NEED_EVDO | ERROR_NEED_HOME_NETWORK
| ERROR_OTASP_FAILED | ERROR_AAA_FAILED | ERROR_INTERNAL
| ERROR_DNS_LOOKUP_FAILED | ERROR_HTTP_GET_FAILED
| ERROR_IPSEC_PSK_AUTH_FAILED | ERROR_IPSEC_CERT_AUTH_FAILED
| ERROR_PPP_AUTH_FAILED | ERROR_UNKNOWN.

Inductive NetworkProfileType := PROFILE_NONE | PROFILE_SHARED | PROFILE_USER.

Inductive ConnectionSecurity :=
| SECURITY_UNKNOWN | SECURITY_NONE | SECURITY_WEP | SECURITY_WPA
| SECURITY_RSN | SECURITY_8021X | SECURITY_PSK.

Inductive EAPMethod :=
| EAP_METHOD_UNKNOWN | EAP_METHOD_PEAP | EAP_METHOD_TLS | EAP_METHOD_TTLS
| EAP_METHOD_LEAP.

Inductive EAPPhase2Auth :=
| EAP_PHASE_2_AUTH_AUTO | EAP_PHASE_2_AUTH_MD5 | EAP_PHASE_2_AUTH_MSCHAPV2
| EAP_PHASE_2_AUTH_MSCHAP | EAP_PHASE_2_AUTH_PAP | EAP_PHASE_2_AUTH_CHAP.

Inductive ProviderType :=
| PROVIDER_TYPE_L2TP_IPSEC_PSK | PROVIDER_TYPE_L2TP_IPSEC_USER_CERT
| PROVIDER_TYPE_OPEN_VPN | PROVIDER_TYPE_MAX.

Inductive ClientCertType :=
| CLIENT_CERT_TYPE_NONE | CLIENT_CERT_TYPE_PATTERN.

Definition ConnectionState_eqb (a b : ConnectionState) : bool :=
  match a, b with
  | STATE_UNKNOWN, STATE_UNKNOWN | STATE_IDLE, STATE_IDLE
  | STATE_CARRIER, STATE_CARRIER | STATE_ASSOCIATION, STATE_ASSOCIATION
  | STATE_CONFIGURATION, STATE_CONFIGURATION | STATE_READY, STATE_READY
  | STATE_DISCONNECT, STATE_DISCONNECT | STATE_FAILURE, STATE_FAILURE
  | STATE_ACTIVATION_FAILURE, STATE_ACTIVATION_FAILURE
  | STATE_PORTAL, STATE_PORTAL | STATE_ONLINE, STATE_ONLINE => true
  | _, _ => false
  end.

Definition ConnectionError_is_no_error (e : ConnectionError) : bool :=
  match e with ERROR_NO_ERROR => true | _ => false end.

(** ** std::string

    The strings that hold credentials are kept apart from the strings that
    are only read: a [std_string] is the value of such a string, its
    [size()] characters.  The member functions below work on these values.
    Where the characters are kept in memory, and what becomes of the bytes
    when a string is assigned or wiped, is the subject of [InMemory]. *)

Record std_string := mk_std_string { chars : string }.

Definition NUL : ascii := Ascii.zero.

Fixpoint fill (n : nat) (c : ascii) : string :=
  match n with O => "" | S k => String c (fill k c) end.

Fixpoint drop (n : nat) (s : string) : string :=
  match n, s with
  | O, _ => s
  | S k, String _ r => drop k r
  | S _, EmptyString => ""
  end.

Definition size (s : std_string) : nat := String.length (chars s).
Definition empty (s : std_string) : bool :=
  match chars s with EmptyString => true | _ => false end.
Definition fresh (v : string) : std_string := mk_std_string v.

(** [s.assign(n, c)]: the string becomes [n] times the character [c]. *)
Definition assign_fill (s : std_string) (n : nat) (c : ascii) : std_string :=
  mk_std_string (fill n c).

(** [s = v] *)
Definition assign (s : std_string) (v : string) : std_string :=
  mk_std_string v.

(** [s.clear()] *)
Definition clear (s : std_string) : std_string :=
  mk_std_string "".

(** Erase the memory used by a string, then clear it. *)
Definition WipeString (str : std_string) : std_string :=
  clear (assign_fill str (size str) NUL).

(** ** Calls to the outside world *)

Inductive Closure := closure_id (n : nat).
Inductive EnrollmentHandler := handler_id (n : nat).

Inductive PropertyValue :=
| StringValue (s : string) | BooleanValue (b : bool) | IntegerValue (i : Z).

Inductive Call :=
| Call_InitIPAddress
| CrosListIPConfigs_call (device_path : string)
| CrosSetNetworkServicePropertyGValue
    (service_path prop : string) (v : PropertyValue)
| CrosClearNetworkServiceProperty (service_path prop : string)
| Closure_Run (c : Closure)
| Enroll (h : EnrollmentHandler) (uri_list : list string) (c : Closure).

(** ** Member functions as state transformers with a call log *)

Definition Method (O A : Type) : Type := O -> A * O * list Call.

Definition ret {O A} (a : A) : Method O A := fun o => (a, o, []).

Definition bind {O A B} (m : Method O A) (f : A -> Method O B) : Method O B :=
  fun o =>
    let '(a, o1, l1) := m o in
    let '(b, o2, l2) := f a o1 in
    (b, o2, (l1 ++ l2)%list).

Definition get {O} : Method O O := fun o => (o, o, []).
Definition modify {O} (f : O -> O) : Method O unit := fun o => (tt, f o, []).
Definition call {O} (c : Call) : Method O unit := fun o => (tt, o, [c]).

(** Run a member function of a base class (or of a field) on the part [g o]
    of a derived object, storing the result back with [s]. *)
Definition on_part {O P A} (g : O -> P) (s : P -> O -> O)
  (m : Method P A) : Method O A :=
  fun o => let '(a, p, l) := m (g o) in (a, s p o, l).

Definition result {O A} (r : A * O * list Call) : A := fst (fst r).
Definition object {O A} (r : A * O * list Call) : O := snd (fst r).
Definition calls {O A} (r : A * O * list Call) : list Call := snd r.

Declare Scope method_scope.
Delimit Scope method_scope with method.
Notation "x <- m ;; k" := (bind m (fun x => k))
  (at level 61, m at next level, right associativity) : method_scope.
Notation "m ;; k" := (bind m (fun _ => k))
  (at level 61, right associativity) : method_scope.
Notation "'when' b 'then' m" := (if b then m else ret tt)
  (at level 60, b at level 9) : method_scope.
Open Scope method_scope.

(** ** Network *)

Record CertificatePattern := mk_CertificatePattern {
  pattern_id : nat;
  enrollment_uri_list : list string
}.

Record Network := mk_Network {
  state_ : ConnectionState;
  error_ : ConnectionError;
  connectable_ : bool;
  connection_started_ : bool;
  is_active_ : bool;
  priority_ : Z;
  auto_connect_ : bool;
  save_credentials_ : bool;
  priority_order_ : Z;
  added_ : bool;
  notify_failure_ : bool;
  profile_type_ : NetworkProfileType;
  service_path_ : string;
  type_ : ConnectionType;
  name_ : string;
  unique_id_ : string;
  ip_address_ : string;
  device_path_ : string;
  profile_path_ : string;
  proxy_config_ : string;
  client_cert_pattern_ : CertificatePattern;
  enrollment_handler_ : option EnrollmentHandler
}.

Definition set_state_ (v : ConnectionState) (n : Network) : Network :=
  let 'mk_Network st er cn cs ia pr ac sc po ad nf pt sp ty nm ui ip dp pp pc
        cp eh := n in
  mk_Network v er cn cs ia pr ac sc po ad nf pt sp ty nm ui ip dp pp pc cp eh.

Definition set_error_ (v : ConnectionError) (n : Network) : Network :=
  let 'mk_Network st er cn cs ia pr ac sc po ad nf pt sp ty nm ui ip dp pp pc
        cp eh := n in
  mk_Network st v cn cs ia pr ac sc po ad nf pt sp ty nm ui ip dp pp pc cp eh.

Definition set_connection_started (v : bool) (n : Network) : Network :=
  let 'mk_Network st er cn cs ia pr ac sc po ad nf pt sp ty nm ui ip dp pp pc
        cp eh := n in
  mk_Network st er cn v ia pr ac sc po ad nf pt sp ty nm ui ip dp pp pc cp eh.

Definition set_notify_failure_ (v : bool) (n : Network) : Network :=
  let 'mk_Network st er cn cs ia pr ac sc po ad nf pt sp ty nm ui ip dp pp pc
        cp eh := n in
  mk_Network st er cn cs ia pr ac sc po ad v pt sp ty nm ui ip dp pp pc cp eh.

Definition set_name (v : string) (n : Network) : Network :=
  let 'mk_Network st er cn cs ia pr ac sc po ad nf pt sp ty nm ui ip dp pp pc
        cp eh := n in
  mk_Network st er cn cs ia pr ac sc po ad nf pt sp ty v ui ip dp pp pc cp eh.

Definition set_unique_id (v : string) (n : Network) : Network :=
  let 'mk_Network st er cn cs ia pr ac sc po ad nf pt sp ty nm ui ip dp pp pc
        cp eh := n in
  mk_Network st er cn cs ia pr ac sc po ad nf pt sp ty nm v ip dp pp pc cp eh.

Definition set_ip_address_ (v : string) (n : Network) : Network :=
  let 'mk_Network st er cn cs ia pr ac sc po ad nf pt sp ty nm ui ip dp pp pc
        cp eh := n in
  mk_Network st er cn cs ia pr ac sc po ad nf pt sp ty nm ui v dp pp pc cp eh.

Definition set_service_path_ (v : string) (n : Network) : Network :=
  let 'mk_Network st er cn cs ia pr ac sc po ad nf pt sp ty nm ui ip dp pp pc
        cp eh := n in
  mk_Network st er cn cs ia pr ac sc po ad nf pt v ty nm ui ip dp pp pc cp eh.

(** libcros: one entry of the list [CrosListIPConfigs] returns. *)
Record IPConfig := mk_IPConfig {
  ipconfig_address : string;
  ipconfig_netmask : string;
  ipconfig_gateway : string;
  ipconfig_name_servers : string
}.

Inductive X509Certificate := os_cert_handle (n : nat).

(** ** WifiNetwork and VirtualNetwork *)

Record WifiNetwork := mk_WifiNetwork {
  wifi_base : Network;
  encryption_ : ConnectionSecurity;
  passphrase_ : std_string;
  user_passphrase_ : std_string;
  passphrase_required_ : bool;
  identity_ : string;
  eap_method_ : EAPMethod;
  eap_phase_2_auth_ : EAPPhase2Auth;
  eap_server_ca_cert_nss_nickname_ : string;
  eap_client_cert_pkcs11_id_ : std_string;
  eap_use_system_cas_ : bool;
  eap_identity_ : std_string;
  eap_anonymous_identity_ : std_string;
  eap_passphrase_ : std_string;
  eap_client_cert_type_ : ClientCertType
}.

Definition set_wifi_base (v : Network) (w : WifiNetwork) : WifiNetwork :=
  let 'mk_WifiNetwork b en pa up pr id em e2 nn ci us ei ea ep ct := w in
  mk_WifiNetwork v en pa up pr id em e2 nn ci us ei ea ep ct.

Definition set_passphrase_ (v : std_string) (w : WifiNetwork) : WifiNetwork :=
  let 'mk_WifiNetwork b en pa up pr id em e2 nn ci us ei ea ep ct := w in
  mk_WifiNetwork b en v up pr id em e2 nn ci us ei ea ep ct.

Definition set_user_passphrase_ (v : std_string) (w : WifiNetwork)
  : WifiNetwork :=
  let 'mk_WifiNetwork b en pa up pr id em e2 nn ci us ei ea ep ct := w in
  mk_WifiNetwork b en pa v pr id em e2 nn ci us ei ea ep ct.

Definition set_eap_client_cert_pkcs11_id_ (v : std_string) (w : WifiNetwork)
  : WifiNetwork :=
  let 'mk_WifiNetwork b en pa up pr id em e2 nn ci us ei ea ep ct := w in
  mk_WifiNetwork b en pa up pr id em e2 nn v us ei ea ep ct.

Definition set_eap_identity_ (v : std_string) (w : WifiNetwork)
  : WifiNetwork :=
  let 'mk_WifiNetwork b en pa up pr id em e2 nn ci us ei ea ep ct := w in
  mk_WifiNetwork b en pa up pr id em e2 nn ci us v ea ep ct.

Definition set_eap_anonymous_identity_ (v : std_string) (w : WifiNetwork)
  : WifiNetwork :=
  let 'mk_WifiNetwork b en pa up pr id em e2 nn ci us ei ea ep ct := w in
  mk_WifiNetwork b en pa up pr id em e2 nn ci us ei v ep ct.

Definition set_eap_passphrase_ (v : std_string) (w : WifiNetwork)
  : WifiNetwork :=
  let 'mk_WifiNetwork b en pa up pr id em e2 nn ci us ei ea ep ct := w in
  mk_WifiNetwork b en pa up pr id em e2 nn ci us ei ea v ct.

Record VirtualNetwork := mk_VirtualNetwork {
  vpn_base : Network;
  server_hostname_ : string;
  provider_type_ : ProviderType;
  ca_cert_nss_ : std_string;
  psk_passphrase_ : std_string;
  psk_passphrase_required_ : bool;
  client_cert_id_ : std_string;
  username_ : string;
  vpn_user_passphrase_ : std_string;
  user_passphrase_required_ : bool;
  group_name_ : string;
  client_cert_type_ : ClientCertType
}.

Definition set_vpn_base (v : Network) (n : VirtualNetwork) : VirtualNetwork :=
  let 'mk_VirtualNetwork b sh pt ca ps pr ci un up ur gn ct := n in
  mk_VirtualNetwork v sh pt ca ps pr ci un up ur gn ct.

Definition set_ca_cert_nss_ (v : std_string) (n : VirtualNetwork)
  : VirtualNetwork :=
  let 'mk_VirtualNetwork b sh pt ca ps pr ci un up ur gn ct := n in
  mk_VirtualNetwork b sh pt v ps pr ci un up ur gn ct.

Definition set_psk_passphrase_ (v : std_string) (n : VirtualNetwork)
  : VirtualNetwork :=
  let 'mk_VirtualNetwork b sh pt ca ps pr ci un up ur gn ct := n in
  mk_VirtualNetwork b sh pt ca v pr ci un up ur gn ct.

Definition set_client_cert_id_ (v : std_string) (n : VirtualNetwork)
  : VirtualNetwork :=
  let 'mk_VirtualNetwork b sh pt ca ps pr ci un up ur gn ct := n in
  mk_VirtualNetwork b sh pt ca ps pr v un up ur gn ct.

Definition set_vpn_user_passphrase_ (v : std_string) (n : VirtualNetwork)
  : VirtualNetwork :=
  let 'mk_VirtualNetwork b sh pt ca ps pr ci un up ur gn ct := n in
  mk_VirtualNetwork b sh pt ca ps pr ci un v ur gn ct.

(** A [std::string*] argument that points at a field of the object. *)
Record StringField (O : Type) := mk_StringField {
  load : O -> std_string;
  store : std_string -> O -> O
}.
Arguments load {O}.
Arguments store {O}.

Definition eap_client_cert_pkcs11_id_field : StringField WifiNetwork :=
  mk_StringField _ eap_client_cert_pkcs11_id_ set_eap_client_cert_pkcs11_id_.

Definition client_cert_id_field : StringField VirtualNetwork :=
  mk_StringField _ client_cert_id_ set_client_cert_id_.

(** ** CellularDataPlan and NetworkIPConfig *)

(** The enumeration is declared in libcros.  This file names three of its
    values and treats every other value alike (the [default:] branches, the
    final [return string16()]): [CELLULAR_DATA_PLAN_UNKNOWN] is such a
    value. *)
Inductive CellularDataPlanType :=
| CELLULAR_DATA_PLAN_UNKNOWN
| CELLULAR_DATA_PLAN_UNLIMITED | CELLULAR_DATA_PLAN_METERED_PAID
| CELLULAR_DATA_PLAN_METERED_BASE.

(** [base::Time] is its internal value and [base::TimeDelta] its number of
    microseconds, both [int64]. *)
Record CellularDataPlan := mk_CellularDataPlan {
  plan_name : string;
  plan_type : CellularDataPlanType;
  update_time : Z;
  plan_start_time : Z;
  plan_end_time : Z;
  plan_data_bytes : Z;
  data_bytes_used : Z
}.

Definition INT64_MIN : Z := - 2 ^ 63.
Definition INT64_MAX : Z := 2 ^ 63 - 1.
Definition is_int64 (z : Z) : Prop := INT64_MIN <= z <= INT64_MAX.

(** Two's complement wrap-around of a 64-bit signed result. *)
Definition wrap64 (z : Z) : Z := (z + 2 ^ 63) mod 2 ^ 64 - 2 ^ 63.

Definition int64_sub (a b : Z) : Z := wrap64 (a - b).

Definition remaining_data (p : CellularDataPlan) : Z :=
  let data := int64_sub (plan_data_bytes p) (data_bytes_used p) in
  if data <? 0 then 0 else data.

(** [now] is the value of [base::Time::Now()] at the call. *)
Definition remaining_time (now : Z) (p : CellularDataPlan) : Z :=
  let time := int64_sub (plan_end_time p) now in
  if time <? 0 then 0 else time.

(** The enumerators of [IPConfigType] are not named in this file. *)
Definition IPConfigType : Type := Z.

Record NetworkIPConfig := mk_NetworkIPConfig {
  ipc_device_path : string;
  ipc_type : IPConfigType;
  address : string;
  netmask : string;
  gateway : string;
  name_servers : string
}.

(** The body of the [while (t.GetNext())] loop of
    [NetworkIPConfig::GetPrefixLength], over the tokens still to come; [-1]
    is returned from inside the loop. *)
Fixpoint GetPrefixLength_loop (tokens : list string) (count prefixlen : Z)
  : Z :=
  match tokens with
  | [] => if count <? 4 then -1 else prefixlen
  | token :: rest =>
      if count =? 4 then -1
      else if negb (Z.quot prefixlen 8 =? count) then
        if negb (token =? "0")%string then -1
        else GetPrefixLength_loop rest (count + 1) prefixlen
      else if (token =? "255")%string then
        GetPrefixLength_loop rest (count + 1) (prefixlen + 8)
      else if (token =? "254")%string then
        GetPrefixLength_loop rest (count + 1) (prefixlen + 7)
      else if (token =? "252")%string then
        GetPrefixLength_loop rest (count + 1) (prefixlen + 6)
      else if (token =? "248")%string then
        GetPrefixLength_loop rest (count + 1) (prefixlen + 5)
      else if (token =? "240")%string then
        GetPrefixLength_loop rest (count + 1) (prefixlen + 4)
      else if (token =? "224")%string then
        GetPrefixLength_loop rest (count + 1) (prefixlen + 3)
      else if (token =? "192")%string then
        GetPrefixLength_loop rest (count + 1) (prefixlen + 2)
      else if (token =? "128")%string then
        GetPrefixLength_loop rest (count + 1) (prefixlen + 1)
      else if (token =? "0")%string then
        GetPrefixLength_loop rest (count + 1) (prefixlen + 0)
      else -1
  end.

(** ** The netmask forms the design document calls canonical

    Written from the document, to be compared with [GetPrefixLength_loop]:
    a mask byte is one of 255, 254, 252, 248, 240, 224, 192, 128, 0; a netmask
    is four of them, high to low: bytes 255, then at most one smaller byte,
    then zeros only. *)

Definition mask_byte_bits (token : string) : option Z :=
  if (token =? "255")%string then Some 8
  else if (token =? "254")%string then Some 7
  else if (token =? "252")%string then Some 6
  else if (token =? "248")%string then Some 5
  else if (token =? "240")%string then Some 4
  else if (token =? "224")%string then Some 3
  else if (token =? "192")%string then Some 2
  else if (token =? "128")%string then Some 1
  else if (token =? "0")%string then Some 0
  else None.

Definition all_zero_bytes (tokens : list string) : bool :=
  forallb (fun t => (t =? "0")%string) tokens.

Fixpoint contiguous_mask_bits (tokens : list string) : option Z :=
  match tokens with
  | [] => Some 0
  | token :: rest =>
      match mask_byte_bits token with
      | None => None
      | Some bits =>
          if bits =? 8 then
            match contiguous_mask_bits rest with
            | Some more => Some (8 + more)
            | None => None
            end
          else if all_zero_bytes rest then Some bits else None
      end
  end.

Definition canonical_prefix_length (tokens : list string) : option Z :=
  if Nat.eqb (List.length tokens) 4 then contiguous_mask_bits tokens
  else None.

(** ** Reference implementations of the outside helpers

    They instantiate the Section variables below at concrete inputs. *)

Fixpoint is_delim (delims : string) (c : ascii) : bool :=
  match delims with
  | EmptyString => false
  | String d r => Ascii.eqb c d || is_delim r c
  end.

Definition flush (cur : string) (k : list string) : list string :=
  match cur with EmptyString => k | _ => cur :: k end.

Fixpoint tokens_from (delims s cur : string) : list string :=
  match s with
  | EmptyString => flush cur []
  | String c r =>
      if is_delim delims c then flush cur (tokens_from delims r "")
      else tokens_from delims r (cur ++ String c "")
  end.

(** Modelled from the spec: base::StringTokenizer (base/string_tokenizer.h)
    is missing; the document speaks of the dot-separated bytes of a netmask.
    This tokenizer yields the non-empty runs of characters between
    delimiters. *)
Definition StringTokenizer_model (str delims : string) : list string :=
  tokens_from delims str "".

Definition hex_digit (c : ascii) : option N :=
  let n := N_of_ascii c in
  if (48 <=? n)%N && (n <=? 57)%N then Some (n - 48)%N
  else if (97 <=? n)%N && (n <=? 102)%N then Some (n - 87)%N
  else if (65 <=? n)%N && (n <=? 70)%N then Some (n - 55)%N
  else None.

(** Modelled from the spec: base::HexStringToBytes
    (base/string_number_conversions.h) is missing; the document has it decode
    the hex dump "48656c6c6f" to "Hello", and decoding fails on a character
    that is not a hexadecimal digit and on an odd number of digits.  The
    result is the success flag and the bytes written. *)
Fixpoint HexStringToBytes_model (input : string) : bool * string :=
  match input with
  | EmptyString => (true, "")
  | String _ EmptyString => (false, "")
  | String a (String b r) =>
      match hex_digit a, hex_digit b with
      | Some msb, Some lsb =>
          let '(ok, out) := HexStringToBytes_model r in
          (ok, String (ascii_of_N (16 * msb + lsb)) out)
      | _, _ => (false, "")
      end
  end.

Definition is_7bit (c : ascii) : bool := (N_of_ascii c <? 128)%N.

Fixpoint all_7bit (s : string) : bool :=
  match s with
  | EmptyString => true
  | String c r => is_7bit c && all_7bit r
  end.

(** Modelled from the spec: IsStringUTF8, base::ReadUnicodeCharacter and
    base::WriteUnicodeCharacter (base/) are missing; the document has
    unreadable bytes replaced by U+FFFD.  These versions read 7-bit characters
    only: a character occupies one byte and is its own code point. *)
Definition IsStringUTF8_model (s : string) : bool := all_7bit s.

Definition ReadUnicodeCharacter_model (src : string) (char_index : nat)
  : bool * nat * Z :=
  match String.get char_index src with
  | Some c => (is_7bit c, O, Z.of_N (N_of_ascii c))
  | None => (false, O, 0)
  end.

Definition WriteUnicodeCharacter_model (code_point : Z) : string :=
  if code_point <? 128 then String (ascii_of_N (Z.to_N code_point)) ""
  else String (ascii_of_N 239) (String (ascii_of_N 191)
         (String (ascii_of_N 189) "")).

(** Modelled from the spec: SecurityToString (native_network_constants.h) is
    missing; the document gives the unique id "WEP|Hello" for a WEP network
    named "Hello".  The other names are those of [GetEncryptionString]. *)
Definition SecurityToString_model (security : ConnectionSecurity) : string :=
  match security with
  | SECURITY_UNKNOWN => "Unknown"
  | SECURITY_NONE => ""
  | SECURITY_WEP => "WEP"
  | SECURITY_WPA => "WPA"
  | SECURITY_RSN => "RSN"
  | SECURITY_8021X => "8021X"
  | SECURITY_PSK => "PSK"
  end.

(** Modelled from the spec: ProviderTypeToString is missing; any naming of
    the provider types serves. *)
Definition ProviderTypeToString_model (p : ProviderType) : string :=
  match p with
  | PROVIDER_TYPE_L2TP_IPSEC_PSK => "l2tpipsec-psk"
  | PROVIDER_TYPE_L2TP_IPSEC_USER_CERT => "l2tpipsec-user-cert"
  | PROVIDER_TYPE_OPEN_VPN => "openvpn"
  | PROVIDER_TYPE_MAX => "unknown"
  end.

(** Modelled from the spec: Network::IsConnectingState and IsConnectedState
    (network_library.h) are missing and the document does not list them.
    These versions take Association, Configuration and Carrier as connecting
    and Ready, Portal and Online as connected; the theorems hold for every
    choice. *)
Definition IsConnectingState_model (s : ConnectionState) : bool :=
  match s with
  | STATE_ASSOCIATION | STATE_CONFIGURATION | STATE_CARRIER => true
  | _ => false
  end.

Definition IsConnectedState_model (s : ConnectionState) : bool :=
  match s with
  | STATE_READY | STATE_ONLINE | STATE_PORTAL => true
  | _ => false
  end.

(** ** Sample objects

    Networks as the constructors leave them (the priority constant of the
    header is taken as 0), with the fields of each scenario filled in. *)

Definition no_pattern : CertificatePattern := mk_CertificatePattern 0 [].

Definition enrollment_pattern : CertificatePattern :=
  mk_CertificatePattern 1 ["https://enroll.example.com/"].

Definition sample_Network (service_path : string) (type : ConnectionType)
  (name : string) (state : ConnectionState) (pattern : CertificatePattern)
  (handler : option EnrollmentHandler) : Network :=
  mk_Network state ERROR_NO_ERROR true false false 0 false false 0 false false
    PROFILE_NONE service_path type name "" "" "" "" "" pattern handler.

(** A cellular network that is connected. *)
Definition cellular_ready : Network :=
  sample_Network "/service/cell0" TYPE_CELLULAR "Carrier LTE" STATE_READY
    no_pattern None.

(** A network that was never connected. *)
Definition ethernet_idle : Network :=
  sample_Network "/service/eth0" TYPE_ETHERNET "Ethernet" STATE_IDLE
    no_pattern None.

Definition sample_WifiNetwork (base : Network)
  (encryption : ConnectionSecurity) : WifiNetwork :=
  mk_WifiNetwork base encryption (fresh "") (fresh "") false ""
    EAP_METHOD_UNKNOWN EAP_PHASE_2_AUTH_AUTO "" (fresh "") true (fresh "")
    (fresh "") (fresh "") CLIENT_CERT_TYPE_NONE.

(** A WEP network whose SSID has not been set yet. *)
Definition wep_wifi : WifiNetwork :=
  sample_WifiNetwork
    (sample_Network "/service/wifi0" TYPE_WIFI "" STATE_IDLE no_pattern None)
    SECURITY_WEP.

(** The same network seen under two service paths. *)
Definition home_wifi_a : WifiNetwork :=
  sample_WifiNetwork
    (sample_Network "/service/wifi1" TYPE_WIFI "Home" STATE_IDLE no_pattern
       None) SECURITY_WPA.

Definition home_wifi_b : WifiNetwork :=
  sample_WifiNetwork
    (sample_Network "/service/wifi7" TYPE_WIFI "Home" STATE_READY no_pattern
       None) SECURITY_WPA.


(** An OpenVPN network with every credential in place. *)
Definition complete_openvpn : VirtualNetwork :=
  mk_VirtualNetwork
    (sample_Network "/service/vpn0" TYPE_VPN "Office" STATE_IDLE no_pattern
       None)
    "vpn.example.com" PROVIDER_TYPE_OPEN_VPN (fresh "") (fresh "") false
    (fresh "0:1a2b") "alice" (fresh "hunter2") true "" CLIENT_CERT_TYPE_NONE.


Definition office_vpn_a : VirtualNetwork :=
  mk_VirtualNetwork
    (sample_Network "/service/vpn1" TYPE_VPN "Office" STATE_IDLE no_pattern
       None)
    "vpn.example.com" PROVIDER_TYPE_L2TP_IPSEC_PSK (fresh "") (fresh "") true
    (fresh "") "" (fresh "") true "" CLIENT_CERT_TYPE_NONE.

Definition office_vpn_b : VirtualNetwork :=
  mk_VirtualNetwork
    (sample_Network "/service/vpn9" TYPE_VPN "Office (2)" STATE_READY
       no_pattern None)
    "vpn.example.com" PROVIDER_TYPE_L2TP_IPSEC_PSK (fresh "") (fresh "psk")
    true (fresh "") "bob" (fresh "") true "" CLIENT_CERT_TYPE_NONE.

(** A metered plan of 5 GB with 1 GB used, ending at time 2000000. *)
Definition metered_plan : CellularDataPlan :=
  mk_CellularDataPlan "5 GB" CELLULAR_DATA_PLAN_METERED_PAID 0 1000000 2000000
    5368709120 1073741824.

(** A plan whose byte counts are at the ends of the 64-bit range. *)
Definition overflowing_plan : CellularDataPlan :=
  mk_CellularDataPlan "Unknown" CELLULAR_DATA_PLAN_METERED_PAID 0 0 INT64_MAX
    INT64_MAX (-1).

Definition netmask_config (netmask : string) : NetworkIPConfig :=
  mk_NetworkIPConfig "/device/wlan0" 1 "192.168.1.10" netmask "192.168.1.1"
    "8.8.8.8".

(** ** The property map of a Network and the values it owns

    [property_map_] is a [std::map<PropertyIndex, base::Value*>]: a list of
    entries with increasing keys.  The values live on the heap: a heap is the
    list of its live objects, each at its address; address 0 is [NULL].
    [malloc] chooses the address of a new object. *)

Definition PropertyIndex : Type := Z.
Definition ValuePtr : Type := nat.
Definition NULL : ValuePtr := O.
Definition Heap : Type := list (ValuePtr * PropertyValue).
Definition PropertyMap : Type := list (PropertyIndex * ValuePtr).

Fixpoint deref (p : ValuePtr) (h : Heap) : option PropertyValue :=
  match h with
  | [] => None
  | (q, v) :: rest => if Nat.eqb p q then Some v else deref p rest
  end.

(** [delete p]: the object at [p] is live no longer; [delete NULL] does
    nothing. *)
Definition heap_delete (p : ValuePtr) (h : Heap) : Heap :=
  filter (fun c => negb (Nat.eqb (fst c) p)) h.

(** [property_map_.find(index)] *)
Fixpoint map_find (index : PropertyIndex) (m : PropertyMap)
  : option ValuePtr :=
  match m with
  | [] => None
  | (k, p) :: rest => if index =? k then Some p else map_find index rest
  end.

(** [property_map_.erase(iter)] for the entry found under [index] *)
Fixpoint map_erase (index : PropertyIndex) (m : PropertyMap) : PropertyMap :=
  match m with
  | [] => []
  | (k, p) :: rest =>
      if index =? k then rest else (k, p) :: map_erase index rest
  end.

(** [property_map_[index] = p] *)
Fixpoint map_store (index : PropertyIndex) (p : ValuePtr) (m : PropertyMap)
  : PropertyMap :=
  match m with
  | [] => [(index, p)]
  | (k, q) :: rest =>
      if index <? k then (index, p) :: (k, q) :: rest
      else if index =? k then (index, p) :: rest
      else (k, q) :: map_store index p rest
  end.

(** [Network::UpdatePropertyMap(index, value)] on the map and the heap.
    [value] is the pointer passed in.  The entry found (or [NULL], which
    [operator[]] puts in for a new key) is deleted first, then the copy
    of [*value] is made: the result is [None] when [value] does not point
    to a live object at that moment. *)
Definition Network_UpdatePropertyMap (malloc : Heap -> ValuePtr)
  (index : PropertyIndex) (value : ValuePtr) (m : PropertyMap) (h : Heap)
  : option (PropertyMap * Heap) :=
  if Nat.eqb value NULL then
    match map_find index m with
    | Some p => Some (map_erase index m, heap_delete p h)
    | None => Some (m, h)
    end
  else
    let entry := match map_find index m with
                 | Some p => p
                 | None => NULL
                 end in
    let h1 := heap_delete entry h in
    match deref value h1 with
    | Some v =>
        let copy := malloc h1 in
        Some (map_store index copy m, (copy, v) :: h1)
    | None => None
    end.

(** [Network::GetProperty(index, &value)]: the pointer stored, if any. *)
Definition Network_GetProperty (index : PropertyIndex) (m : PropertyMap)
  : option ValuePtr :=
  map_find index m.

(** [Network::~Network()]: every value of the map is deleted. *)
Fixpoint Network_destructor (m : PropertyMap) (h : Heap) : Heap :=
  match m with
  | [] => h
  | (_, p) :: rest => Network_destructor rest (heap_delete p h)
  end.

(** An allocator returns an address that is not [NULL] and not in use. *)
Definition allocator (malloc : Heap -> ValuePtr) : Prop :=
  forall h, malloc h <> NULL /\ ~ In (malloc h) (map fst h).

(** One allocator: the address after the highest one in use. *)
Definition next_address (h : Heap) : ValuePtr := S (list_max (map fst h)).

(** The heap has one object per address and none at [NULL]. *)
Definition heap_ok (h : Heap) : Prop :=
  NoDup (map fst h) /\ ~ In NULL (map fst h).

(** The map owns its values: keys increase, every pointer stored points to
    a live object, and no two entries share one. *)
Definition owns (m : PropertyMap) (h : Heap) : Prop :=
  Sorted.StronglySorted Z.lt (map fst m) /\
  NoDup (map snd m) /\
  forall p, In p (map snd m) -> In p (map fst h).

(** The objects of the heap that the map does not own. *)
Definition foreign (m : PropertyMap) (h : Heap) : Heap :=
  filter (fun c => negb (existsb (Nat.eqb (fst c)) (map snd m))) h.

(** ** Netmasks as numbers

    The number a decimal token denotes, the 32-bit (in general 8n-bit) value
    of a dotted netmask, and the tokens of the netmask with a given number
    of leading one bits. *)

Definition digit_value (c : ascii) : option Z :=
  let n := N_of_ascii c in
  if (48 <=? n)%N && (n <=? 57)%N then Some (Z.of_N n - 48) else None.

Fixpoint decimal_digits (s : string) (acc : Z) : option Z :=
  match s with
  | EmptyString => Some acc
  | String c r =>
      match digit_value c with
      | Some d => decimal_digits r (10 * acc + d)
      | None => None
      end
  end.

Definition decimal_value (s : string) : option Z :=
  match s with
  | EmptyString => None
  | _ => decimal_digits s 0
  end.

Fixpoint netmask_value (tokens : list string) : option Z :=
  match tokens with
  | [] => Some 0
  | token :: rest =>
      match decimal_value token, netmask_value rest with
      | Some byte, Some low =>
          Some (byte * 2 ^ (8 * Z.of_nat (List.length rest)) + low)
      | _, _ => None
      end
  end.

Definition mask_byte_token (bits : Z) : string :=
  if bits <=? 0 then "0"
  else if bits =? 1 then "128"
  else if bits =? 2 then "192"
  else if bits =? 3 then "224"
  else if bits =? 4 then "240"
  else if bits =? 5 then "248"
  else if bits =? 6 then "252"
  else if bits =? 7 then "254"
  else "255".

Definition prefix_tokens (prefix : Z) : list string :=
  map (fun i => mask_byte_token (prefix - 8 * i)) [0; 1; 2; 3].

(** ** Texts shown to the user

    The localized messages and the formatting functions are outside this
    file: a text is the message id with its arguments, or the formatting
    function with its argument; [NoText] is the empty [string16()]. *)

Inductive MessageId :=
| IDS_NETWORK_DATA_NONE_AVAILABLE_MESSAGE
| IDS_NETWORK_DATA_LESS_THAN_ONE_MB_AVAILABLE_MESSAGE
| IDS_NETWORK_DATA_MB_AVAILABLE_MESSAGE
| IDS_OPTIONS_SETTINGS_INTERNET_OPTIONS_UNLIMITED.

Inductive Text :=
| NoText
| GetStringUTF16 (id : MessageId)
| GetStringFUTF16 (id : MessageId) (argument : Text)
| Int64ToString_text (n : Z)
| FormatBytes (bytes : Z)
| TimeRemaining (delta : Z).

Definition GetPlanExpiration (now : Z) (p : CellularDataPlan) : Text :=
  TimeRemaining (remaining_time now p).

Definition GetDataRemainingDesciption (p : CellularDataPlan) : Text :=
  let remaining_bytes := remaining_data p in
  match plan_type p with
  | CELLULAR_DATA_PLAN_UNLIMITED =>
      GetStringUTF16 IDS_OPTIONS_SETTINGS_INTERNET_OPTIONS_UNLIMITED
  | CELLULAR_DATA_PLAN_METERED_PAID => FormatBytes remaining_bytes
  | CELLULAR_DATA_PLAN_METERED_BASE => FormatBytes remaining_bytes
  | _ => NoText
  end.

Definition GetUsageInfo (now : Z) (p : CellularDataPlan) : Text :=
  match plan_type p with
  | CELLULAR_DATA_PLAN_UNLIMITED => GetPlanExpiration now p
  | CELLULAR_DATA_PLAN_METERED_PAID | CELLULAR_DATA_PLAN_METERED_BASE =>
      let remaining_bytes := remaining_data p in
      if remaining_bytes =? 0 then
        GetStringUTF16 IDS_NETWORK_DATA_NONE_AVAILABLE_MESSAGE
      else if remaining_bytes <? 1024 * 1024 then
        GetStringUTF16 IDS_NETWORK_DATA_LESS_THAN_ONE_MB_AVAILABLE_MESSAGE
      else
        let remaining_mb := Z.quot remaining_bytes (1024 * 1024) in
        GetStringFUTF16 IDS_NETWORK_DATA_MB_AVAILABLE_MESSAGE
          (Int64ToString_text remaining_mb)
  | _ => NoText
  end.

(** ** CellularNetwork *)

Inductive ActivationState :=
| ACTIVATION_STATE_UNKNOWN | ACTIVATION_STATE_ACTIVATED
| ACTIVATION_STATE_ACTIVATING | ACTIVATION_STATE_NOT_ACTIVATED
| ACTIVATION_STATE_PARTIALLY_ACTIVATED.

Inductive NetworkTechnology :=
| NETWORK_TECHNOLOGY_UNKNOWN | NETWORK_TECHNOLOGY_1XRTT
| NETWORK_TECHNOLOGY_EVDO | NETWORK_TECHNOLOGY_GPRS | NETWORK_TECHNOLOGY_EDGE
| NETWORK_TECHNOLOGY_UMTS | NETWORK_TECHNOLOGY_HSPA
| NETWORK_TECHNOLOGY_HSPA_PLUS | NETWORK_TECHNOLOGY_LTE
| NETWORK_TECHNOLOGY_LTE_ADVANCED | NETWORK_TECHNOLOGY_GSM.

Inductive NetworkRoamingState :=
| ROAMING_STATE_UNKNOWN | ROAMING_STATE_HOME | ROAMING_STATE_ROAMING.

Record CellularNetwork := mk_CellularNetwork {
  cellular_base : Network;
  activation_state_ : ActivationState;
  network_technology_ : NetworkTechnology;
  roaming_state_ : NetworkRoamingState;
  using_post_ : bool;
  payment_url_ : string;
  usage_url_ : string;
  post_data_ : string
}.

Definition set_activation_state_ (v : ActivationState) (c : CellularNetwork)
  : CellularNetwork :=
  let 'mk_CellularNetwork b a t r u pay use post := c in
  mk_CellularNetwork b v t r u pay use post.

(** The calls a CellularNetwork makes to libcros. *)
Inductive CellularCall :=
| CrosActivateCellularModem_call (service_path : string)
| CrosRequestCellularDataPlanUpdate_call (service_path : string).

Definition SupportsDataPlan (c : CellularNetwork) : bool :=
  negb (usage_url_ c =? "")%string || negb (payment_url_ c =? "")%string.

Definition SupportsActivation (c : CellularNetwork) : bool :=
  SupportsDataPlan c.

(** ** More sample objects *)

(** A connected cellular network on the device /device/cell0. *)
Definition cellular_on_device : Network :=
  mk_Network STATE_READY ERROR_NO_ERROR true false false 0 false false 0 false
    false PROFILE_NONE "/service/cell0" TYPE_CELLULAR "Carrier LTE" ""
    "10.0.0.9" "/device/cell0" "" "" no_pattern None.

(** libcros lists two IP configurations for /device/cell0, the first without
    address. *)
Definition two_ipconfigs (device_path : string) : option (list IPConfig) :=
  if (device_path =? "/device/cell0")%string
  then Some [mk_IPConfig "" "" "" ""; 
             mk_IPConfig "10.0.0.2" "255.255.255.0" "10.0.0.1" "8.8.8.8"]
  else None.

(** A network that failed before and is idle now. *)
Definition failed_before : Network :=
  mk_Network STATE_IDLE ERROR_DHCP_FAILED true true false 0 false false 0
    false true PROFILE_NONE "/service/wifi3" TYPE_WIFI "Cafe" "" "" "" "" ""
    no_pattern None.

(** A network that is being disconnected. *)
Definition disconnecting : Network :=
  sample_Network "/service/wifi4" TYPE_WIFI "Cafe" STATE_DISCONNECT
    no_pattern None.

(** An 802.1X network with EAP-TLS, no certificate yet. *)
Definition tls_wifi : WifiNetwork :=
  mk_WifiNetwork
    (sample_Network "/service/wifi5" TYPE_WIFI "Corp" STATE_IDLE no_pattern
       None)
    SECURITY_8021X (fresh "remembered") (fresh "") false "" EAP_METHOD_TLS
    EAP_PHASE_2_AUTH_AUTO "" (fresh "") true (fresh "") (fresh "") (fresh "")
    CLIENT_CERT_TYPE_NONE.

Definition peap_wifi : WifiNetwork :=
  mk_WifiNetwork
    (sample_Network "/service/wifi6" TYPE_WIFI "Campus" STATE_IDLE no_pattern
       None)
    SECURITY_8021X (fresh "") (fresh "") false "" EAP_METHOD_PEAP
    EAP_PHASE_2_AUTH_AUTO "" (fresh "") true (fresh "") (fresh "") (fresh "")
    CLIENT_CERT_TYPE_NONE.

(** An L2TP/IPsec user-certificate network that lacks only the
    certificate. *)
Definition cert_vpn : VirtualNetwork :=
  mk_VirtualNetwork
    (sample_Network "/service/vpn3" TYPE_VPN "Branch" STATE_IDLE
       enrollment_pattern None)
    "branch.example.com" PROVIDER_TYPE_L2TP_IPSEC_USER_CERT (fresh "")
    (fresh "") false (fresh "") "dave" (fresh "") false ""
    CLIENT_CERT_TYPE_PATTERN.

(** A pre-shared-key network with a host name and nothing else. *)
Definition new_psk_vpn : VirtualNetwork :=
  mk_VirtualNetwork
    (sample_Network "/service/vpn4" TYPE_VPN "Home" STATE_IDLE no_pattern
       None)
    "home.example.com" PROVIDER_TYPE_L2TP_IPSEC_PSK (fresh "") (fresh "") true
    (fresh "") "" (fresh "") true "" CLIENT_CERT_TYPE_NONE.

(** A heap with two objects, of which the map owns the one at address 1
    under key 3; the object at address 5 is the caller's. *)
Definition sample_heap : Heap :=
  [(1%nat, StringValue "office"); (5%nat, IntegerValue 7)].

Definition sample_map : PropertyMap := [(3, 1%nat)].

Definition activating_cellular : CellularNetwork :=
  mk_CellularNetwork cellular_ready ACTIVATION_STATE_NOT_ACTIVATED
    NETWORK_TECHNOLOGY_LTE ROAMING_STATE_HOME false
    "https://pay.example.com/" "" "".

(** A metered plan that is overdrawn. *)
Definition overdrawn_plan : CellularDataPlan :=
  mk_CellularDataPlan "1 GB" CELLULAR_DATA_PLAN_METERED_BASE 0 1000000 2000000
    1073741824 1073741999.

(** A plan of a type this file does not name, with data left. *)
Definition untyped_plan : CellularDataPlan :=
  mk_CellularDataPlan "?" CELLULAR_DATA_PLAN_UNKNOWN 0 1000000 2000000
    1073741824 0.

(** A number format to instantiate [Int64ToString] with
    (base/string_number_conversions.h is outside this file): decimal, with
    a minus sign when negative. *)
Definition Int64ToString_model (value : Z) : string :=
  DecimalString.NilZero.string_of_int (Z.to_int value).

(** Numbers to instantiate [CellularDataPlanType_value] with (the
    enumeration is declared in libcros): the types numbered from 0. *)
Definition CellularDataPlanType_value_model (t : CellularDataPlanType) : Z :=
  match t with
  | CELLULAR_DATA_PLAN_UNKNOWN => 0
  | CELLULAR_DATA_PLAN_UNLIMITED => 1
  | CELLULAR_DATA_PLAN_METERED_PAID => 2
  | CELLULAR_DATA_PLAN_METERED_BASE => 3
  end.

(** ** The strings in memory

    What [WipeString] promises is about memory, and what happens there is
    decided by the standard library.  [InMemory] has the string operations of
    the credential functions on libstdc++'s reference-counted [std::string]:
    a string object holds a pointer to a buffer, an assignment makes two
    strings use one buffer, and a string writes into its buffer only while no
    other string uses it; otherwise it first moves to a buffer of its own.  A
    library whose strings copy the characters on assignment is the case where
    every buffer has one user. *)

Module InMemory.

Definition StringPtr : Type := nat.
Definition BufferPtr : Type := nat.

(** A buffer: the characters of the strings that use it, the rest of the
    allocation behind them, and the number of strings that use it.  A buffer
    without users is free memory; its bytes stay as they are. *)
Record Buffer := mk_Buffer {
  contents : string;
  slack : string;
  users : nat
}.

Definition bytes (b : Buffer) : string := contents b ++ slack b.

Definition set_users (n : nat) (b : Buffer) : Buffer :=
  mk_Buffer (contents b) (slack b) n.

(** The buffer each string object points to, the buffers, and the address
    the next allocation returns: buffers are handed out in order. *)
Record Memory := mk_Memory {
  buffer_of : StringPtr -> BufferPtr;
  buffer_at : BufferPtr -> Buffer;
  brk : BufferPtr
}.

(** The buffer of the empty strings that were never assigned to: it is not
    counted and never written. *)
Definition empty_rep : BufferPtr := 0%nat.

Definition store (p : BufferPtr) (b : Buffer) (m : Memory) : Memory :=
  mk_Memory (buffer_of m)
    (fun q => if Nat.eqb q p then b else buffer_at m q) (brk m).

Definition point (str : StringPtr) (p : BufferPtr) (m : Memory) : Memory :=
  mk_Memory (fun s => if Nat.eqb s str then p else buffer_of m s)
    (buffer_at m) (brk m).

Definition allocate (b : Buffer) (m : Memory) : BufferPtr * Memory :=
  (brk m,
   mk_Memory (buffer_of m)
     (fun q => if Nat.eqb q (brk m) then b else buffer_at m q) (S (brk m))).

Definition is_shared (p : BufferPtr) (m : Memory) : bool :=
  negb (Nat.eqb p empty_rep) && Nat.ltb 1 (users (buffer_at m p)).

(** One string more uses the buffer at [p]. *)
Definition grab (p : BufferPtr) (m : Memory) : Memory :=
  if Nat.eqb p empty_rep then m
  else store p (set_users (S (users (buffer_at m p))) (buffer_at m p)) m.

(** One string less uses the buffer at [p]. *)
Definition release (p : BufferPtr) (m : Memory) : Memory :=
  if Nat.eqb p empty_rep then m
  else store p (set_users (pred (users (buffer_at m p))) (buffer_at m p)) m.

Definition value (str : StringPtr) (m : Memory) : string :=
  contents (buffer_at m (buffer_of m str)).

Definition size (str : StringPtr) (m : Memory) : nat :=
  String.length (value str m).

Definition empty (str : StringPtr) (m : Memory) : bool :=
  match value str m with EmptyString => true | _ => false end.

(** The string leaves its buffer for a new one that holds [v]. *)
Definition move_to_new (str : StringPtr) (v : string) (m : Memory)
  : Memory :=
  let '(q, m') := allocate (mk_Buffer v "" 1) (release (buffer_of m str) m) in
  point str q m'.

(** [str->assign(n, c)] *)
Definition assign_fill (str : StringPtr) (n : nat) (c : ascii) (m : Memory)
  : Memory :=
  let p := buffer_of m str in
  let b := buffer_at m p in
  if is_shared p m || Nat.ltb (String.length (bytes b)) n
  then move_to_new str (fill n c) m
  else if Nat.eqb p empty_rep then m
  else store p (mk_Buffer (fill n c) (drop n (bytes b)) (users b)) m.

(** [str->clear()] *)
Definition clear (str : StringPtr) (m : Memory) : Memory :=
  let p := buffer_of m str in
  let b := buffer_at m p in
  if is_shared p m then move_to_new str "" m
  else if Nat.eqb p empty_rep then m
  else store p (mk_Buffer "" (bytes b) (users b)) m.

(** [*str = from] *)
Definition assign (str from : StringPtr) (m : Memory) : Memory :=
  let p := buffer_of m str in
  let q := buffer_of m from in
  if Nat.eqb p q then m
  else point str q (release p (grab q m)).

(** The destructor of the string at [str]. *)
Definition destroy (str : StringPtr) (m : Memory) : Memory :=
  release (buffer_of m str) m.

(** Erase the memory used by a string, then clear it. *)
Definition WipeString (str : StringPtr) (m : Memory) : Memory :=
  clear str (assign_fill str (size str m) NUL m).

(** A VirtualNetwork and a WifiNetwork in memory: the addresses of the
    string members the credential functions touch. *)
Record VirtualNetwork := mk_VirtualNetwork {
  ca_cert_nss_ : StringPtr;
  psk_passphrase_ : StringPtr;
  client_cert_id_ : StringPtr;
  username_ : StringPtr;
  vpn_user_passphrase_ : StringPtr
}.

Record WifiNetwork := mk_WifiNetwork {
  passphrase_ : StringPtr;
  user_passphrase_ : StringPtr;
  eap_client_cert_pkcs11_id_ : StringPtr;
  eap_identity_ : StringPtr;
  eap_anonymous_identity_ : StringPtr;
  eap_passphrase_ : StringPtr
}.

Definition VirtualNetwork_EraseCredentials (this : VirtualNetwork)
  (m : Memory) : Memory :=
  let m := WipeString (ca_cert_nss_ this) m in
  let m := WipeString (psk_passphrase_ this) m in
  let m := WipeString (client_cert_id_ this) m in
  WipeString (vpn_user_passphrase_ this) m.

Definition VirtualNetwork_CopyCredentialsFromRemembered
  (this remembered : VirtualNetwork) (m : Memory) : Memory :=
  let copy_if_empty (mine theirs : StringPtr) (m : Memory) :=
    if empty mine m then assign mine theirs m else m in
  let m := copy_if_empty (ca_cert_nss_ this) (ca_cert_nss_ remembered) m in
  let m :=
    copy_if_empty (psk_passphrase_ this) (psk_passphrase_ remembered) m in
  let m :=
    copy_if_empty (client_cert_id_ this) (client_cert_id_ remembered) m in
  let m := copy_if_empty (username_ this) (username_ remembered) m in
  copy_if_empty (vpn_user_passphrase_ this) (vpn_user_passphrase_ remembered)
    m.

Definition WifiNetwork_EraseCredentials (this : WifiNetwork) (m : Memory)
  : Memory :=
  let m := WipeString (passphrase_ this) m in
  let m := WipeString (user_passphrase_ this) m in
  let m := WipeString (eap_client_cert_pkcs11_id_ this) m in
  let m := WipeString (eap_identity_ this) m in
  let m := WipeString (eap_anonymous_identity_ this) m in
  WipeString (eap_passphrase_ this) m.

(** The members [SetPassphrase] assigns; the property it sends to the
    service is a copy made from [passphrase] and touches no member. *)
Definition WifiNetwork_SetPassphrase (this : WifiNetwork)
  (passphrase : StringPtr) (m : Memory) : Memory :=
  if negb (empty passphrase m) then
    let m := assign (user_passphrase_ this) passphrase m in
    assign (passphrase_ this) passphrase m
  else assign (user_passphrase_ this) (passphrase_ this) m.

(** The strings [strs] wiped one after the other. *)
Definition wipe_all (strs : list StringPtr) (m : Memory) : Memory :=
  fold_left (fun m str => WipeString str m) strs m.

Definition VirtualNetwork_secrets (this : VirtualNetwork)
  : list StringPtr :=
  [ca_cert_nss_ this; psk_passphrase_ this; client_cert_id_ this;
   vpn_user_passphrase_ this].

Definition WifiNetwork_secrets (this : WifiNetwork) : list StringPtr :=
  [passphrase_ this; user_passphrase_ this; eap_client_cert_pkcs11_id_ this;
   eap_identity_ this; eap_anonymous_identity_ this; eap_passphrase_ this].

(** How many of the strings [strs] use the buffer at [p]. *)
Definition uses (p : BufferPtr) (strs : list StringPtr) (m : Memory) : nat :=
  List.length (filter (fun str => Nat.eqb (buffer_of m str) p) strs).

(** The memory is in order for wiping [strs]: the strings are different
    objects, their buffers were allocated, a buffer has at least the users
    among [strs] that point to it, and the buffer of the empty strings is
    empty. *)
Definition in_order (strs : list StringPtr) (m : Memory) : Prop :=
  NoDup strs /\
  (forall str, In str strs -> (buffer_of m str < brk m)%nat) /\
  (forall p, p <> empty_rep ->
     (uses p strs m <= users (buffer_at m p))%nat) /\
  (empty_rep < brk m)%nat /\
  contents (buffer_at m empty_rep) = "".

Definition remembered_vpn : VirtualNetwork :=
  (mk_VirtualNetwork 20 21 22 23 24)%nat.


(** A WifiNetwork without credentials and the string at 30 that holds the
    passphrase the user typed. *)
Definition this_wifi : WifiNetwork :=
  (mk_WifiNetwork 10 11 12 13 14 15)%nat.

Definition typed_passphrase : Memory :=
  mk_Memory (fun str => if Nat.eqb str 30 then 1%nat else empty_rep)
    (fun p => if Nat.eqb p 1 then mk_Buffer "s3cret" "" 1
              else mk_Buffer "" "" 0)
    2%nat.

(** The passphrase was set from the typed string, which is gone since. *)
Definition passphrase_set : Memory :=
  destroy 30%nat (WifiNetwork_SetPassphrase this_wifi 30%nat typed_passphrase).

End InMemory.

(** ** The member functions *)

Section NetworkLibrary.

(** Outside this file: libcros and the certificate store. *)
Variable libcros_loaded : bool.
Variable CrosListIPConfigs : string -> option (list IPConfig).
Variable Empty : CertificatePattern -> bool.
Variable GetMatch : CertificatePattern -> option X509Certificate.
Variable GetPkcs11Id : X509Certificate -> string.

(** network_library.h and native_network_constants.h. *)
Variable IsConnectingState : ConnectionState -> bool.
Variable IsConnectedState : ConnectionState -> bool.
Variable SecurityToString : ConnectionSecurity -> string.
Variable ProviderTypeToString : ProviderType -> string.

(** base/: [HexStringToBytes input] is the success flag and the bytes
    written; [DetectEncoding] the detected encoding, if any;
    [ConvertToUtf8AndNormalize] the success flag and the output;
    [ReadUnicodeCharacter src i] tells whether a character was read at byte
    [i], by how many bytes the index moved forward to its last byte, and the
    code point; [WriteUnicodeCharacter] the bytes appended to the output;
    [StringTokenizer str delims] the tokens of the successive
    [GetNext()] calls. *)
Variable HexStringToBytes : string -> bool * string.
Variable IsStringUTF8 : string -> bool.
Variable DetectEncoding : string -> option string.
Variable ConvertToUtf8AndNormalize : string -> string -> bool * string.
Variable ReadUnicodeCharacter : string -> nat -> bool * nat * Z.
Variable WriteUnicodeCharacter : Z -> string.
Variable StringTokenizer : string -> string -> list string.

(** third_party/cros_system_api/dbus/service_constants.h *)
Variable kOpenVPNClientCertIdProperty : string.
Variable kL2tpIpsecClientCertIdProperty : string.
Variable kEapCertIdProperty : string.
Variable kEapKeyIdProperty : string.

Definition EnsureCrosLoaded : bool := libcros_loaded.

Fixpoint ValidateUTF8_loop (fuel : nat) (str : string) (index : nat)
  (output : string) : string :=
  match fuel with
  | O => output
  | S fuel' =>
      if Nat.ltb index (String.length str) then
        let '(is_unicode_char, moved, code_point_out) :=
          ReadUnicodeCharacter str index in
        let output' :=
          if is_unicode_char && (32 <=? code_point_out)
          then output ++ WriteUnicodeCharacter code_point_out
          else output ++ WriteUnicodeCharacter 65533 in
        ValidateUTF8_loop fuel' str (S (index + moved)) output'
      else output
  end.

(** The index grows by at least one per round, so [size()] rounds are
    enough (see [ValidateUTF8_loop_fuel]). *)
Definition ValidateUTF8 (str : string) : string :=
  ValidateUTF8_loop (String.length str) str 0 "".

(** *** Network *)

(** network_library.h: [connected()] is [IsConnectedState(state_)]. *)
Definition connected (n : Network) : bool := IsConnectedState (state_ n).

Fixpoint first_address (ips : list IPConfig) : option string :=
  match ips with
  | [] => None
  | ipconfig :: rest =>
      if Nat.ltb 0 (String.length (ipconfig_address ipconfig))
      then Some (ipconfig_address ipconfig)
      else first_address rest
  end.

(** [Call_InitIPAddress] marks the entry into the function in the call log. *)
Definition Network_InitIPAddress : Method Network unit :=
  call Call_InitIPAddress ;;
  modify (set_ip_address_ "") ;;
  if negb EnsureCrosLoaded then ret tt
  else
    n <- get ;;
    if connected n && negb (device_path_ n =? "")%string then
      call (CrosListIPConfigs_call (device_path_ n)) ;;
      match CrosListIPConfigs (device_path_ n) with
      | Some ips =>
          match first_address ips with
          | Some a => modify (set_ip_address_ a)
          | None => ret tt
          end
      | None => ret tt
      end
    else ret tt.

Definition Network_SetState (new_state : ConnectionState)
  : Method Network unit :=
  n <- get ;;
  if ConnectionState_eqb new_state (state_ n) then ret tt
  else
    let old_state := state_ n in
    modify (set_state_ new_state) ;;
    (when (negb (IsConnectingState new_state))
     then modify (set_connection_started false)) ;;
    if ConnectionState_eqb new_state STATE_FAILURE then
      if negb (ConnectionState_eqb old_state STATE_UNKNOWN) &&
         negb (ConnectionState_eqb old_state STATE_IDLE)
      then
        modify (set_notify_failure_ true) ;;
        n1 <- get ;;
        when (ConnectionError_is_no_error (error_ n1))
        then modify (set_error_ ERROR_UNKNOWN)
      else ret tt
    else Network_InitIPAddress.

Definition Network_SetName (name : string) : Method Network unit :=
  let name_utf8 := ValidateUTF8 name in
  modify (set_name name_utf8).

Definition Network_EraseCredentials : Method Network unit := ret tt.

Definition Network_CalculateUniqueId : Method Network unit :=
  n <- get ;; modify (set_unique_id (name_ n)).

Definition Network_RequiresUserProfile (n : Network) : bool := false.

Definition Network_AttemptConnection (closure : Closure)
  : Method Network unit :=
  call (Closure_Run closure).

(** The property setters are used by the derived classes on their own
    fields: [base] selects the Network part of the object. *)
Section Properties.
Context {O : Type} (base : O -> Network).

Definition SetValueProperty (prop : string) (value : PropertyValue)
  : Method O unit :=
  if negb EnsureCrosLoaded then ret tt
  else
    o <- get ;;
    call (CrosSetNetworkServicePropertyGValue
            (service_path_ (base o)) prop value).

Definition ClearProperty (prop : string) : Method O unit :=
  if negb EnsureCrosLoaded then ret tt
  else
    o <- get ;;
    call (CrosClearNetworkServiceProperty (service_path_ (base o)) prop).

Definition SetStringProperty (prop str : string)
  (dest : option (StringField O)) : Method O unit :=
  match dest with
  | Some d => modify (fun o => store d (assign (load d o) str) o)
  | None => ret tt
  end ;;
  SetValueProperty prop (StringValue str).

Definition SetOrClearStringProperty (prop str : string)
  (dest : option (StringField O)) : Method O unit :=
  if (str =? "")%string then
    ClearProperty prop ;;
    match dest with
    | Some d => modify (fun o => store d (clear (load d o)) o)
    | None => ret tt
    end
  else SetStringProperty prop str dest.

End Properties.

(** *** VirtualNetwork *)

Definition on_vpn_base {A} (m : Method Network A) : Method VirtualNetwork A :=
  on_part vpn_base set_vpn_base m.

Definition VirtualNetwork_EraseCredentials : Method VirtualNetwork unit :=
  modify (fun v => set_ca_cert_nss_ (WipeString (ca_cert_nss_ v)) v) ;;
  modify (fun v => set_psk_passphrase_ (WipeString (psk_passphrase_ v)) v) ;;
  modify (fun v => set_client_cert_id_ (WipeString (client_cert_id_ v)) v) ;;
  modify (fun v =>
            set_vpn_user_passphrase_ (WipeString (vpn_user_passphrase_ v)) v).

Definition VirtualNetwork_CalculateUniqueId : Method VirtualNetwork unit :=
  v <- get ;;
  let provider_type := ProviderTypeToString (provider_type_ v) in
  on_vpn_base (modify (set_unique_id
                         (provider_type ++ "|" ++ server_hostname_ v))).

Definition VirtualNetwork_RequiresUserProfile (v : VirtualNetwork) : bool :=
  true.

Definition IsPSKPassphraseRequired (v : VirtualNetwork) : bool :=
  psk_passphrase_required_ v && empty (psk_passphrase_ v).

Definition IsUserPassphraseRequired (v : VirtualNetwork) : bool :=
  user_passphrase_required_ v && empty (vpn_user_passphrase_ v).

Definition VirtualNetwork_NeedMoreInfoToConnect (v : VirtualNetwork) : bool :=
  if (server_hostname_ v =? "")%string || (username_ v =? "")%string ||
     IsUserPassphraseRequired v
  then true
  else if negb (ConnectionError_is_no_error (error_ (vpn_base v))) then true
  else
    match provider_type_ v with
    | PROVIDER_TYPE_L2TP_IPSEC_PSK =>
        if IsPSKPassphraseRequired v then true else false
    | PROVIDER_TYPE_L2TP_IPSEC_USER_CERT =>
        if empty (client_cert_id_ v) then true else false
    | PROVIDER_TYPE_OPEN_VPN =>
        if empty (client_cert_id_ v) then true else true
    | PROVIDER_TYPE_MAX => false
    end.

Definition VirtualNetwork_MatchCertificatePattern (closure : Closure)
  : Method VirtualNetwork unit :=
  v <- get ;;
  let pattern := client_cert_pattern_ (vpn_base v) in
  if Empty pattern then call (Closure_Run closure)
  else
    match GetMatch pattern with
    | Some matching_cert =>
        let client_cert_id := GetPkcs11Id matching_cert in
        match provider_type_ v with
        | PROVIDER_TYPE_OPEN_VPN =>
            SetStringProperty vpn_base kOpenVPNClientCertIdProperty
              client_cert_id (Some client_cert_id_field)
        | _ =>
            SetStringProperty vpn_base kL2tpIpsecClientCertIdProperty
              client_cert_id (Some client_cert_id_field)
        end ;;
        call (Closure_Run closure)
    | None =>
        match enrollment_handler_ (vpn_base v) with
        | Some handler => call (Enroll handler (enrollment_uri_list pattern)
                                  closure)
        | None => call (Closure_Run closure)
        end
    end.

Definition VirtualNetwork_AttemptConnection (closure : Closure)
  : Method VirtualNetwork unit :=
  VirtualNetwork_MatchCertificatePattern closure.

(** *** WifiNetwork *)

Definition on_wifi_base {A} (m : Method Network A) : Method WifiNetwork A :=
  on_part wifi_base set_wifi_base m.

Definition WifiNetwork_CalculateUniqueId : Method WifiNetwork unit :=
  w <- get ;;
  let encryption :=
    match encryption_ w with
    | SECURITY_WPA | SECURITY_RSN => SECURITY_PSK
    | e => e
    end in
  let security := SecurityToString encryption in
  on_wifi_base (modify (set_unique_id (security ++ "|" ++ name_ (wifi_base w)))).

Definition WifiNetwork_SetSsid (ssid : string) : Method WifiNetwork bool :=
  let ssid_utf8 :=
    if negb (IsStringUTF8 ssid) then
      match DetectEncoding ssid with
      | Some encoding =>
          let '(ok, out) := ConvertToUtf8AndNormalize ssid encoding in
          if negb ok then "" else out
      | None => ""
      end
    else "" in
  (if (ssid_utf8 =? "")%string then on_wifi_base (Network_SetName ssid)
   else on_wifi_base (Network_SetName ssid_utf8)) ;;
  ret true.

Definition WifiNetwork_SetHexSsid (ssid_hex : string)
  : Method WifiNetwork bool :=
  let '(ok, ssid_raw) := HexStringToBytes ssid_hex in
  if negb ok then ret false
  else WifiNetwork_SetSsid ssid_raw.

Definition WifiNetwork_EraseCredentials : Method WifiNetwork unit :=
  modify (fun w => set_passphrase_ (WipeString (passphrase_ w)) w) ;;
  modify (fun w => set_user_passphrase_ (WipeString (user_passphrase_ w)) w) ;;
  modify (fun w => set_eap_client_cert_pkcs11_id_
                     (WipeString (eap_client_cert_pkcs11_id_ w)) w) ;;
  modify (fun w => set_eap_identity_ (WipeString (eap_identity_ w)) w) ;;
  modify (fun w => set_eap_anonymous_identity_
                     (WipeString (eap_anonymous_identity_ w)) w) ;;
  modify (fun w => set_eap_passphrase_ (WipeString (eap_passphrase_ w)) w).

Definition WifiNetwork_SetEAPClientCertPkcs11Id (pkcs11_id : string)
  : Method WifiNetwork unit :=
  SetOrClearStringProperty wifi_base kEapCertIdProperty pkcs11_id
    (Some eap_client_cert_pkcs11_id_field) ;;
  SetOrClearStringProperty wifi_base kEapKeyIdProperty pkcs11_id None.

Definition WifiNetwork_MatchCertificatePattern (closure : Closure)
  : Method WifiNetwork unit :=
  w <- get ;;
  let pattern := client_cert_pattern_ (wifi_base w) in
  if Empty pattern then call (Closure_Run closure)
  else
    match GetMatch pattern with
    | Some matching_cert =>
        WifiNetwork_SetEAPClientCertPkcs11Id (GetPkcs11Id matching_cert) ;;
        call (Closure_Run closure)
    | None =>
        match enrollment_handler_ (wifi_base w) with
        | Some handler => call (Enroll handler (enrollment_uri_list pattern)
                                  closure)
        | None => call (Closure_Run closure)
        end
    end.

Definition WifiNetwork_AttemptConnection (closure : Closure)
  : Method WifiNetwork unit :=
  WifiNetwork_MatchCertificatePattern closure.

(** *** NetworkIPConfig *)

Definition GetPrefixLength (c : NetworkIPConfig) : Z :=
  GetPrefixLength_loop (StringTokenizer (netmask c) ".") 0 0.

(** How often [InitIPAddress] is entered in a call log. *)
Definition ip_refreshes (l : list Call) : nat :=
  List.length
    (filter (fun e => match e with Call_InitIPAddress => true | _ => false end)
       l).



(** The states from which a failure is reported to the user. *)
Definition reporting_states : list ConnectionState :=
  [STATE_ASSOCIATION; STATE_CONFIGURATION; STATE_READY; STATE_PORTAL;
   STATE_ONLINE; STATE_CARRIER].


(** The shape shared by the two [MatchCertificatePattern] functions:
    [matched cert] is the outcome of the branch taken when [cert] matches. *)
Definition pattern_outcome {O : Type} (base : O -> Network)
  (closure : Closure) (o : O)
  (matched : X509Certificate -> unit * O * list Call)
  : unit * O * list Call :=
  let pattern := client_cert_pattern_ (base o) in
  if Empty pattern then (tt, o, [Closure_Run closure])
  else
    match GetMatch pattern with
    | Some cert => matched cert
    | None =>
        match enrollment_handler_ (base o) with
        | Some handler =>
            (tt, o, [Enroll handler (enrollment_uri_list pattern) closure])
        | None => (tt, o, [Closure_Run closure])
        end
    end.

(** Two Networks that differ at most in the fields [SetState] works on:
    [state_], [error_], [connection_started_], [notify_failure_] and
    [ip_address_]. *)
Definition same_configuration (a b : Network) : Prop :=
  connectable_ a = connectable_ b /\ is_active_ a = is_active_ b /\
  priority_ a = priority_ b /\ auto_connect_ a = auto_connect_ b /\
  save_credentials_ a = save_credentials_ b /\
  priority_order_ a = priority_order_ b /\ added_ a = added_ b /\
  profile_type_ a = profile_type_ b /\ service_path_ a = service_path_ b /\
  type_ a = type_ b /\ name_ a = name_ b /\ unique_id_ a = unique_id_ b /\
  device_path_ a = device_path_ b /\ profile_path_ a = profile_path_ b /\
  proxy_config_ a = proxy_config_ b /\
  client_cert_pattern_ a = client_cert_pattern_ b /\
  enrollment_handler_ a = enrollment_handler_ b.

(** *** Credentials of a VirtualNetwork *)

(** third_party/cros_system_api/dbus/service_constants.h *)
Variable kL2tpIpsecPskProperty : string.
Variable kL2tpIpsecUserProperty : string.
Variable kL2tpIpsecPasswordProperty : string.
Variable kL2tpIpsecGroupNameProperty : string.
Variable kOpenVPNUserProperty : string.
Variable kOpenVPNPasswordProperty : string.
Variable kOpenVPNOTPProperty : string.
Variable kPassphraseProperty : string.

Definition set_username_ (v : string) (n : VirtualNetwork) : VirtualNetwork :=
  let 'mk_VirtualNetwork b sh pt ca ps pr ci un up ur gn ct := n in
  mk_VirtualNetwork b sh pt ca ps pr ci v up ur gn ct.

Definition set_group_name_ (v : string) (n : VirtualNetwork)
  : VirtualNetwork :=
  let 'mk_VirtualNetwork b sh pt ca ps pr ci un up ur gn ct := n in
  mk_VirtualNetwork b sh pt ca ps pr ci un up ur v ct.

Definition psk_passphrase_field : StringField VirtualNetwork :=
  mk_StringField _ psk_passphrase_ set_psk_passphrase_.

Definition vpn_user_passphrase_field : StringField VirtualNetwork :=
  mk_StringField _ vpn_user_passphrase_ set_vpn_user_passphrase_.

(** [username_] and [group_name_] are kept by value: the field is read as a
    string of its own and the characters assigned are stored. *)
Definition username_field : StringField VirtualNetwork :=
  mk_StringField _ (fun v => fresh (username_ v))
    (fun s v => set_username_ (chars s) v).

Definition group_name_field : StringField VirtualNetwork :=
  mk_StringField _ (fun v => fresh (group_name_ v))
    (fun s v => set_group_name_ (chars s) v).

(** [remembered] is the VirtualNetwork the [Network*] argument points to. *)
Definition VirtualNetwork_CopyCredentialsFromRemembered
  (remembered_vpn : VirtualNetwork) : Method VirtualNetwork unit :=
  (v <- get ;;
   when (empty (ca_cert_nss_ v))
   then modify (fun v => set_ca_cert_nss_
                  (assign (ca_cert_nss_ v)
                     (chars (ca_cert_nss_ remembered_vpn))) v)) ;;
  (v <- get ;;
   when (empty (psk_passphrase_ v))
   then modify (fun v => set_psk_passphrase_
                  (assign (psk_passphrase_ v)
                     (chars (psk_passphrase_ remembered_vpn))) v)) ;;
  (v <- get ;;
   when (empty (client_cert_id_ v))
   then modify (fun v => set_client_cert_id_
                  (assign (client_cert_id_ v)
                     (chars (client_cert_id_ remembered_vpn))) v)) ;;
  (v <- get ;;
   when ((username_ v =? "")%string)
   then modify (set_username_ (username_ remembered_vpn))) ;;
  (v <- get ;;
   when (empty (vpn_user_passphrase_ v))
   then modify (fun v => set_vpn_user_passphrase_
                  (assign (vpn_user_passphrase_ v)
                     (chars (vpn_user_passphrase_ remembered_vpn))) v)).

Definition VirtualNetwork_SetL2TPIPsecPSKCredentials
  (psk_passphrase username user_passphrase group_name : string)
  : Method VirtualNetwork unit :=
  (when (negb (psk_passphrase =? "")%string)
   then SetStringProperty vpn_base kL2tpIpsecPskProperty psk_passphrase
          (Some psk_passphrase_field)) ;;
  SetStringProperty vpn_base kL2tpIpsecUserProperty username
    (Some username_field) ;;
  (when (negb (user_passphrase =? "")%string)
   then SetStringProperty vpn_base kL2tpIpsecPasswordProperty user_passphrase
          (Some vpn_user_passphrase_field)) ;;
  SetStringProperty vpn_base kL2tpIpsecGroupNameProperty group_name
    (Some group_name_field).

Definition VirtualNetwork_SetL2TPIPsecCertCredentials
  (client_cert_id username user_passphrase group_name : string)
  : Method VirtualNetwork unit :=
  SetStringProperty vpn_base kL2tpIpsecClientCertIdProperty client_cert_id
    (Some client_cert_id_field) ;;
  SetStringProperty vpn_base kL2tpIpsecUserProperty username
    (Some username_field) ;;
  (when (negb (user_passphrase =? "")%string)
   then SetStringProperty vpn_base kL2tpIpsecPasswordProperty user_passphrase
          (Some vpn_user_passphrase_field)) ;;
  SetStringProperty vpn_base kL2tpIpsecGroupNameProperty group_name
    (Some group_name_field).

Definition VirtualNetwork_SetOpenVPNCredentials
  (client_cert_id username user_passphrase otp : string)
  : Method VirtualNetwork unit :=
  SetStringProperty vpn_base kOpenVPNClientCertIdProperty client_cert_id
    (Some client_cert_id_field) ;;
  SetStringProperty vpn_base kOpenVPNUserProperty username
    (Some username_field) ;;
  (when (negb (user_passphrase =? "")%string)
   then SetStringProperty vpn_base kOpenVPNPasswordProperty user_passphrase
          (Some vpn_user_passphrase_field)) ;;
  SetStringProperty vpn_base kOpenVPNOTPProperty otp None.

(** *** Passphrase and encryption of a WifiNetwork *)

Definition WifiNetwork_GetPassphrase (w : WifiNetwork) : string :=
  if negb (empty (user_passphrase_ w)) then chars (user_passphrase_ w)
  else chars (passphrase_ w).

Definition WifiNetwork_SetPassphrase (passphrase : string)
  : Method WifiNetwork unit :=
  (if negb (passphrase =? "")%string then
     modify (fun w => set_user_passphrase_
                        (assign (user_passphrase_ w) passphrase) w) ;;
     modify (fun w => set_passphrase_ (assign (passphrase_ w) passphrase) w)
   else
     modify (fun w => set_user_passphrase_
                        (assign (user_passphrase_ w) (chars (passphrase_ w)))
                        w)) ;;
  SetOrClearStringProperty wifi_base kPassphraseProperty passphrase None.

Definition WifiNetwork_GetEncryptionString (w : WifiNetwork) : string :=
  match encryption_ w with
  | SECURITY_UNKNOWN => "Unknown"
  | SECURITY_NONE => ""
  | SECURITY_WEP => "WEP"
  | SECURITY_WPA => "WPA"
  | SECURITY_RSN => "RSN"
  | SECURITY_8021X =>
      let result := "8021X" in
      match eap_method_ w with
      | EAP_METHOD_PEAP => result ++ "+PEAP"
      | EAP_METHOD_TLS => result ++ "+TLS"
      | EAP_METHOD_TTLS => result ++ "+TTLS"
      | EAP_METHOD_LEAP => result ++ "+LEAP"
      | _ => result
      end
  | SECURITY_PSK => "PSK"
  end.

Definition WifiNetwork_IsPassphraseRequired (w : WifiNetwork) : bool :=
  match error_ (wifi_base w) with
  | ERROR_BAD_PASSPHRASE | ERROR_BAD_WEPKEY => true
  | _ =>
      match encryption_ w with
      | SECURITY_8021X => negb (connectable_ (wifi_base w))
      | _ => passphrase_required_ w
      end
  end.

Definition WifiNetwork_RequiresUserProfile (w : WifiNetwork) : bool :=
  match encryption_ w with
  | SECURITY_8021X =>
      match eap_method_ w with
      | EAP_METHOD_TLS =>
          if empty (eap_client_cert_pkcs11_id_ w) &&
             negb match eap_client_cert_type_ w with
                  | CLIENT_CERT_TYPE_PATTERN => true
                  | _ => false
                  end
          then false else true
      | _ => false
      end
  | _ => false
  end.

(** [if (mine.empty()) mine = theirs;] *)
Definition assign_if_empty (mine : std_string) (theirs : string)
  : std_string :=
  if empty mine then assign mine theirs else mine.

(** A string with each character below 0x20 replaced by [replacement]. *)
Fixpoint replace_controls (replacement : string) (s : string) : string :=
  match s with
  | EmptyString => ""
  | String c r =>
      (if 32 <=? Z.of_N (N_of_ascii c) then String c "" else replacement)
      ++ replace_controls replacement r
  end.

(** *** The unique identifier of a data plan *)

(** base/string_number_conversions.h, and the numbers of the plan types
    (libcros). *)
Variable Int64ToString : Z -> string.
Variable CellularDataPlanType_value : CellularDataPlanType -> Z.

Definition GetUniqueIdentifier (p : CellularDataPlan) : string :=
  (((((((plan_name p ++ "|") ++
        Int64ToString (CellularDataPlanType_value (plan_type p))) ++ "|") ++
      Int64ToString (plan_start_time p)) ++ "|") ++
    Int64ToString (plan_end_time p)) ++ "|") ++
  Int64ToString (plan_data_bytes p).

(** A string without the separator. *)
Fixpoint no_bar (s : string) : bool :=
  match s with
  | EmptyString => true
  | String c r => negb (Ascii.eqb c "|"%char) && no_bar r
  end.

(** *** CellularNetwork *)

(** libcros: whether the modem accepted the activation request; and
    network_library.h: [needs_new_plan()]. *)
Variable CrosActivateCellularModem : string -> bool.
Variable needs_new_plan : CellularNetwork -> bool.

Definition CellularNetwork_StartActivation (c : CellularNetwork)
  : bool * CellularNetwork * list CellularCall :=
  if negb EnsureCrosLoaded then (false, c, [])
  else
    let path := service_path_ (cellular_base c) in
    if negb (CrosActivateCellularModem path) then
      (false, c, [CrosActivateCellularModem_call path])
    else
      (true, set_activation_state_ ACTIVATION_STATE_ACTIVATING c,
       [CrosActivateCellularModem_call path]).

Definition CellularNetwork_NeedsActivation (c : CellularNetwork) : bool :=
  (match activation_state_ c with
   | ACTIVATION_STATE_ACTIVATED | ACTIVATION_STATE_UNKNOWN => false
   | _ => true
   end) || needs_new_plan c.

(** * Properties *)

(** Drop what the goal does not mention (section variables above all), so
    that automation cannot pick it up. *)
Ltac forget_unused := repeat match goal with x : _ |- _ => clear x end.


Lemma ConnectionState_eqb_spec a b :
  reflect (a = b) (ConnectionState_eqb a b).
Proof. destruct a, b; constructor; congruence. Qed.

Lemma ConnectionState_eqb_refl a : ConnectionState_eqb a a = true.
Proof. now destruct a. Qed.

Lemma ConnectionError_is_no_error_spec e :
  reflect (e = ERROR_NO_ERROR) (ConnectionError_is_no_error e).
Proof. destruct e; constructor; congruence. Qed.

(** ** The connection state machine *)

(** What [SetState] does when the state really changes to Failure. *)
Lemma SetState_failure_unfold n :
  state_ n <> STATE_FAILURE ->
  Network_SetState STATE_FAILURE n =
  let n1 := set_state_ STATE_FAILURE n in
  let n2 := if negb (IsConnectingState STATE_FAILURE)
            then set_connection_started false n1 else n1 in
  if negb (ConnectionState_eqb (state_ n) STATE_UNKNOWN) &&
     negb (ConnectionState_eqb (state_ n) STATE_IDLE)
  then
    let n3 := set_notify_failure_ true n2 in
    (tt, if ConnectionError_is_no_error (error_ n3)
         then set_error_ ERROR_UNKNOWN n3 else n3, [])
  else (tt, n2, []).
Proof.
  intros Hne.
  destruct n as [st er cn cs ia pr ac sc po ad nf pt sp ty nm ui ip dp pp pc
                   cp eh]; cbn in Hne.
  unfold Network_SetState, bind, get, modify, ret. cbn.
  destruct st; try (exfalso; apply Hne; reflexivity);
    destruct (IsConnectingState STATE_FAILURE); cbn; try reflexivity;
    destruct er; reflexivity.
Qed.

(** C1: entering Failure from Association, Configuration, Ready, Portal,
    Online or Carrier sets [notify_failure_] and replaces a missing error by
    ERROR_UNKNOWN (an error that is set is kept); entering Failure from Idle or
    Unknown leaves [notify_failure_] and [error_] as they were. *)
Theorem SetState_failure_notification (n : Network) :
  let n' := object (Network_SetState STATE_FAILURE n) in
  (In (state_ n) reporting_states ->
     state_ n' = STATE_FAILURE /\
     notify_failure_ n' = true /\
     (error_ n = ERROR_NO_ERROR -> error_ n' = ERROR_UNKNOWN) /\
     (error_ n <> ERROR_NO_ERROR -> error_ n' = error_ n)) /\
  (state_ n = STATE_IDLE \/ state_ n = STATE_UNKNOWN ->
     state_ n' = STATE_FAILURE /\
     notify_failure_ n' = notify_failure_ n /\
     error_ n' = error_ n).
Proof.
  forget_unused.
  cbv zeta. split.
  - intros Hin.
    assert (Hne : state_ n <> STATE_FAILURE).
    { intros E. rewrite E in Hin. cbn in Hin. intuition discriminate. }
    rewrite (SetState_failure_unfold n Hne).
    assert (Hguard : negb (ConnectionState_eqb (state_ n) STATE_UNKNOWN) &&
                     negb (ConnectionState_eqb (state_ n) STATE_IDLE) = true).
    { cbn in Hin.
      destruct Hin as [E|[E|[E|[E|[E|[E|[]]]]]]]; rewrite <- E; reflexivity. }
    cbv zeta. rewrite Hguard. clear Hin Hne Hguard.
    destruct n as [st er cn cs ia pr ac sc po ad nf pt sp ty nm ui ip dp pp pc
                     cp eh]; cbn.
    destruct (IsConnectingState STATE_FAILURE); cbn;
      (destruct er; cbn; repeat split; congruence).
  - intros Hold.
    assert (Hne : state_ n <> STATE_FAILURE) by (destruct Hold; congruence).
    rewrite (SetState_failure_unfold n Hne).
    assert (Hguard : negb (ConnectionState_eqb (state_ n) STATE_UNKNOWN) &&
                     negb (ConnectionState_eqb (state_ n) STATE_IDLE) = false).
    { destruct Hold as [E|E]; rewrite E; reflexivity. }
    cbv zeta. rewrite Hguard. clear Hold Hne Hguard.
    destruct n as [st er cn cs ia pr ac sc po ad nf pt sp ty nm ui ip dp pp pc
                     cp eh]; cbn.
    destruct (IsConnectingState STATE_FAILURE); cbn; repeat split.
Qed.

(** C8: [SetState] with the current state returns at once: the Network is
    the same object, field for field, and the call log is empty, so
    [InitIPAddress] is not entered and libcros is not called. *)
Theorem SetState_same_state_noop (n : Network) :
  Network_SetState (state_ n) n = (tt, n, []) /\
  ip_refreshes (calls (Network_SetState (state_ n) n)) = 0%nat.
Proof.
  assert (E : Network_SetState (state_ n) n = (tt, n, [])).
  { unfold Network_SetState, bind, get, ret. cbn.
    now rewrite ConnectionState_eqb_refl. }
  split; [exact E|]. now rewrite E.
Qed.

(** By contrast, a change to a state other than Failure enters
    [InitIPAddress] exactly once. *)
Lemma SetState_other_state_refreshes (new_state : ConnectionState) n :
  new_state <> state_ n -> new_state <> STATE_FAILURE ->
  ip_refreshes (calls (Network_SetState new_state n)) = 1%nat.
Proof.
  intros Hs Hf.
  unfold Network_SetState, bind, get, modify, ret, calls.
  destruct (ConnectionState_eqb_spec new_state (state_ n)); [congruence|].
  destruct (ConnectionState_eqb_spec new_state STATE_FAILURE); [congruence|].
  destruct (negb (IsConnectingState new_state)); cbn;
    unfold Network_InitIPAddress, bind, get, modify, ret, call; cbn;
    (destruct (negb EnsureCrosLoaded); cbn; [reflexivity|]);
    match goal with
    | |- context [if ?c then _ else _] => destruct c
    end; cbn; try reflexivity;
    destruct (CrosListIPConfigs _) as [ips|]; cbn; try reflexivity;
    destruct (first_address ips); reflexivity.
Qed.


(** ** VPN connection information *)

(** C9: an OpenVPN network always needs more information to connect, also
    with host name, user name, passphrase and client certificate in place and
    no error. *)
Theorem OpenVPN_always_needs_more_info (v : VirtualNetwork) :
  provider_type_ v = PROVIDER_TYPE_OPEN_VPN ->
  VirtualNetwork_NeedMoreInfoToConnect v = true.
Proof.
  intros Hp. unfold VirtualNetwork_NeedMoreInfoToConnect. rewrite Hp.
  destruct ((server_hostname_ v =? "")%string || (username_ v =? "")%string
            || IsUserPassphraseRequired v); [reflexivity|].
  destruct (negb (ConnectionError_is_no_error (error_ (vpn_base v))));
    [reflexivity|].
  now destruct (empty (client_cert_id_ v)).
Qed.

(** For the other provider types the answer does depend on the
    credentials: a complete L2TP/IPsec certificate setup needs nothing. *)
Lemma L2TP_cert_complete_needs_nothing (v : VirtualNetwork) :
  provider_type_ v = PROVIDER_TYPE_L2TP_IPSEC_USER_CERT ->
  server_hostname_ v <> "" -> username_ v <> "" ->
  IsUserPassphraseRequired v = false ->
  error_ (vpn_base v) = ERROR_NO_ERROR ->
  empty (client_cert_id_ v) = false ->
  VirtualNetwork_NeedMoreInfoToConnect v = false.
Proof.
  intros Hp Hh Hu Hr He Hc. unfold VirtualNetwork_NeedMoreInfoToConnect.
  rewrite Hp, Hr, He, Hc.
  destruct (String.eqb_spec (server_hostname_ v) ""); [congruence|].
  destruct (String.eqb_spec (username_ v) ""); [congruence|].
  reflexivity.
Qed.

(** ** Wiping credentials *)

Lemma length_fill n c : String.length (fill n c) = n.
Proof. induction n; cbn; congruence. Qed.

Lemma drop_app (a b : string) : drop (String.length a) (a ++ b) = b.
Proof. induction a; cbn; auto. Qed.

Lemma string_length_app (a b : string) :
  String.length (a ++ b) = (String.length a + String.length b)%nat.
Proof. induction a; cbn; auto. Qed.

Lemma chars_assign (s : std_string) (v : string) : chars (assign s v) = v.
Proof. reflexivity. Qed.

(** After [EraseCredentials] every secret of a WifiNetwork and of a
    VirtualNetwork is the empty string. *)
Lemma EraseCredentials_leaves_empty_strings :
  (forall w : WifiNetwork,
     let w' := object (WifiNetwork_EraseCredentials w) in
     chars (passphrase_ w') = "" /\
     chars (user_passphrase_ w') = "" /\
     chars (eap_client_cert_pkcs11_id_ w') = "" /\
     chars (eap_identity_ w') = "" /\
     chars (eap_anonymous_identity_ w') = "" /\
     chars (eap_passphrase_ w') = "") /\
  (forall v : VirtualNetwork,
     let v' := object (VirtualNetwork_EraseCredentials v) in
     chars (ca_cert_nss_ v') = "" /\
     chars (psk_passphrase_ v') = "" /\
     chars (client_cert_id_ v') = "" /\
     chars (vpn_user_passphrase_ v') = "").
Proof.
  split.
  - intros [b en pa up pr id em e2 nn ci us ei ea ep ct]; cbn.
    repeat split.
  - intros [b sh pt ca ps pr ci un up ur gn ct]; cbn.
    repeat split.
Qed.

(** ** Unique ids *)

(** C5: the unique id is computed from the name (Network), the security and
    the name (WifiNetwork), the provider type and the server host name
    (VirtualNetwork) and from nothing else, the service path in particular;
    computing it again gives the same object. *)
Theorem CalculateUniqueId_depends_on_identity_only :
  (forall a b : Network,
     name_ a = name_ b ->
     unique_id_ (object (Network_CalculateUniqueId a)) =
     unique_id_ (object (Network_CalculateUniqueId b))) /\
  (forall a b : WifiNetwork,
     encryption_ a = encryption_ b ->
     name_ (wifi_base a) = name_ (wifi_base b) ->
     unique_id_ (wifi_base (object (WifiNetwork_CalculateUniqueId a))) =
     unique_id_ (wifi_base (object (WifiNetwork_CalculateUniqueId b)))) /\
  (forall a b : VirtualNetwork,
     provider_type_ a = provider_type_ b ->
     server_hostname_ a = server_hostname_ b ->
     unique_id_ (vpn_base (object (VirtualNetwork_CalculateUniqueId a))) =
     unique_id_ (vpn_base (object (VirtualNetwork_CalculateUniqueId b)))) /\
  (forall (n : Network) (path : string),
     unique_id_ (object (Network_CalculateUniqueId (set_service_path_ path n)))
     = unique_id_ (object (Network_CalculateUniqueId n))) /\
  (forall n : Network,
     object (Network_CalculateUniqueId (object (Network_CalculateUniqueId n)))
     = object (Network_CalculateUniqueId n)) /\
  (forall w : WifiNetwork,
     object (WifiNetwork_CalculateUniqueId
               (object (WifiNetwork_CalculateUniqueId w)))
     = object (WifiNetwork_CalculateUniqueId w)) /\
  (forall v : VirtualNetwork,
     object (VirtualNetwork_CalculateUniqueId
               (object (VirtualNetwork_CalculateUniqueId v)))
     = object (VirtualNetwork_CalculateUniqueId v)).
Proof.
  repeat split.
  - intros [] []; cbn; congruence.
  - intros a b He Hn. destruct a as [[] ?], b as [[] ?]; cbn in *.
    now subst.
  - intros a b Hp Hh. destruct a as [[] ?], b as [[] ?]; cbn in *.
    now subst.
  - intros [] path; reflexivity.
  - intros []; reflexivity.
  - intros w. destruct w as [[] ?]; reflexivity.
  - intros v. destruct v as [[] ?]; reflexivity.
Qed.

(** ** Certificate patterns and the connection closure *)








Lemma VirtualNetwork_MatchCertificatePattern_outcome closure v :
  VirtualNetwork_MatchCertificatePattern closure v =
  pattern_outcome vpn_base closure v
    (fun cert =>
       (match provider_type_ v with
        | PROVIDER_TYPE_OPEN_VPN =>
            SetStringProperty vpn_base kOpenVPNClientCertIdProperty
              (GetPkcs11Id cert) (Some client_cert_id_field)
        | _ =>
            SetStringProperty vpn_base kL2tpIpsecClientCertIdProperty
              (GetPkcs11Id cert) (Some client_cert_id_field)
        end ;;
        call (Closure_Run closure)) v).
Proof.
  unfold VirtualNetwork_MatchCertificatePattern, pattern_outcome.
  unfold bind at 1. unfold get at 1. cbv zeta.
  destruct (Empty _); [reflexivity|].
  destruct (GetMatch _); [|destruct (enrollment_handler_ _); reflexivity].
  destruct (bind _ _ v) as [[[] v1] l1]. reflexivity.
Qed.



(** ** Cellular data plans *)

Lemma wrap64_in_range (z : Z) : is_int64 z -> wrap64 z = z.
Proof.
  unfold is_int64, INT64_MIN, INT64_MAX, wrap64. intros H.
  rewrite Z.mod_small; lia.
Qed.

Lemma wrap64_is_int64 (z : Z) : is_int64 (wrap64 z).
Proof.
  unfold is_int64, INT64_MIN, INT64_MAX, wrap64.
  pose proof (Z.mod_pos_bound (z + 2 ^ 63) (2 ^ 64) ltac:(lia)). lia.
Qed.

(** C7, as the code has it: the remaining data and the remaining time are
    never negative, whatever the 64-bit values; they are
    max(0, plan_data_bytes - data_bytes_used) and max(0, plan_end_time - now)
    whenever that difference is a 64-bit value, which it is for amounts and
    times that are not negative. *)
Theorem remaining_is_clamped_difference (p : CellularDataPlan) (now : Z) :
  (0 <= remaining_data p /\ 0 <= remaining_time now p) /\
  (is_int64 (plan_data_bytes p - data_bytes_used p) ->
   remaining_data p = Z.max 0 (plan_data_bytes p - data_bytes_used p)) /\
  (is_int64 (plan_end_time p - now) ->
   remaining_time now p = Z.max 0 (plan_end_time p - now)) /\
  (0 <= plan_data_bytes p <= INT64_MAX ->
   0 <= data_bytes_used p <= INT64_MAX ->
   remaining_data p = Z.max 0 (plan_data_bytes p - data_bytes_used p)) /\
  (0 <= plan_end_time p <= INT64_MAX -> 0 <= now <= INT64_MAX ->
   remaining_time now p = Z.max 0 (plan_end_time p - now)).
Proof.
  assert (Hclamp : forall a b,
             is_int64 (a - b) ->
             (if int64_sub a b <? 0 then 0 else int64_sub a b)
             = Z.max 0 (a - b)).
  { intros a b H. unfold int64_sub. rewrite (wrap64_in_range _ H).
    destruct (Z.ltb_spec (a - b) 0); lia. }
  assert (Hpos : forall a b,
             0 <= (if int64_sub a b <? 0 then 0 else int64_sub a b)).
  { intros a b. destruct (Z.ltb_spec (int64_sub a b) 0); lia. }
  unfold remaining_data, remaining_time. cbv zeta.
  repeat split; try apply Hpos; intros; apply Hclamp;
    unfold is_int64, INT64_MIN, INT64_MAX in *; lia.
Qed.

(** ** Netmask prefix length *)

Lemma mask_byte_bits_range token bits :
  mask_byte_bits token = Some bits -> 0 <= bits <= 8.
Proof.
  unfold mask_byte_bits.
  repeat (destruct (_ =? _)%string; [intros [= <-]; lia|]). discriminate.
Qed.

Lemma mask_byte_bits_zero token :
  (token =? "0")%string = true -> mask_byte_bits token = Some 0.
Proof. intros H. apply String.eqb_eq in H. now subst. Qed.

Lemma quot8 (count bits : Z) :
  0 <= count -> 0 <= bits < 8 -> Z.quot (8 * count + bits) 8 = count.
Proof.
  intros Hc Hb. rewrite Z.quot_div_nonneg by lia.
  symmetry. apply (Z.div_unique _ 8 count bits); lia.
Qed.

(** One round of the loop while no byte below 255 has been seen. *)
Lemma GetPrefixLength_loop_open_step token rest count prefixlen :
  count <> 4 -> Z.quot prefixlen 8 = count ->
  GetPrefixLength_loop (token :: rest) count prefixlen =
  match mask_byte_bits token with
  | Some bits => GetPrefixLength_loop rest (count + 1) (prefixlen + bits)
  | None => -1
  end.
Proof.
  intros H4 Hq. cbn [GetPrefixLength_loop].
  rewrite (proj2 (Z.eqb_neq _ _) H4), (proj2 (Z.eqb_eq _ _) Hq). cbn [negb].
  unfold mask_byte_bits.
  repeat (destruct (_ =? _)%string; [reflexivity|]). reflexivity.
Qed.

(** Once the last mask byte has been seen, only "0" may follow. *)
Lemma GetPrefixLength_loop_closed tokens : forall count prefixlen,
  0 <= count <= 4 -> Z.quot prefixlen 8 < count ->
  GetPrefixLength_loop tokens count prefixlen =
  if all_zero_bytes tokens && (count + Z.of_nat (List.length tokens) =? 4)
  then prefixlen else -1.
Proof.
  induction tokens as [|token rest IH]; intros count prefixlen Hc Hq.
  - cbn. rewrite Z.add_0_r.
    destruct (Z.ltb_spec count 4), (Z.eqb_spec count 4); lia.
  - cbn [GetPrefixLength_loop all_zero_bytes forallb List.length].
    destruct (Z.eqb_spec count 4) as [E|E].
    + destruct (Z.eqb_spec (count + Z.of_nat (S (List.length rest))) 4);
        [lia|]. now rewrite andb_false_r.
    + destruct (Z.eqb_spec (Z.quot prefixlen 8) count); [lia|]. cbn [negb].
      destruct (token =? "0")%string; cbn [negb andb]; [|reflexivity].
      rewrite IH by lia. unfold all_zero_bytes.
      now replace (count + 1 + Z.of_nat (List.length rest))
        with (count + Z.of_nat (S (List.length rest))) by lia.
Qed.

Lemma GetPrefixLength_loop_open tokens : forall count prefixlen,
  0 <= count <= 4 -> prefixlen = 8 * count ->
  GetPrefixLength_loop tokens count prefixlen =
  match contiguous_mask_bits tokens with
  | Some bits =>
      if count + Z.of_nat (List.length tokens) =? 4
      then prefixlen + bits else -1
  | None => -1
  end.
Proof.
  induction tokens as [|token rest IH]; intros count prefixlen Hc Hp.
  - cbn. rewrite !Z.add_0_r.
    destruct (Z.ltb_spec count 4), (Z.eqb_spec count 4); lia.
  - destruct (Z.eq_dec count 4) as [E|E].
    + cbn [GetPrefixLength_loop]. rewrite (proj2 (Z.eqb_eq _ _) E).
      destruct (contiguous_mask_bits (token :: rest)); [|reflexivity].
      cbn [List.length].
      destruct (Z.eqb_spec (count + Z.of_nat (S (List.length rest))) 4);
        [lia|reflexivity].
    + rewrite GetPrefixLength_loop_open_step; [|exact E|].
      2:{ subst prefixlen. rewrite <- (Z.add_0_r (8 * count)).
          apply quot8; lia. }
      cbn [contiguous_mask_bits List.length].
      destruct (mask_byte_bits token) as [bits|] eqn:Hb; [|reflexivity].
      pose proof (mask_byte_bits_range _ _ Hb) as Hr.
      replace (count + Z.of_nat (S (List.length rest)))
        with (count + 1 + Z.of_nat (List.length rest)) by lia.
      destruct (Z.eqb_spec bits 8) as [E8|E8].
      * rewrite IH by lia. subst bits.
        destruct (contiguous_mask_bits rest); [|reflexivity].
        destruct (_ =? 4); [lia|reflexivity].
      * rewrite GetPrefixLength_loop_closed; [|lia|].
        2:{ subst prefixlen. rewrite quot8; lia. }
        destruct (all_zero_bytes rest); reflexivity.
Qed.

Lemma contiguous_mask_bits_range tokens bits :
  contiguous_mask_bits tokens = Some bits ->
  0 <= bits <= 8 * Z.of_nat (List.length tokens).
Proof.
  revert bits. induction tokens as [|token rest IH]; intros bits.
  - cbn. intros [= <-]. lia.
  - cbn [contiguous_mask_bits List.length].
    destruct (mask_byte_bits token) as [b|] eqn:Hb; [|discriminate].
    pose proof (mask_byte_bits_range _ _ Hb).
    destruct (Z.eqb_spec b 8).
    + destruct (contiguous_mask_bits rest) as [more|]; [|discriminate].
      intros H'. assert (bits = 8 + more) by congruence.
      specialize (IH _ eq_refl). lia.
    + destruct (all_zero_bytes rest); [|discriminate].
      intros [= <-]. lia.
Qed.

Lemma contiguous_mask_bits_bytes tokens bits :
  contiguous_mask_bits tokens = Some bits ->
  forall token, In token tokens -> mask_byte_bits token <> None.
Proof.
  revert bits. induction tokens as [|token rest IH]; intros bits H t Hin.
  - destruct Hin.
  - cbn [contiguous_mask_bits] in H.
    destruct (mask_byte_bits token) as [b|] eqn:Hb; [|discriminate].
    destruct Hin as [<-|Hin]; [congruence|].
    destruct (b =? 8).
    + destruct (contiguous_mask_bits rest) as [more|] eqn:Hr; [|discriminate].
      now apply (IH more).
    + destruct (all_zero_bytes rest) eqn:Hz; [|discriminate].
      unfold all_zero_bytes in Hz. rewrite forallb_forall in Hz.
      now rewrite (mask_byte_bits_zero _ (Hz _ Hin)).
Qed.

Lemma GetPrefixLength_canonical_prefix (c : NetworkIPConfig) :
  GetPrefixLength c =
  match canonical_prefix_length (StringTokenizer (netmask c) ".") with
  | Some prefix => prefix
  | None => -1
  end.
Proof.
  unfold GetPrefixLength, canonical_prefix_length.
  rewrite (GetPrefixLength_loop_open _ 0 0) by lia.
  set (tokens := StringTokenizer (netmask c) ".").
  destruct (Nat.eqb_spec (List.length tokens) 4) as [E|E].
  - rewrite E. now destruct (contiguous_mask_bits tokens).
  - destruct (contiguous_mask_bits tokens); [|reflexivity].
    destruct (Z.eqb_spec (0 + Z.of_nat (List.length tokens)) 4);
      [lia|reflexivity].
Qed.

(** C2: [GetPrefixLength] returns the prefix length when the tokens of the
    netmask are four mask bytes in contiguous high-to-low order, and -1
    otherwise: in particular for fewer or more than four tokens, for a token
    that is no mask byte, and for 255.224.255.0; it returns 24 for
    255.255.255.0 and 17 for 255.255.128.0.  It is a total function: there is
    no input on which it fails. *)
Theorem GetPrefixLength_canonical (c : NetworkIPConfig) :
  let tokens := StringTokenizer (netmask c) "." in
  (canonical_prefix_length tokens = None -> GetPrefixLength c = -1) /\
  (forall prefix,
     canonical_prefix_length tokens = Some prefix ->
     GetPrefixLength c = prefix /\ 0 <= prefix <= 32) /\
  (List.length tokens <> 4%nat -> GetPrefixLength c = -1) /\
  (forall token,
     In token tokens -> mask_byte_bits token = None ->
     GetPrefixLength c = -1) /\
  (tokens = ["255"; "224"; "255"; "0"] -> GetPrefixLength c = -1) /\
  (tokens = ["255"; "255"; "255"; "0"] -> GetPrefixLength c = 24) /\
  (tokens = ["255"; "255"; "128"; "0"] -> GetPrefixLength c = 17).
Proof.
  cbv zeta. rewrite GetPrefixLength_canonical_prefix.
  set (tokens := StringTokenizer (netmask c) ".").
  split; [now intros ->|].
  split.
  { intros prefix H. rewrite H. split; [reflexivity|].
    unfold canonical_prefix_length in H.
    destruct (Nat.eqb_spec (List.length tokens) 4) as [E|]; [|discriminate].
    pose proof (contiguous_mask_bits_range _ _ H). lia. }
  split.
  { intros H. unfold canonical_prefix_length.
    now destruct (Nat.eqb_spec (List.length tokens) 4). }
  split.
  { intros token Hin Hnone. unfold canonical_prefix_length.
    destruct (Nat.eqb (List.length tokens) 4); [|reflexivity].
    destruct (contiguous_mask_bits tokens) as [bits|] eqn:Hb; [|reflexivity].
    now destruct (contiguous_mask_bits_bytes _ _ Hb token Hin). }
  repeat split; intros ->; reflexivity.
Qed.

(** ** SSIDs *)

(** [size()] rounds are enough for [ValidateUTF8]: more fuel changes
    nothing. *)
Lemma ValidateUTF8_loop_fuel str : forall fuel1 fuel2 index output,
  (String.length str - index <= fuel1)%nat ->
  (String.length str - index <= fuel2)%nat ->
  ValidateUTF8_loop fuel1 str index output =
  ValidateUTF8_loop fuel2 str index output.
Proof.
  induction fuel1 as [|fuel1 IH]; intros fuel2 index output H1 H2.
  - destruct fuel2 as [|fuel2]; [reflexivity|]. cbn [ValidateUTF8_loop].
    destruct (Nat.ltb_spec index (String.length str)); [lia|reflexivity].
  - cbn [ValidateUTF8_loop].
    destruct (Nat.ltb_spec index (String.length str)) as [Hlt|Hge].
    + destruct fuel2 as [|fuel2]; [lia|]. cbn [ValidateUTF8_loop].
      rewrite (proj2 (Nat.ltb_lt _ _) Hlt).
      destruct (ReadUnicodeCharacter str index) as [[ok moved] cp].
      apply IH; lia.
    + destruct fuel2 as [|fuel2]; [reflexivity|]. cbn [ValidateUTF8_loop].
      now rewrite (proj2 (Nat.ltb_ge _ _) Hge).
Qed.

(** A round of [ValidateUTF8] on a readable character of one byte. *)
Lemma ValidateUTF8_loop_readable fuel str index output code_point :
  (index < String.length str)%nat ->
  ReadUnicodeCharacter str index = (true, 0%nat, code_point) ->
  32 <= code_point ->
  ValidateUTF8_loop (S fuel) str index output =
  ValidateUTF8_loop fuel str (S index)
    (output ++ WriteUnicodeCharacter code_point).
Proof.
  intros Hlt Hread Hcp. cbn [ValidateUTF8_loop].
  rewrite (proj2 (Nat.ltb_lt _ _) Hlt), Hread, Nat.add_0_r.
  now rewrite (proj2 (Z.leb_le _ _) Hcp).
Qed.

Ltac validate_round Hread Hwrite i c :=
  rewrite (ValidateUTF8_loop_readable _ "Hello" i _ (Z.of_N (N_of_ascii c)));
  [ rewrite (Hwrite i c eq_refl)
  | cbn; lia
  | exact (Hread i c eq_refl)
  | cbn; lia ].

(** C10: when the hex decoding fails, [SetHexSsid] returns false and the
    network is the object it was: its name, like every other field, keeps
    its value, and nothing is sent to the service. *)
Theorem SetHexSsid_decode_failure (ssid_hex : string) (w : WifiNetwork) :
  fst (HexStringToBytes ssid_hex) = false ->
  let r := WifiNetwork_SetHexSsid ssid_hex w in
  result r = false /\ object r = w /\ calls r = [] /\
  name_ (wifi_base (object r)) = name_ (wifi_base w).
Proof.
  intros H. unfold WifiNetwork_SetHexSsid.
  destruct (HexStringToBytes ssid_hex) as [ok ssid_raw]. cbn in H. subst ok.
  cbn. repeat split.
Qed.

(** C6: for a WEP network, [SetHexSsid] of the hex dump of "Hello" succeeds
    and names the network "Hello"; its unique id is then "WEP|Hello".  The
    helpers are those of base/ and native_network_constants.h: the hex
    decoder yields "Hello", "Hello" is UTF-8, its characters are read and
    written as themselves, and WEP is spelled "WEP". *)
Theorem SetHexSsid_Hello_unique_id (w : WifiNetwork) :
  HexStringToBytes "48656c6c6f" = (true, "Hello") ->
  IsStringUTF8 "Hello" = true ->
  (forall i c,
     String.get i "Hello" = Some c ->
     ReadUnicodeCharacter "Hello" i = (true, 0%nat, Z.of_N (N_of_ascii c))) ->
  (forall i c,
     String.get i "Hello" = Some c ->
     WriteUnicodeCharacter (Z.of_N (N_of_ascii c)) = String c "") ->
  SecurityToString SECURITY_WEP = "WEP" ->
  encryption_ w = SECURITY_WEP ->
  let r := WifiNetwork_SetHexSsid "48656c6c6f" w in
  result r = true /\
  name_ (wifi_base (object r)) = "Hello" /\
  unique_id_ (wifi_base (object (WifiNetwork_CalculateUniqueId (object r))))
  = "WEP|Hello".
Proof.
  intros Hhex Hutf8 Hread Hwrite Hwep Henc.
  assert (Hname : ValidateUTF8 "Hello" = "Hello").
  { unfold ValidateUTF8. cbn [String.length].
    validate_round Hread Hwrite 0%nat "H"%char.
    validate_round Hread Hwrite 1%nat "e"%char.
    validate_round Hread Hwrite 2%nat "l"%char.
    validate_round Hread Hwrite 3%nat "l"%char.
    validate_round Hread Hwrite 4%nat "o"%char.
    reflexivity. }
  unfold WifiNetwork_SetHexSsid. rewrite Hhex. cbn [negb].
  unfold WifiNetwork_SetSsid. rewrite Hutf8. cbn [negb String.eqb].
  unfold Network_SetName. rewrite Hname.
  destruct w as [[] en pa up pr id em e2 nn ci us ei ea ep ct].
  cbn in Henc. subst en. cbn. rewrite Hwep. repeat split.
Qed.

(** * Further properties of the state machine *)

Lemma string_length_zero (s : string) :
  Nat.ltb 0 (String.length s) = false <-> s = "".
Proof.
  destruct s; cbn; split; intros H; try reflexivity; discriminate.
Qed.

(** [first_address] is the first address of the list that is not empty. *)
Lemma first_address_spec (ips : list IPConfig) :
  match first_address ips with
  | Some a =>
      a <> "" /\
      exists pre c post,
        ips = (pre ++ c :: post)%list /\ ipconfig_address c = a /\
        Forall (fun x => ipconfig_address x = "") pre
  | None => Forall (fun x => ipconfig_address x = "") ips
  end.
Proof.
  induction ips as [|c rest IH]; cbn [first_address]; [constructor|].
  destruct (Nat.ltb 0 (String.length (ipconfig_address c))) eqn:E.
  - split.
    + intros Hc. apply string_length_zero in Hc. rewrite Hc in E.
      discriminate.
    + exists [], c, rest. repeat split. constructor.
  - apply string_length_zero in E.
    destruct (first_address rest) as [a|].
    + destruct IH as (Ha & pre & c' & post & -> & Hc & Hpre).
      split; [exact Ha|].
      exists (c :: pre), c', post. repeat split; [exact Hc|].
      constructor; assumption.
    + constructor; assumption.
Qed.

Lemma first_address_skips pre c post :
  Forall (fun x => ipconfig_address x = "") pre ->
  ipconfig_address c <> "" ->
  first_address (pre ++ c :: post) = Some (ipconfig_address c).
Proof.
  intros Hpre Hc.
  induction Hpre as [|x pre Hx Hpre IH]; cbn [app first_address].
  - destruct (Nat.ltb 0 (String.length (ipconfig_address c))) eqn:E;
      [reflexivity|].
    apply string_length_zero in E. contradiction.
  - rewrite Hx. cbn [String.length Nat.ltb Nat.leb]. exact IH.
Qed.

Lemma set_ip_address_twice a b n :
  set_ip_address_ a (set_ip_address_ b n) = set_ip_address_ a n.
Proof. destruct n; reflexivity. Qed.

(** [InitIPAddress] as one assignment to [ip_address_] and its call log. *)
Lemma Network_InitIPAddress_outcome (n : Network) :
  Network_InitIPAddress n =
  (tt,
   set_ip_address_
     (if EnsureCrosLoaded && connected n
         && negb (device_path_ n =? "")%string
      then match CrosListIPConfigs (device_path_ n) with
           | Some ips => match first_address ips with
                         | Some a => a
                         | None => ""
                         end
           | None => ""
           end
      else "") n,
   Call_InitIPAddress ::
   (if EnsureCrosLoaded && connected n && negb (device_path_ n =? "")%string
    then [CrosListIPConfigs_call (device_path_ n)] else [])).
Proof.
  unfold Network_InitIPAddress, bind, get, modify, call, ret.
  destruct EnsureCrosLoaded; cbn [negb andb]; [|reflexivity].
  replace (connected (set_ip_address_ "" n)) with (connected n)
    by (destruct n; reflexivity).
  replace (device_path_ (set_ip_address_ "" n)) with (device_path_ n)
    by (destruct n; reflexivity).
  destruct (connected n && negb (device_path_ n =? "")%string);
    [|reflexivity].
  destruct (CrosListIPConfigs (device_path_ n)) as [ips|]; [|reflexivity].
  destruct (first_address ips); cbn; [|reflexivity].
  now rewrite set_ip_address_twice.
Qed.

(** X1: [InitIPAddress] changes [ip_address_] only.  The address is never
    stale: it is empty unless libcros is loaded, the network is connected and
    has a device, and then it is the first address libcros lists for the
    device that is not empty.  libcros is asked at most once, and not at all
    for a network that is not connected. *)
Theorem InitIPAddress_first_listed_address (n : Network) :
  let r := Network_InitIPAddress n in
  let n' := object r in
  n' = set_ip_address_ (ip_address_ n') n /\
  (ip_address_ n' <> "" ->
   libcros_loaded = true /\ connected n = true /\ device_path_ n <> "" /\
   exists ips pre c post,
     CrosListIPConfigs (device_path_ n) = Some ips /\
     ips = (pre ++ c :: post)%list /\
     ipconfig_address c = ip_address_ n' /\
     Forall (fun x => ipconfig_address x = "") pre) /\
  (forall pre c post,
     libcros_loaded = true -> connected n = true -> device_path_ n <> "" ->
     CrosListIPConfigs (device_path_ n) = Some (pre ++ c :: post)%list ->
     Forall (fun x => ipconfig_address x = "") pre ->
     ipconfig_address c <> "" ->
     ip_address_ n' = ipconfig_address c) /\
  (connected n = false \/ libcros_loaded = false \/ device_path_ n = "" ->
   ip_address_ n' = "" /\ calls r = [Call_InitIPAddress]) /\
  (calls r = [Call_InitIPAddress] \/
   calls r = [Call_InitIPAddress; CrosListIPConfigs_call (device_path_ n)]).
Proof.
  cbv zeta. rewrite Network_InitIPAddress_outcome.
  unfold object, calls, EnsureCrosLoaded. cbn [fst snd].
  set (ip := if libcros_loaded && connected n
                && negb (device_path_ n =? "")%string
             then _ else _).
  assert (Hip : ip_address_ (set_ip_address_ ip n) = ip)
    by (destruct n; reflexivity).
  rewrite Hip. split; [reflexivity|]. subst ip.
  destruct (libcros_loaded && connected n
            && negb (device_path_ n =? "")%string) eqn:Hcond.
  - apply andb_prop in Hcond as [Hcond Hdev].
    apply andb_prop in Hcond as [Hloaded Hconn].
    assert (Hd : device_path_ n <> "").
    { intros E. rewrite E in Hdev. discriminate. }
    split; [|split; [|split]].
    + intros Hne. repeat (split; [assumption|]).
      destruct (CrosListIPConfigs (device_path_ n)) as [ips|];
        [|contradiction].
      pose proof (first_address_spec ips) as Hs.
      destruct (first_address ips) as [a|]; [|contradiction].
      destruct Hs as (_ & pre & c & post & E & Hc & Hpre).
      exists ips, pre, c, post. repeat split; assumption.
    + intros pre c post _ _ _ Hl Hpre Hc. rewrite Hl.
      rewrite (first_address_skips pre c post Hpre Hc). reflexivity.
    + intros [H|[H|H]].
      * rewrite H in Hconn. discriminate.
      * rewrite H in Hloaded. discriminate.
      * contradiction.
    + right. reflexivity.
  - split; [|split; [|split]].
    + intros Hne. contradiction.
    + intros pre c post Hloaded Hconn Hd _ _ _.
      rewrite Hloaded, Hconn in Hcond. cbn in Hcond.
      destruct (String.eqb_spec (device_path_ n) ""); [contradiction|].
      discriminate.
    + intros _. split; reflexivity.
    + left. reflexivity.
Qed.

(** What [SetState] does when the state changes. *)
Lemma SetState_change_unfold (new_state : ConnectionState) (n : Network) :
  new_state <> state_ n ->
  Network_SetState new_state n =
  let n1 := set_state_ new_state n in
  let n2 := if negb (IsConnectingState new_state)
            then set_connection_started false n1 else n1 in
  if ConnectionState_eqb new_state STATE_FAILURE then
    if negb (ConnectionState_eqb (state_ n) STATE_UNKNOWN) &&
       negb (ConnectionState_eqb (state_ n) STATE_IDLE)
    then
      let n3 := set_notify_failure_ true n2 in
      (tt, if ConnectionError_is_no_error (error_ n3)
           then set_error_ ERROR_UNKNOWN n3 else n3, [])
    else (tt, n2, [])
  else Network_InitIPAddress n2.
Proof.
  intros Hne. unfold Network_SetState, bind, get, modify, ret. cbv zeta.
  destruct (ConnectionState_eqb_spec new_state (state_ n)) as [E|_];
    [contradiction|].
  destruct (negb (IsConnectingState new_state));
    destruct (ConnectionState_eqb new_state STATE_FAILURE);
    destruct (negb (ConnectionState_eqb (state_ n) STATE_UNKNOWN) &&
              negb (ConnectionState_eqb (state_ n) STATE_IDLE));
    cbn [app];
    try reflexivity;
    try (destruct (ConnectionError_is_no_error _); reflexivity);
    destruct (Network_InitIPAddress _) as [[[] n'] l]; reflexivity.
Qed.

Ltac network_fields n :=
  destruct n as [st er cn cs ia pr ac sc po ad nf pt sp ty nm ui ip dp pp pc
                   cp eh].

(** X2: after [SetState] the state is the new state.  [SetState] never
    resets [notify_failure_] and never replaces an error that is set; a
    change to a state other than Failure touches neither.  A change to a
    state that is not a connecting state clears [connection_started_], a
    change to a connecting state keeps it.  Everything but [state_],
    [error_], [connection_started_], [notify_failure_] and [ip_address_]
    stays as it was. *)
Theorem SetState_postcondition (new_state : ConnectionState) (n : Network) :
  let n' := object (Network_SetState new_state n) in
  state_ n' = new_state /\
  (notify_failure_ n = true -> notify_failure_ n' = true) /\
  (error_ n <> ERROR_NO_ERROR -> error_ n' = error_ n) /\
  (new_state <> STATE_FAILURE ->
   error_ n' = error_ n /\ notify_failure_ n' = notify_failure_ n) /\
  (new_state <> state_ n -> IsConnectingState new_state = false ->
   connection_started_ n' = false) /\
  (IsConnectingState new_state = true ->
   connection_started_ n' = connection_started_ n) /\
  same_configuration n n'.
Proof.
  forget_unused. cbv zeta.
  destruct (ConnectionState_eqb_spec new_state (state_ n)) as [Esame|Hne].
  - assert (E : Network_SetState new_state n = (tt, n, [])).
    { unfold Network_SetState, bind, get, ret. cbv beta iota.
      destruct (ConnectionState_eqb_spec new_state (state_ n));
        [reflexivity|contradiction]. }
    rewrite E. unfold object, same_configuration. cbn [fst snd].
    repeat split; intros; try congruence; contradiction.
  - rewrite (SetState_change_unfold _ _ Hne). cbv zeta.
    destruct (ConnectionState_eqb_spec new_state STATE_FAILURE) as [Ef|Hf].
    + destruct (negb (ConnectionState_eqb (state_ n) STATE_UNKNOWN) &&
                negb (ConnectionState_eqb (state_ n) STATE_IDLE));
        destruct (IsConnectingState new_state);
        network_fields n; unfold object, same_configuration; cbn;
        try (destruct er; cbn);
        repeat split; try congruence; intros; congruence.
    + rewrite Network_InitIPAddress_outcome.
      destruct (IsConnectingState new_state);
        network_fields n; unfold object, same_configuration; cbn;
        repeat split; try congruence; intros; congruence.
Qed.

(** X3: [SetState] raises [notify_failure_] exactly when the state changes
    to Failure from a state other than Unknown and Idle: also from Disconnect
    and from ActivationFailure. *)
Theorem SetState_notifies_exactly (new_state : ConnectionState) (n : Network) :
  notify_failure_ n = false ->
  (notify_failure_ (object (Network_SetState new_state n)) = true <->
   new_state = STATE_FAILURE /\ state_ n <> STATE_FAILURE /\
   state_ n <> STATE_UNKNOWN /\ state_ n <> STATE_IDLE).
Proof.
  forget_unused. intros Hnf.
  destruct (ConnectionState_eqb_spec new_state (state_ n)) as [Esame|Hne].
  - assert (E : Network_SetState new_state n = (tt, n, [])).
    { unfold Network_SetState, bind, get, ret. cbv beta iota.
      destruct (ConnectionState_eqb_spec new_state (state_ n));
        [reflexivity|contradiction]. }
    rewrite E. unfold object. cbn [fst snd]. rewrite Hnf. split.
    + discriminate.
    + intros (Hf & Hs & _). congruence.
  - rewrite (SetState_change_unfold _ _ Hne). cbv zeta.
    destruct (ConnectionState_eqb_spec new_state STATE_FAILURE) as [Ef|Hf].
    + subst new_state.
      destruct (IsConnectingState STATE_FAILURE);
        network_fields n; cbn in *; subst nf;
        destruct st; cbn; try (destruct er; cbn);
        (split; [intros H; try discriminate H; repeat split; congruence
                |intros (_ & H1 & H2 & H3); congruence]).
    + rewrite Network_InitIPAddress_outcome.
      destruct (IsConnectingState new_state);
        network_fields n; unfold object; cbn in *; subst nf;
        (split; [discriminate | intros (H & _); contradiction]).
Qed.

(** X4: a change to a state that is neither Failure nor a connected state
    leaves the network without IP address, and libcros is not asked. *)
Theorem SetState_disconnected_drops_address
  (new_state : ConnectionState) (n : Network) :
  new_state <> state_ n -> new_state <> STATE_FAILURE ->
  IsConnectedState new_state = false ->
  let r := Network_SetState new_state n in
  ip_address_ (object r) = "" /\ calls r = [Call_InitIPAddress].
Proof.
  intros Hne Hf Hc. cbv zeta.
  rewrite (SetState_change_unfold _ _ Hne). cbv zeta.
  destruct (ConnectionState_eqb_spec new_state STATE_FAILURE);
    [contradiction|].
  rewrite Network_InitIPAddress_outcome. unfold object, calls, connected.
  cbn [fst snd].
  assert (Hs : forall m, state_ (if negb (IsConnectingState new_state)
                                 then set_connection_started false
                                        (set_state_ new_state m)
                                 else set_state_ new_state m) = new_state).
  { intros m. destruct (negb (IsConnectingState new_state)), m; reflexivity. }
  rewrite Hs, Hc, andb_false_r. cbn [andb].
  split; [|reflexivity].
  destruct (negb (IsConnectingState new_state)), n; reflexivity.
Qed.

(** * Properties of the property setters and the credentials *)

Lemma empty_chars (s : std_string) : empty s = true <-> chars s = "".
Proof.
  unfold empty. destruct (chars s); split; intros H; try reflexivity;
    discriminate.
Qed.

Lemma empty_false_chars (s : std_string) : empty s = false <-> chars s <> "".
Proof.
  unfold empty. destruct (chars s); split; intros H; try reflexivity;
    try discriminate. exfalso. apply H. reflexivity.
Qed.

Lemma assign_empty_again (s : std_string) :
  chars s = "" -> assign s "" = s.
Proof.
  intros H. unfold assign. destruct s as [c]. cbn in *. subst c.
  reflexivity.
Qed.

(** X5: [SetOrClearStringProperty] never sends an empty string to the
    service: an empty value clears the property there instead.  With libcros
    loaded exactly one call is made, to the service of this network and for
    this property: the clear for an empty value, the set with the value
    otherwise; without libcros nothing is sent.  The field [dest] points to
    holds the value afterwards in either case. *)
Theorem SetOrClearStringProperty_never_sends_empty {O : Type}
  (base : O -> Network) (prop str : string) (d : StringField O) (o : O) :
  (forall x o', load d (store d x o') = x) ->
  let r := SetOrClearStringProperty base prop str (Some d) o in
  (forall p k v,
     In (CrosSetNetworkServicePropertyGValue p k v) (calls r) ->
     k = prop /\ v = StringValue str /\ str <> "") /\
  (forall p k,
     In (CrosClearNetworkServiceProperty p k) (calls r) ->
     k = prop /\ str = "") /\
  chars (load d (object r)) = str /\
  (libcros_loaded = false -> calls r = []) /\
  (List.length (calls r) <= 1)%nat /\
  (libcros_loaded = true -> str = "" ->
   calls r = [CrosClearNetworkServiceProperty (service_path_ (base o)) prop])
  /\
  (libcros_loaded = true -> str <> "" ->
   (forall x o', service_path_ (base (store d x o')) =
                 service_path_ (base o')) ->
   calls r = [CrosSetNetworkServicePropertyGValue (service_path_ (base o))
                prop (StringValue str)]).
Proof.
  intros Hlens. cbv zeta.
  unfold SetOrClearStringProperty, SetStringProperty, SetValueProperty,
    ClearProperty, EnsureCrosLoaded, bind, get, modify, call, ret,
    object, calls.
  destruct (String.eqb_spec str "") as [E|E]; destruct libcros_loaded;
    cbn [negb fst snd app In List.length]; rewrite Hlens;
    rewrite ?chars_assign;
    (split; [intros p k v H|split; [intros p k H|]]).
  all: try (destruct H as [H|[]]; try discriminate H).
  all: try contradiction.
  all: try (injection H as _ <-; split; [reflexivity|exact E]).
  all: try (injection H as _ <- <-; repeat split; exact E).
  all: cbn [chars]; repeat split; try (symmetry; exact E);
    try reflexivity; try discriminate; auto.
  all: try (intros; contradiction).
  intros _ _ Hpath. rewrite Hpath. reflexivity.
Qed.

(** [SetEAPClientCertPkcs11Id] keeps the certificate id and the key id
    of the service in step: both are set to the id, or both are cleared when
    the id is empty; the network remembers the id. *)
Theorem SetEAPClientCertPkcs11Id_cert_and_key (pkcs11_id : string)
  (w : WifiNetwork) :
  let r := WifiNetwork_SetEAPClientCertPkcs11Id pkcs11_id w in
  let path := service_path_ (wifi_base w) in
  chars (eap_client_cert_pkcs11_id_ (object r)) = pkcs11_id /\
  calls r =
  (if negb libcros_loaded then []
   else if (pkcs11_id =? "")%string
        then [CrosClearNetworkServiceProperty path kEapCertIdProperty;
              CrosClearNetworkServiceProperty path kEapKeyIdProperty]
        else [CrosSetNetworkServicePropertyGValue path kEapCertIdProperty
                (StringValue pkcs11_id);
              CrosSetNetworkServicePropertyGValue path kEapKeyIdProperty
                (StringValue pkcs11_id)]).
Proof.
  cbv zeta.
  unfold WifiNetwork_SetEAPClientCertPkcs11Id, SetOrClearStringProperty,
    SetStringProperty, SetValueProperty, ClearProperty, EnsureCrosLoaded,
    bind, get, modify, call, ret, object, calls.
  destruct w as [b en pa up pr id em e2 nn ci us ei ea ep ct].
  destruct (String.eqb_spec pkcs11_id "") as [E|E]; destruct libcros_loaded;
    cbn; rewrite ?chars_assign; split; try reflexivity.
  all: symmetry; exact E.
Qed.

(** X6: the passphrase set is the passphrase read back.  Setting the empty
    passphrase restores the passphrase the service remembered, whose stored
    value is never erased, and clears the property at the service instead of
    sending an empty string. *)
Theorem SetPassphrase_GetPassphrase (passphrase : string) (w : WifiNetwork) :
  let r := WifiNetwork_SetPassphrase passphrase w in
  let path := service_path_ (wifi_base w) in
  (passphrase <> "" ->
   WifiNetwork_GetPassphrase (object r) = passphrase /\
   chars (passphrase_ (object r)) = passphrase /\
   calls r =
   (if libcros_loaded
    then [CrosSetNetworkServicePropertyGValue path kPassphraseProperty
            (StringValue passphrase)]
    else [])) /\
  (passphrase = "" ->
   WifiNetwork_GetPassphrase (object r) = chars (passphrase_ w) /\
   passphrase_ (object r) = passphrase_ w /\
   calls r =
   (if libcros_loaded
    then [CrosClearNetworkServiceProperty path kPassphraseProperty]
    else [])).
Proof.
  cbv zeta.
  unfold WifiNetwork_SetPassphrase, WifiNetwork_GetPassphrase,
    SetOrClearStringProperty, SetStringProperty, SetValueProperty,
    ClearProperty, EnsureCrosLoaded, bind, get, modify, call, ret,
    object, calls.
  destruct w as [b en pa up pr id em e2 nn ci us ei ea ep ct].
  destruct (String.eqb_spec passphrase "") as [E|E]; split; intros H;
    try contradiction.
  - destruct libcros_loaded; cbn; unfold empty; rewrite !chars_assign;
      (destruct (chars pa); repeat split).
  - destruct libcros_loaded; cbn; unfold empty; rewrite !chars_assign;
      (destruct passphrase; [contradiction|repeat split]).
Qed.

(** X7: the encryption string tells the encryption apart, and for 802.1X
    the EAP method as well: two networks with the same string have the same
    encryption. *)
Theorem GetEncryptionString_injective (a b : WifiNetwork) :
  WifiNetwork_GetEncryptionString a = WifiNetwork_GetEncryptionString b ->
  encryption_ a = encryption_ b /\
  (encryption_ a = SECURITY_8021X -> eap_method_ a = eap_method_ b).
Proof.
  unfold WifiNetwork_GetEncryptionString.
  destruct (encryption_ a), (encryption_ b);
    destruct (eap_method_ a), (eap_method_ b); cbn; intros H;
    try discriminate H; split; try reflexivity; intros H'; try reflexivity;
    discriminate H'.
Qed.

Ltac vpn_fields v :=
  destruct v as [b sh pt ca ps pr ci un up ur gn ct].

Lemma chars_assign_if_empty (mine : std_string) (theirs : string) :
  chars (assign_if_empty mine theirs) =
  if (chars mine =? "")%string then theirs else chars mine.
Proof.
  unfold assign_if_empty, empty.
  destruct (chars mine) eqn:E; cbn; [reflexivity|].
  now rewrite E.
Qed.

Lemma assign_if_empty_again (mine : std_string) (theirs : string) :
  assign_if_empty (assign_if_empty mine theirs) theirs =
  assign_if_empty mine theirs.
Proof.
  unfold assign_if_empty. destruct (empty mine) eqn:E.
  - destruct (empty (assign mine theirs)) eqn:E'; [|reflexivity].
    apply empty_chars in E'. rewrite chars_assign in E'. subst theirs.
    apply assign_empty_again, chars_assign.
  - now rewrite E.
Qed.

(** [CopyCredentialsFromRemembered] field by field. *)
Lemma CopyCredentialsFromRemembered_outcome (remembered v : VirtualNetwork) :
  VirtualNetwork_CopyCredentialsFromRemembered remembered v =
  (tt,
   mk_VirtualNetwork (vpn_base v) (server_hostname_ v) (provider_type_ v)
     (assign_if_empty (ca_cert_nss_ v) (chars (ca_cert_nss_ remembered)))
     (assign_if_empty (psk_passphrase_ v)
        (chars (psk_passphrase_ remembered)))
     (psk_passphrase_required_ v)
     (assign_if_empty (client_cert_id_ v)
        (chars (client_cert_id_ remembered)))
     (if (username_ v =? "")%string then username_ remembered
      else username_ v)
     (assign_if_empty (vpn_user_passphrase_ v)
        (chars (vpn_user_passphrase_ remembered)))
     (user_passphrase_required_ v) (group_name_ v) (client_cert_type_ v),
   []).
Proof.
  unfold VirtualNetwork_CopyCredentialsFromRemembered, assign_if_empty,
    bind, get, modify, ret.
  vpn_fields v. cbn -[empty String.eqb assign].
  destruct (empty ca); cbn -[empty String.eqb assign];
    destruct (empty ps); cbn -[empty String.eqb assign];
    destruct (empty ci); cbn -[empty String.eqb assign];
    destruct (un =? "")%string; cbn -[empty String.eqb assign];
    destruct (empty up); reflexivity.
Qed.

(** X8: [CopyCredentialsFromRemembered] fills in the credentials that are
    empty from the remembered network and never overwrites one that is set;
    nothing else changes and nothing is sent to the service.  Copying a
    second time changes nothing. *)
Theorem CopyCredentialsFromRemembered_fills_empty
  (remembered v : VirtualNetwork) :
  let r := VirtualNetwork_CopyCredentialsFromRemembered remembered v in
  let v' := object r in
  let pick (mine theirs : string) :=
    if (mine =? "")%string then theirs else mine in
  chars (ca_cert_nss_ v') =
    pick (chars (ca_cert_nss_ v)) (chars (ca_cert_nss_ remembered)) /\
  chars (psk_passphrase_ v') =
    pick (chars (psk_passphrase_ v)) (chars (psk_passphrase_ remembered)) /\
  chars (client_cert_id_ v') =
    pick (chars (client_cert_id_ v)) (chars (client_cert_id_ remembered)) /\
  username_ v' = pick (username_ v) (username_ remembered) /\
  chars (vpn_user_passphrase_ v') =
    pick (chars (vpn_user_passphrase_ v))
         (chars (vpn_user_passphrase_ remembered)) /\
  (vpn_base v' = vpn_base v /\ server_hostname_ v' = server_hostname_ v /\
   provider_type_ v' = provider_type_ v /\ group_name_ v' = group_name_ v /\
   psk_passphrase_required_ v' = psk_passphrase_required_ v /\
   user_passphrase_required_ v' = user_passphrase_required_ v /\
   client_cert_type_ v' = client_cert_type_ v) /\
  calls r = [] /\
  object (VirtualNetwork_CopyCredentialsFromRemembered remembered v') = v'.
Proof.
  cbv zeta. rewrite !CopyCredentialsFromRemembered_outcome.
  unfold object, calls. cbn [fst snd].
  vpn_fields v.
  cbn [vpn_base server_hostname_ provider_type_ ca_cert_nss_ psk_passphrase_
       psk_passphrase_required_ client_cert_id_ username_
       vpn_user_passphrase_ user_passphrase_required_ group_name_
       client_cert_type_].
  rewrite !chars_assign_if_empty, !assign_if_empty_again.
  repeat split.
  destruct (un =? "")%string eqn:E; [|now rewrite E].
  destruct (username_ remembered =? "")%string; reflexivity.
Qed.

Lemma WipeString_empty (s : std_string) : empty (WipeString s) = true.
Proof. reflexivity. Qed.

Lemma string_eqb_neq (a b : string) : a <> b -> (a =? b)%string = false.
Proof. intros H. now apply String.eqb_neq. Qed.

(** X9: with its credentials erased a VirtualNetwork asks for whatever
    its provider type needs: a certificate network (L2TP/IPsec with user
    certificate, OpenVPN) always needs more information to connect, and so
    does every network whose user passphrase or pre-shared key is required.
    Only a pre-shared-key network that requires neither, has host and user
    name and no error, can connect as it is. *)
Theorem EraseCredentials_then_NeedMoreInfoToConnect (v : VirtualNetwork) :
  let v' := object (VirtualNetwork_EraseCredentials v) in
  (provider_type_ v = PROVIDER_TYPE_L2TP_IPSEC_USER_CERT \/
   provider_type_ v = PROVIDER_TYPE_OPEN_VPN ->
   VirtualNetwork_NeedMoreInfoToConnect v' = true) /\
  (user_passphrase_required_ v = true ->
   VirtualNetwork_NeedMoreInfoToConnect v' = true) /\
  (provider_type_ v = PROVIDER_TYPE_L2TP_IPSEC_PSK ->
   psk_passphrase_required_ v = true ->
   VirtualNetwork_NeedMoreInfoToConnect v' = true) /\
  (provider_type_ v = PROVIDER_TYPE_L2TP_IPSEC_PSK ->
   server_hostname_ v <> "" -> username_ v <> "" ->
   user_passphrase_required_ v = false ->
   psk_passphrase_required_ v = false ->
   error_ (vpn_base v) = ERROR_NO_ERROR ->
   VirtualNetwork_NeedMoreInfoToConnect v' = false).
Proof.
  cbv zeta. vpn_fields v.
  unfold VirtualNetwork_EraseCredentials, bind, modify, object.
  cbn [fst snd set_ca_cert_nss_ set_psk_passphrase_ set_client_cert_id_
       set_vpn_user_passphrase_ ca_cert_nss_ psk_passphrase_ client_cert_id_
       vpn_user_passphrase_].
  unfold VirtualNetwork_NeedMoreInfoToConnect, IsUserPassphraseRequired,
    IsPSKPassphraseRequired.
  cbn [vpn_base server_hostname_ provider_type_ psk_passphrase_
       psk_passphrase_required_ client_cert_id_ username_
       vpn_user_passphrase_ user_passphrase_required_].
  rewrite !WipeString_empty, !andb_true_r.
  split; [|split; [|split]].
  - intros [-> | ->];
      destruct ((sh =? "")%string || (un =? "")%string || ur);
      try reflexivity;
      destruct (negb (ConnectionError_is_no_error (error_ b))); reflexivity.
  - intros ->. now rewrite orb_true_r.
  - intros -> ->.
    destruct ((sh =? "")%string || (un =? "")%string || ur);
      try reflexivity;
      destruct (negb (ConnectionError_is_no_error (error_ b))); reflexivity.
  - intros -> Hh Hu -> -> ->.
    now rewrite (string_eqb_neq _ _ Hh), (string_eqb_neq _ _ Hu).
Qed.

(** [SetL2TPIPsecPSKCredentials] field by field. *)
Lemma SetL2TPIPsecPSKCredentials_outcome
  (psk_passphrase username user_passphrase group_name : string)
  (v : VirtualNetwork) :
  let path := service_path_ (vpn_base v) in
  VirtualNetwork_SetL2TPIPsecPSKCredentials
    psk_passphrase username user_passphrase group_name v =
  (tt,
   mk_VirtualNetwork (vpn_base v) (server_hostname_ v) (provider_type_ v)
     (ca_cert_nss_ v)
     (if (psk_passphrase =? "")%string then psk_passphrase_ v
      else assign (psk_passphrase_ v) psk_passphrase)
     (psk_passphrase_required_ v) (client_cert_id_ v) username
     (if (user_passphrase =? "")%string then vpn_user_passphrase_ v
      else assign (vpn_user_passphrase_ v) user_passphrase)
     (user_passphrase_required_ v) group_name (client_cert_type_ v),
   if negb libcros_loaded then []
   else
     ((if (psk_passphrase =? "")%string then []
       else [CrosSetNetworkServicePropertyGValue path kL2tpIpsecPskProperty
               (StringValue psk_passphrase)]) ++
      [CrosSetNetworkServicePropertyGValue path kL2tpIpsecUserProperty
         (StringValue username)] ++
      (if (user_passphrase =? "")%string then []
       else [CrosSetNetworkServicePropertyGValue path
               kL2tpIpsecPasswordProperty (StringValue user_passphrase)]) ++
      [CrosSetNetworkServicePropertyGValue path kL2tpIpsecGroupNameProperty
         (StringValue group_name)])%list).
Proof.
  cbv zeta.
  unfold VirtualNetwork_SetL2TPIPsecPSKCredentials, SetStringProperty,
    SetValueProperty, EnsureCrosLoaded, bind, get, modify, call, ret.
  vpn_fields v.
  destruct (psk_passphrase =? "")%string, (user_passphrase =? "")%string,
    libcros_loaded; cbn; rewrite ?chars_assign; reflexivity.
Qed.

(** X10: [SetL2TPIPsecPSKCredentials] stores user and group name as given,
    but keeps the stored pre-shared key and the stored passphrase when it is
    given an empty one, and then sends none to the service either.  Given
    a key, a user name and a passphrase, a pre-shared-key network with a
    host name and no error needs no more information to connect. *)
Theorem SetL2TPIPsecPSKCredentials_completes
  (psk_passphrase username user_passphrase group_name : string)
  (v : VirtualNetwork) :
  let r := VirtualNetwork_SetL2TPIPsecPSKCredentials
             psk_passphrase username user_passphrase group_name v in
  let v' := object r in
  username_ v' = username /\ group_name_ v' = group_name /\
  (psk_passphrase = "" -> psk_passphrase_ v' = psk_passphrase_ v) /\
  (psk_passphrase <> "" -> chars (psk_passphrase_ v') = psk_passphrase) /\
  (user_passphrase = "" -> vpn_user_passphrase_ v' = vpn_user_passphrase_ v)
  /\
  (user_passphrase <> "" ->
   chars (vpn_user_passphrase_ v') = user_passphrase) /\
  (username <> "" -> group_name <> "" ->
   forall p k,
     ~ In (CrosSetNetworkServicePropertyGValue p k (StringValue ""))
          (calls r)) /\
  (provider_type_ v = PROVIDER_TYPE_L2TP_IPSEC_PSK ->
   server_hostname_ v <> "" -> error_ (vpn_base v) = ERROR_NO_ERROR ->
   psk_passphrase <> "" -> username <> "" -> user_passphrase <> "" ->
   VirtualNetwork_NeedMoreInfoToConnect v' = false).
Proof.
  cbv zeta. rewrite SetL2TPIPsecPSKCredentials_outcome.
  unfold object, calls. cbn [fst snd].
  cbn [username_ group_name_ psk_passphrase_ vpn_user_passphrase_].
  split; [reflexivity|]. split; [reflexivity|].
  split; [intros ->; reflexivity|].
  split; [intros H; rewrite (string_eqb_neq _ _ H); apply chars_assign|].
  split; [intros ->; reflexivity|].
  split; [intros H; rewrite (string_eqb_neq _ _ H); apply chars_assign|].
  split.
  - intros Hu Hg p k. destruct (negb libcros_loaded); [intros []|].
    intros H. repeat (apply in_app_or in H; destruct H as [H|H]).
    + destruct (String.eqb_spec psk_passphrase ""); [destruct H|].
      destruct H as [H|[]]. injection H as _ _ E. congruence.
    + destruct H as [H|[]]. injection H as _ _ E. congruence.
    + destruct (String.eqb_spec user_passphrase ""); [destruct H|].
      destruct H as [H|[]]. injection H as _ _ E. congruence.
    + destruct H as [H|[]]. injection H as _ _ E. congruence.
  - intros Hp Hh He Hpsk Hu Hpass.
    unfold VirtualNetwork_NeedMoreInfoToConnect, IsUserPassphraseRequired,
      IsPSKPassphraseRequired.
    cbn [vpn_base server_hostname_ provider_type_ psk_passphrase_
         psk_passphrase_required_ client_cert_id_ username_
         vpn_user_passphrase_ user_passphrase_required_].
    rewrite Hp, He, (string_eqb_neq _ _ Hh), (string_eqb_neq _ _ Hu),
      (string_eqb_neq _ _ Hpsk), (string_eqb_neq _ _ Hpass).
    assert (Hne : forall s x, x <> "" -> empty (assign s x) = false).
    { intros s x Hx. apply empty_false_chars. now rewrite chars_assign. }
    rewrite (Hne _ _ Hpsk), (Hne _ _ Hpass), !andb_false_r. reflexivity.
Qed.

(** X11: the one-time password given to [SetOpenVPNCredentials] is sent to
    the service and not kept: the network afterwards is the same whatever
    the password was.  An empty passphrase leaves the stored one alone. *)
Theorem SetOpenVPNCredentials_otp_not_stored
  (client_cert_id username user_passphrase otp otp' : string)
  (v : VirtualNetwork) :
  let r := VirtualNetwork_SetOpenVPNCredentials
             client_cert_id username user_passphrase otp v in
  object r =
  object (VirtualNetwork_SetOpenVPNCredentials
            client_cert_id username user_passphrase otp' v) /\
  chars (client_cert_id_ (object r)) = client_cert_id /\
  username_ (object r) = username /\
  (user_passphrase = "" ->
   vpn_user_passphrase_ (object r) = vpn_user_passphrase_ v) /\
  (libcros_loaded = true ->
   exists before,
     calls r =
     (before ++
      [CrosSetNetworkServicePropertyGValue (service_path_ (vpn_base v))
         kOpenVPNOTPProperty (StringValue otp)])%list).
Proof.
  cbv zeta.
  unfold VirtualNetwork_SetOpenVPNCredentials, SetStringProperty,
    SetValueProperty, EnsureCrosLoaded, bind, get, modify, call, ret,
    object, calls.
  vpn_fields v.
  destruct (String.eqb_spec user_passphrase "") as [E|E];
    destruct libcros_loaded; cbn; rewrite ?chars_assign;
    repeat split; try discriminate; intros; try contradiction;
    try reflexivity;
    match goal with
    | |- exists before, ?l = _ => exists (removelast l); reflexivity
    end.
Qed.

(** X12: on an L2TP/IPsec user-certificate network that lacks nothing but
    the certificate, a matching certificate with an id supplies it: after
    [MatchCertificatePattern] the network needs no more information to
    connect. *)
Theorem MatchCertificatePattern_supplies_certificate
  (closure : Closure) (v : VirtualNetwork) (cert : X509Certificate) :
  Empty (client_cert_pattern_ (vpn_base v)) = false ->
  GetMatch (client_cert_pattern_ (vpn_base v)) = Some cert ->
  GetPkcs11Id cert <> "" ->
  provider_type_ v = PROVIDER_TYPE_L2TP_IPSEC_USER_CERT ->
  server_hostname_ v <> "" -> username_ v <> "" ->
  IsUserPassphraseRequired v = false ->
  error_ (vpn_base v) = ERROR_NO_ERROR ->
  let v' := object (VirtualNetwork_MatchCertificatePattern closure v) in
  VirtualNetwork_NeedMoreInfoToConnect v' = false /\
  (empty (client_cert_id_ v) = true ->
   VirtualNetwork_NeedMoreInfoToConnect v = true).
Proof.
  intros HE HG Hid Hp Hh Hu Hr He. cbv zeta.
  rewrite VirtualNetwork_MatchCertificatePattern_outcome.
  unfold pattern_outcome. rewrite HE, HG, Hp.
  unfold SetStringProperty, SetValueProperty, EnsureCrosLoaded, bind, get,
    modify, call, ret, object.
  unfold VirtualNetwork_NeedMoreInfoToConnect.
  vpn_fields v. cbn in Hp, Hh, Hu, Hr, He. subst pt.
  split.
  - destruct libcros_loaded; cbn;
      unfold IsUserPassphraseRequired in *; cbn in *;
      rewrite Hr, He, (string_eqb_neq _ _ Hh), (string_eqb_neq _ _ Hu);
      cbn; unfold empty; rewrite chars_assign;
      (destruct (GetPkcs11Id cert); [contradiction|reflexivity]).
  - intros Hc. cbn in *. rewrite Hr, He, Hc.
    rewrite (string_eqb_neq _ _ Hh), (string_eqb_neq _ _ Hu). reflexivity.
Qed.

Ltac wifi_fields w :=
  destruct w as [b en pa up pr id em e2 nn ci us ei ea ep ct].

(** X13: which WifiNetworks require a user profile.  Only 802.1X networks
    with EAP-TLS do; one that has been given a client certificate id does;
    one whose credentials have been erased does exactly when its client
    certificate is chosen by pattern. *)
Theorem RequiresUserProfile_certificates (w : WifiNetwork) :
  (WifiNetwork_RequiresUserProfile w = true ->
   encryption_ w = SECURITY_8021X /\ eap_method_ w = EAP_METHOD_TLS) /\
  (forall pkcs11_id,
     encryption_ w = SECURITY_8021X -> eap_method_ w = EAP_METHOD_TLS ->
     pkcs11_id <> "" ->
     WifiNetwork_RequiresUserProfile
       (object (WifiNetwork_SetEAPClientCertPkcs11Id pkcs11_id w)) = true) /\
  (WifiNetwork_RequiresUserProfile (object (WifiNetwork_EraseCredentials w))
   = true <->
   encryption_ w = SECURITY_8021X /\ eap_method_ w = EAP_METHOD_TLS /\
   eap_client_cert_type_ w = CLIENT_CERT_TYPE_PATTERN).
Proof.
  wifi_fields w. split; [|split].
  - unfold WifiNetwork_RequiresUserProfile. cbn.
    destruct en, em; try discriminate. split; reflexivity.
  - intros pkcs11_id Hen Hem Hid. cbn in Hen, Hem. subst en em.
    unfold WifiNetwork_SetEAPClientCertPkcs11Id, SetOrClearStringProperty,
      SetStringProperty, SetValueProperty, ClearProperty, EnsureCrosLoaded,
      bind, get, modify, call, ret, object.
    rewrite (string_eqb_neq _ _ Hid).
    destruct libcros_loaded; cbn; unfold WifiNetwork_RequiresUserProfile;
      cbn; unfold empty; rewrite chars_assign;
      (destruct pkcs11_id; [contradiction|reflexivity]).
  - unfold WifiNetwork_EraseCredentials, bind, modify, object.
    cbn. unfold WifiNetwork_RequiresUserProfile. cbn.
    destruct en, em, ct; cbn; split; intros H; try discriminate H;
      try (destruct H as (H1 & H2 & H3); discriminate);
      repeat split.
Qed.

(** * Properties of names and SSIDs *)

Lemma string_app_assoc (a b c : string) : (a ++ b) ++ c = a ++ (b ++ c).
Proof. induction a; cbn; congruence. Qed.

Lemma string_app_empty (a : string) : a ++ "" = a.
Proof. induction a; cbn; congruence. Qed.

Lemma drop_get (index : nat) (s : string) (c : ascii) :
  String.get index s = Some c ->
  drop index s = String c (drop (S index) s).
Proof.
  revert index. induction s as [|a r IH]; intros [|i]; cbn; try discriminate.
  - intros [= ->]. now destruct r.
  - intros H. rewrite (IH i H). reflexivity.
Qed.

Lemma get_in_range (index : nat) (s : string) :
  (index < String.length s)%nat -> exists c, String.get index s = Some c.
Proof.
  revert index. induction s as [|a r IH]; intros [|i]; cbn; try lia.
  - intros _. now exists a.
  - intros H. apply IH. lia.
Qed.

Lemma ValidateUTF8_loop_single_bytes (s : string) :
  (forall i c, String.get i s = Some c ->
     ReadUnicodeCharacter s i = (true, 0%nat, Z.of_N (N_of_ascii c))) ->
  (forall i c, String.get i s = Some c -> 32 <= Z.of_N (N_of_ascii c) ->
     WriteUnicodeCharacter (Z.of_N (N_of_ascii c)) = String c "") ->
  forall fuel index output,
    (String.length s - index <= fuel)%nat ->
    ValidateUTF8_loop fuel s index output =
    output ++ replace_controls (WriteUnicodeCharacter 65533) (drop index s).
Proof.
  intros Hread Hwrite.
  induction fuel as [|fuel IH]; intros index output Hfuel.
  - cbn [ValidateUTF8_loop].
    assert (E : drop index s = "").
    { clear - Hfuel. revert index Hfuel.
      induction s as [|a r IHs]; intros [|i]; cbn; intros H;
        try reflexivity; try lia. apply IHs. lia. }
    rewrite E. cbn. now rewrite string_app_empty.
  - cbn [ValidateUTF8_loop].
    destruct (Nat.ltb_spec index (String.length s)) as [Hlt|Hge].
    + destruct (get_in_range _ _ Hlt) as [c Hc].
      rewrite (Hread _ _ Hc), (drop_get _ _ _ Hc), Nat.add_0_r.
      cbn [replace_controls andb].
      rewrite IH by lia.
      destruct (Z.leb_spec 32 (Z.of_N (N_of_ascii c))) as [Hp|Hp].
      * rewrite (Hwrite _ _ Hc Hp). now rewrite string_app_assoc.
      * now rewrite string_app_assoc.
    + assert (E : drop index s = "").
      { clear - Hge. revert index Hge.
        induction s as [|a r IHs]; intros [|i]; cbn; intros H;
          try reflexivity; try lia. apply IHs. lia. }
      rewrite E. cbn. now rewrite string_app_empty.
Qed.

Lemma replace_controls_printable (replacement s : string) :
  (forall i c, String.get i s = Some c -> 32 <= Z.of_N (N_of_ascii c)) ->
  replace_controls replacement s = s.
Proof.
  induction s as [|a r IH]; intros H; [reflexivity|]. cbn.
  rewrite (proj2 (Z.leb_le _ _) (H 0%nat a eq_refl)). cbn. f_equal.
  apply IH. intros i c Hc. apply (H (S i)). exact Hc.
Qed.

(** X21: on a name of one-byte characters [ValidateUTF8] replaces each
    control character (below 0x20) by U+FFFD and keeps the others in their
    places; a name without control characters is returned as it is.  Here
    every byte of the name is read as a character of its own and each
    character kept is written as that byte. *)
Theorem ValidateUTF8_replaces_control_characters (s : string) :
  (forall i c, String.get i s = Some c ->
     ReadUnicodeCharacter s i = (true, 0%nat, Z.of_N (N_of_ascii c))) ->
  (forall i c, String.get i s = Some c -> 32 <= Z.of_N (N_of_ascii c) ->
     WriteUnicodeCharacter (Z.of_N (N_of_ascii c)) = String c "") ->
  ValidateUTF8 s = replace_controls (WriteUnicodeCharacter 65533) s /\
  ((forall i c, String.get i s = Some c -> 32 <= Z.of_N (N_of_ascii c)) ->
   ValidateUTF8 s = s).
Proof.
  intros Hread Hwrite.
  assert (E : ValidateUTF8 s =
              replace_controls (WriteUnicodeCharacter 65533) s).
  { unfold ValidateUTF8.
    rewrite (ValidateUTF8_loop_single_bytes s Hread Hwrite) by lia.
    reflexivity. }
  split; [exact E|]. intros Hp. rewrite E.
  now apply replace_controls_printable.
Qed.

(** X22: [SetSsid] always succeeds and always names the network, talking to
    nobody, and only the name changes.  When the SSID is not UTF-8, its
    encoding is detected and the conversion succeeds with a result that is
    not empty, the name is the validated conversion.  In every other case
    (the SSID is UTF-8, no encoding is detected, the conversion fails, or it
    gives the empty string) the name is the validated SSID itself: the output
    of a failed conversion is never used. *)
Theorem SetSsid_names_the_network (ssid : string) (w : WifiNetwork) :
  let r := WifiNetwork_SetSsid ssid w in
  result r = true /\ calls r = [] /\
  object r = set_wifi_base (set_name (name_ (wifi_base (object r)))
                              (wifi_base w)) w /\
  (forall encoding converted,
     IsStringUTF8 ssid = false -> DetectEncoding ssid = Some encoding ->
     ConvertToUtf8AndNormalize ssid encoding = (true, converted) ->
     converted <> "" ->
     name_ (wifi_base (object r)) = ValidateUTF8 converted) /\
  (IsStringUTF8 ssid = true \/ DetectEncoding ssid = None \/
   (exists encoding, DetectEncoding ssid = Some encoding /\
      (fst (ConvertToUtf8AndNormalize ssid encoding) = false \/
       snd (ConvertToUtf8AndNormalize ssid encoding) = "")) ->
   name_ (wifi_base (object r)) = ValidateUTF8 ssid).
Proof.
  cbv zeta. unfold WifiNetwork_SetSsid.
  assert (Hset : forall name,
    (on_wifi_base (Network_SetName name) ;; ret true) w =
    (true, set_wifi_base (set_name (ValidateUTF8 name) (wifi_base w)) w, [])).
  { intros name. reflexivity. }
  assert (Hname : forall name,
    name_ (wifi_base (set_wifi_base (set_name name (wifi_base w)) w)) = name).
  { intros name. destruct w as [[] ?]. reflexivity. }
  destruct (IsStringUTF8 ssid) eqn:Hutf; cbn [negb].
  - cbn [String.eqb]. rewrite Hset. unfold result, object, calls.
    cbn [fst snd]. rewrite Hname. repeat split; auto.
    intros encoding converted H. discriminate H.
  - destruct (DetectEncoding ssid) as [encoding|] eqn:Hdet.
    + destruct (ConvertToUtf8AndNormalize ssid encoding) as [ok out] eqn:Hc.
      destruct ok; cbn [negb].
      * destruct (String.eqb_spec out "") as [->|Hout];
          rewrite Hset; unfold result, object, calls; cbn [fst snd];
          rewrite Hname; repeat split; auto.
        -- intros e converted _ He Hconv Hne. injection He as <-.
           rewrite Hc in Hconv. injection Hconv as <-.
           exfalso. apply Hne. reflexivity.
        -- intros e converted _ He Hconv _. injection He as <-.
           rewrite Hc in Hconv. injection Hconv as <-. reflexivity.
        -- intros [H|[H|[e [He [Hf|Hf]]]]]; try discriminate;
             injection He as <-; rewrite Hc in Hf; cbn [fst snd] in Hf;
             [discriminate|contradiction].
      * cbn [String.eqb]. rewrite Hset. unfold result, object, calls.
        cbn [fst snd]. rewrite Hname. repeat split; auto.
        intros e converted _ He Hconv _. injection He as <-.
        rewrite Hc in Hconv. discriminate Hconv.
    + cbn [String.eqb]. rewrite Hset. unfold result, object, calls.
      cbn [fst snd]. rewrite Hname. repeat split; auto.
      intros e converted _ He. discriminate He.
Qed.

(** * Properties of cellular activation *)

(** X25: [StartActivation] succeeds exactly when libcros is loaded and the
    modem accepts the request.  Then the network is activating at once, and
    [NeedsActivation] holds whatever the plan says; nothing else changes.
    When it fails the network is as it was, and without libcros the modem is
    not asked. *)
Theorem StartActivation_marks_activating (c : CellularNetwork) :
  let r := CellularNetwork_StartActivation c in
  let ok := fst (fst r) in
  let c' := snd (fst r) in
  (ok = true <->
   libcros_loaded = true /\
   CrosActivateCellularModem (service_path_ (cellular_base c)) = true) /\
  (ok = true ->
   c' = set_activation_state_ ACTIVATION_STATE_ACTIVATING c /\
   activation_state_ c' = ACTIVATION_STATE_ACTIVATING /\
   cellular_base c' = cellular_base c /\
   CellularNetwork_NeedsActivation c' = true) /\
  (ok = false -> c' = c) /\
  (libcros_loaded = false -> snd r = []).
Proof.
  forget_unused. cbv zeta.
  unfold CellularNetwork_StartActivation, CellularNetwork_NeedsActivation,
    EnsureCrosLoaded.
  destruct libcros_loaded; cbn [negb fst snd].
  - destruct (CrosActivateCellularModem (service_path_ (cellular_base c)));
      cbn [negb fst snd]; destruct c; cbn;
      repeat split; try discriminate; try tauto;
      intros; try discriminate; intuition discriminate.
  - repeat split; try discriminate; try tauto;
      intros; try discriminate; intuition discriminate.
Qed.

End NetworkLibrary.

(** * The reference helpers *)

Lemma string_pairs_ind (P : string -> Prop) :
  P "" -> (forall a, P (String a "")) ->
  (forall a b r, P r -> P (String a (String b r))) ->
  forall s, P s.
Proof.
  intros H0 H1 H2.
  assert (H : forall s, P s /\ forall a, P (String a s)).
  { induction s as [|b r [IHr IHa]]; split; auto. }
  intros s. apply H.
Qed.

(** The reference hex decoder fails on an odd number of characters and on
    a character that is no hexadecimal digit. *)
Lemma HexStringToBytes_model_odd (input : string) :
  Nat.odd (String.length input) = true ->
  fst (HexStringToBytes_model input) = false.
Proof.
  induction input as [|a|a b r IH] using string_pairs_ind.
  - discriminate.
  - reflexivity.
  - intros Hodd. cbn [HexStringToBytes_model].
    destruct (hex_digit a), (hex_digit b); try reflexivity.
    destruct (HexStringToBytes_model r) as [ok out] eqn:E.
    cbn [fst] in *. apply IH.
    change (String.length (String a (String b r)))
      with (S (S (String.length r))) in Hodd.
    now rewrite Nat.odd_succ_succ in Hodd.
Qed.

Lemma HexStringToBytes_model_not_hex (input : string) (i : nat) (c : ascii) :
  String.get i input = Some c -> hex_digit c = None ->
  fst (HexStringToBytes_model input) = false.
Proof.
  revert i. induction input as [|a|a b r IH] using string_pairs_ind;
    intros i Hget Hc.
  - destruct i; discriminate.
  - reflexivity.
  - cbn [HexStringToBytes_model].
    destruct i as [|[|i]]; cbn in Hget.
    + injection Hget as ->. now rewrite Hc.
    + injection Hget as ->. rewrite Hc. now destruct (hex_digit a).
    + destruct (hex_digit a), (hex_digit b); try reflexivity.
      destruct (HexStringToBytes_model r) as [ok out] eqn:E.
      cbn [fst] in *. now apply (IH i).
Qed.

(** The loop of [GetPrefixLength] on some token sequences. *)
Example GetPrefixLength_loop_slash32 :
  GetPrefixLength_loop ["255"; "255"; "255"; "255"] 0 0 = 32.
Proof. reflexivity. Qed.

Example GetPrefixLength_loop_slash0 :
  GetPrefixLength_loop ["0"; "0"; "0"; "0"] 0 0 = 0.
Proof. reflexivity. Qed.

Example GetPrefixLength_loop_hole :
  GetPrefixLength_loop ["255"; "0"; "255"; "0"] 0 0 = -1.
Proof. reflexivity. Qed.

Example GetPrefixLength_loop_five_tokens :
  GetPrefixLength_loop ["255"; "255"; "255"; "0"; "0"] 0 0 = -1.
Proof. reflexivity. Qed.

Example GetPrefixLength_loop_leading_zero :
  GetPrefixLength_loop ["255"; "255"; "0128"; "0"] 0 0 = -1.
Proof. reflexivity. Qed.

(** * Properties of the property map *)

Lemma deref_live (p : ValuePtr) (h : Heap) :
  In p (map fst h) <-> exists v, deref p h = Some v.
Proof.
  induction h as [|[q v] rest IH]; cbn.
  - split; [intros []|intros [v H]; discriminate].
  - destruct (Nat.eqb_spec p q) as [->|Hne].
    + split; [intros _; now exists v|intros _; now left].
    + rewrite <- IH. split; [intros [E|H]|intros H].
      * congruence.
      * exact H.
      * now right.
Qed.

Lemma In_heap_delete (p q : ValuePtr) (h : Heap) :
  In p (map fst (heap_delete q h)) <-> In p (map fst h) /\ p <> q.
Proof.
  unfold heap_delete. induction h as [|[a v] rest IH]; cbn.
  - tauto.
  - destruct (Nat.eqb_spec a q) as [->|Hne]; cbn; rewrite IH.
    + split; [tauto|]. intros [[E|H] Hp]; [congruence|tauto].
    + split; [intros [E|[H Hp]]|tauto].
      * subst. tauto.
      * tauto.
Qed.

Lemma deref_heap_delete (p q : ValuePtr) (h : Heap) :
  deref p (heap_delete q h) = if Nat.eqb p q then None else deref p h.
Proof.
  unfold heap_delete. induction h as [|[a v] rest IH]; cbn.
  - now destruct (Nat.eqb p q).
  - destruct (Nat.eqb_spec a q) as [->|Hne]; cbn.
    + rewrite IH. destruct (Nat.eqb_spec p q); reflexivity.
    + rewrite IH. destruct (Nat.eqb_spec p a) as [->|]; [|reflexivity].
      destruct (Nat.eqb_spec a q); [contradiction|reflexivity].
Qed.

Lemma heap_delete_absent (q : ValuePtr) (h : Heap) :
  ~ In q (map fst h) -> heap_delete q h = h.
Proof.
  unfold heap_delete. induction h as [|[a v] rest IH]; cbn; [reflexivity|].
  intros H. destruct (Nat.eqb_spec a q) as [->|_]; cbn; [tauto|].
  rewrite IH; tauto.
Qed.

Lemma heap_ok_delete (q : ValuePtr) (h : Heap) :
  heap_ok h -> heap_ok (heap_delete q h).
Proof.
  unfold heap_ok. intros [Hnd Hnull]. split.
  - unfold heap_delete. induction h as [|[a v] rest IH]; cbn; [constructor|].
    cbn in Hnd, Hnull. inversion Hnd as [|? ? Ha Hrest]; subst.
    destruct (Nat.eqb a q); cbn; [apply IH; tauto|].
    constructor; [|apply IH; tauto].
    intros H. apply Ha. apply (In_heap_delete a q rest). exact H.
  - intros H. apply In_heap_delete in H. tauto.
Qed.

Lemma heap_ok_new (p : ValuePtr) (v : PropertyValue) (h : Heap) :
  heap_ok h -> p <> NULL -> ~ In p (map fst h) -> heap_ok ((p, v) :: h).
Proof.
  unfold heap_ok. intros [Hnd Hnull] Hp Hfresh. cbn. split.
  - constructor; assumption.
  - intros [E|H]; [congruence|contradiction].
Qed.

Lemma map_find_In (index : PropertyIndex) (p : ValuePtr) (m : PropertyMap) :
  map_find index m = Some p -> In (index, p) m.
Proof.
  induction m as [|[k q] rest IH]; cbn; [discriminate|].
  destruct (Z.eqb_spec index k) as [->|_].
  - intros [= ->]. now left.
  - intros H. right. now apply IH.
Qed.

Lemma map_find_owned (index : PropertyIndex) (p : ValuePtr) (m : PropertyMap) :
  map_find index m = Some p -> In p (map snd m).
Proof.
  intros H. apply map_find_In in H. apply (in_map snd) in H. exact H.
Qed.

Lemma map_find_store_same index p m :
  map_find index (map_store index p m) = Some p.
Proof.
  induction m as [|[k q] rest IH]; cbn.
  - now rewrite Z.eqb_refl.
  - destruct (Z.ltb_spec index k); cbn; [now rewrite Z.eqb_refl|].
    destruct (Z.eqb_spec index k) as [->|Hne]; cbn.
    + now rewrite Z.eqb_refl.
    + destruct (Z.eqb_spec index k); [contradiction|exact IH].
Qed.

Lemma map_find_store_other index j p m :
  j <> index -> map_find j (map_store index p m) = map_find j m.
Proof.
  intros Hj. induction m as [|[k q] rest IH]; cbn.
  - destruct (Z.eqb_spec j index); [contradiction|reflexivity].
  - destruct (Z.ltb_spec index k); cbn.
    + destruct (Z.eqb_spec j index); [contradiction|reflexivity].
    + destruct (Z.eqb_spec index k) as [->|Hne]; cbn.
      * destruct (Z.eqb_spec j k); [contradiction|reflexivity].
      * now rewrite IH.
Qed.

Lemma map_find_below index k (keys : list Z) (m : PropertyMap) :
  map fst m = keys -> Forall (Z.lt k) keys -> index <= k ->
  map_find index m = None.
Proof.
  revert keys. induction m as [|[k' q] rest IH]; intros keys E Hall Hle;
    [reflexivity|].
  cbn in E. subst keys. inversion Hall as [|? ? Hk Hrest]; subst. cbn.
  destruct (Z.eqb_spec index k'); [lia|].
  now apply (IH (map fst rest)).
Qed.

Lemma map_find_erase_same index m :
  Sorted.StronglySorted Z.lt (map fst m) ->
  map_find index (map_erase index m) = None.
Proof.
  induction m as [|[k q] rest IH]; cbn; [reflexivity|].
  intros Hs. inversion Hs as [|? ? Hrest Hall]; subst.
  destruct (Z.eqb_spec index k) as [->|Hne].
  - apply (map_find_below k k (map fst rest)); [reflexivity|assumption|lia].
  - cbn. destruct (Z.eqb_spec index k); [contradiction|]. now apply IH.
Qed.

Lemma map_find_erase_other index j m :
  j <> index -> map_find j (map_erase index m) = map_find j m.
Proof.
  intros Hj. induction m as [|[k q] rest IH]; cbn; [reflexivity|].
  destruct (Z.eqb_spec index k) as [->|Hne]; cbn.
  - destruct (Z.eqb_spec j k); [contradiction|reflexivity].
  - now rewrite IH.
Qed.

Lemma map_erase_absent index k (m : PropertyMap) :
  Forall (Z.lt k) (map fst m) -> index <= k -> map_erase index m = m.
Proof.
  induction m as [|[k' q] rest IH]; cbn; [reflexivity|].
  intros Hall Hle. inversion Hall as [|? ? Hk Hrest]; subst.
  destruct (Z.eqb_spec index k'); [lia|]. now rewrite IH.
Qed.

Lemma Forall_keys_store (P : Z -> Prop) index p m :
  P index -> Forall P (map fst m) -> Forall P (map fst (map_store index p m)).
Proof.
  intros Hi. induction m as [|[k q] rest IH]; cbn; intros Hall.
  - constructor; [exact Hi|constructor].
  - inversion Hall as [|? ? Hk Hrest]; subst.
    destruct (index <? k); cbn; [constructor; assumption|].
    destruct (index =? k); cbn; constructor; auto.
Qed.

Lemma Forall_keys_erase (P : Z -> Prop) index m :
  Forall P (map fst m) -> Forall P (map fst (map_erase index m)).
Proof.
  induction m as [|[k q] rest IH]; cbn; intros Hall; [constructor|].
  inversion Hall as [|? ? Hk Hrest]; subst.
  destruct (index =? k); cbn; [assumption|]. constructor; auto.
Qed.

Lemma sorted_map_store index p m :
  Sorted.StronglySorted Z.lt (map fst m) ->
  Sorted.StronglySorted Z.lt (map fst (map_store index p m)).
Proof.
  induction m as [|[k q] rest IH]; cbn; intros Hs.
  - constructor; constructor.
  - inversion Hs as [|? ? Hrest Hall]; subst.
    destruct (Z.ltb_spec index k); cbn.
    + constructor; [exact Hs|]. constructor; [assumption|].
      apply (Forall_impl _ (fun a (Ha : k < a) => Z.lt_trans _ _ _ H Ha)).
      exact Hall.
    + destruct (Z.eqb_spec index k) as [->|Hne]; cbn; [exact Hs|].
      constructor; [now apply IH|].
      apply Forall_keys_store; [lia|exact Hall].
Qed.

Lemma sorted_map_erase index m :
  Sorted.StronglySorted Z.lt (map fst m) ->
  Sorted.StronglySorted Z.lt (map fst (map_erase index m)).
Proof.
  induction m as [|[k q] rest IH]; cbn; intros Hs; [constructor|].
  inversion Hs as [|? ? Hrest Hall]; subst.
  destruct (index =? k); cbn; [assumption|].
  constructor; [now apply IH|]. now apply Forall_keys_erase.
Qed.

Lemma ptrs_erase_incl index q m :
  In q (map snd (map_erase index m)) -> In q (map snd m).
Proof.
  induction m as [|[k x] rest IH]; cbn; [tauto|].
  destruct (index =? k); cbn; tauto.
Qed.

Lemma NoDup_ptrs_erase index m :
  NoDup (map snd m) -> NoDup (map snd (map_erase index m)).
Proof.
  induction m as [|[k x] rest IH]; cbn; intros Hnd; [constructor|].
  inversion Hnd as [|? ? Hx Hrest]; subst.
  destruct (index =? k); cbn; [assumption|].
  constructor; [|now apply IH].
  intros H. apply Hx. now apply (ptrs_erase_incl index).
Qed.

(** The pointers of the other entries: those of the map but the one found
    under [index]. *)
Lemma ptrs_erase index q m :
  NoDup (map snd m) ->
  (In q (map snd (map_erase index m)) <->
   In q (map snd m) /\ map_find index m <> Some q).
Proof.
  induction m as [|[k x] rest IH]; cbn; intros Hnd; [tauto|].
  inversion Hnd as [|? ? Hx Hrest]; subst.
  destruct (Z.eqb_spec index k) as [->|Hne]; cbn.
  - split.
    + intros H. split; [now right|]. intros [= ->]. contradiction.
    + intros [[E|H] Hq]; [congruence|exact H].
  - rewrite (IH Hrest). split.
    + intros [E|[H Hq]]; [|tauto]. subst x. split; [now left|].
      intros Hf. apply Hx. now apply (map_find_owned index).
    + intros [[E|H] Hq]; [now left|right; tauto].
Qed.

Lemma ptrs_store index p q m :
  Sorted.StronglySorted Z.lt (map fst m) ->
  (In q (map snd (map_store index p m)) <->
   q = p \/ In q (map snd (map_erase index m))).
Proof.
  induction m as [|[k x] rest IH]; cbn; intros Hs.
  - split; [intros [E|[]]; now left|intros [E|[]]; now left].
  - inversion Hs as [|? ? Hrest Hall]; subst.
    destruct (Z.ltb_spec index k) as [Hlt|Hge]; cbn.
    + destruct (Z.eqb_spec index k); [lia|]. cbn.
      rewrite (map_erase_absent index k rest Hall) by lia.
      split; [intros [E|H]|intros [E|H]]; try tauto; now left.
    + destruct (Z.eqb_spec index k) as [->|Hne]; cbn.
      * split; [intros [E|H]|intros [E|H]]; try tauto; now left.
      * rewrite (IH Hrest). tauto.
Qed.

Lemma NoDup_ptrs_store index p m :
  Sorted.StronglySorted Z.lt (map fst m) ->
  NoDup (map snd (map_erase index m)) ->
  ~ In p (map snd (map_erase index m)) ->
  NoDup (map snd (map_store index p m)).
Proof.
  induction m as [|[k x] rest IH]; cbn; intros Hs Hnd Hp.
  - constructor; [tauto|constructor].
  - inversion Hs as [|? ? Hrest Hall]; subst.
    destruct (Z.ltb_spec index k) as [Hlt|Hge]; cbn.
    + destruct (Z.eqb_spec index k); [lia|]. cbn in Hnd, Hp.
      rewrite (map_erase_absent index k rest Hall) in Hnd, Hp by lia.
      constructor; assumption.
    + destruct (Z.eqb_spec index k) as [->|Hne]; cbn in *.
      * constructor; assumption.
      * inversion Hnd as [|? ? Hx Hnd']; subst.
        constructor.
        -- rewrite (ptrs_store index p x rest Hrest). intros [E|H]; [|tauto].
           subst x. tauto.
        -- apply IH; [assumption|assumption|tauto].
Qed.

Lemma existsb_eqb_In (a : ValuePtr) (l : list ValuePtr) :
  existsb (Nat.eqb a) l = true <-> In a l.
Proof.
  rewrite existsb_exists. split.
  - intros [x [Hx E]]. apply Nat.eqb_eq in E. now subst.
  - intros H. exists a. split; [exact H|apply Nat.eqb_refl].
Qed.

Lemma filter_ext_in_heap (f g : ValuePtr * PropertyValue -> bool) (h : Heap) :
  (forall c, In c h -> f c = g c) -> filter f h = filter g h.
Proof.
  induction h as [|c rest IH]; cbn; intros H; [reflexivity|].
  rewrite (H c (or_introl eq_refl)), IH; [reflexivity|].
  intros c' Hc'. apply H. now right.
Qed.

(** The objects the map does not own, when the pointers owned change from
    [old] to [new] and the object at [gone] is deleted: they are the same as
    long as [new] keeps every pointer of [old] but [gone], and adds none that
    is in the heap. *)
Lemma foreign_after_delete (old new : PropertyMap) (gone : ValuePtr)
  (h : Heap) :
  (~ In gone (map fst h) \/ In gone (map snd old)) ->
  (forall q, In q (map fst h) -> q <> gone ->
             (In q (map snd new) <-> In q (map snd old))) ->
  foreign new (heap_delete gone h) = foreign old h.
Proof.
  intros Hgone Hsame. unfold foreign, heap_delete.
  induction h as [|[a v] rest IH]; [reflexivity|].
  cbn [filter fst]. cbn [map fst] in Hgone, Hsame.
  assert (IH' : filter (fun c => negb (existsb (Nat.eqb (fst c)) (map snd new)))
                  (filter (fun c => negb (Nat.eqb (fst c) gone)) rest) =
                filter (fun c => negb (existsb (Nat.eqb (fst c)) (map snd old)))
                  rest).
  { destruct (Nat.eqb_spec a gone) as [->|Hne].
    - apply IH.
      + destruct Hgone as [Hg|Hg]; [|now right].
        exfalso. apply Hg. now left.
      + intros q Hq. apply Hsame. now right.
    - apply IH.
      + destruct Hgone as [Hg|Hg]; [|now right].
        left. intros H. apply Hg. now right.
      + intros q Hq. apply Hsame. now right. }
  destruct (Nat.eqb_spec a gone) as [->|Hne]; cbn [negb filter fst].
  - rewrite IH'.
    destruct Hgone as [Hg|Hg]; [exfalso; apply Hg; now left|].
    apply existsb_eqb_In in Hg. now rewrite Hg.
  - rewrite IH'.
    assert (E : existsb (Nat.eqb a) (map snd new) =
                existsb (Nat.eqb a) (map snd old)).
    { apply eq_true_iff_eq. rewrite !existsb_eqb_In.
      apply Hsame; [now left|exact Hne]. }
    now rewrite E.
Qed.

Lemma owned_not_null (m : PropertyMap) (h : Heap) (p : ValuePtr) :
  heap_ok h -> owns m h -> In p (map snd m) -> p <> NULL.
Proof.
  intros [_ Hnull] (_ & _ & Hlive) Hp E. subst p. apply Hnull.
  now apply Hlive.
Qed.

(** The entry [operator[]] hands out: the pointer stored, or [NULL]. *)
Lemma entry_cases (m : PropertyMap) (h : Heap) index :
  heap_ok h -> owns m h ->
  let entry := match map_find index m with Some p => p | None => NULL end in
  (~ In entry (map fst h) \/ In entry (map snd m)) /\
  (forall q, In q (map snd m) -> map_find index m <> Some q -> q <> entry) /\
  (forall q, q <> entry -> map_find index m <> Some q).
Proof.
  intros Hh Ho. cbv zeta. destruct (map_find index m) as [p|] eqn:E.
  - split; [right; now apply (map_find_owned index)|].
    split; intros q; congruence.
  - split; [left; apply Hh|].
    split; [|intros q _; discriminate].
    intros q Hq _ Eq. subst q. now apply (owned_not_null m h NULL).
Qed.

(** X14: a value stored with [UpdatePropertyMap] is read back with
    [GetProperty]: the map holds a copy of its own, at another address than
    the caller's object, which stays alive.  The entries under the other
    keys, and the objects they point to, are left alone.  The caller's
    object must be alive and must not be one the map owns. *)
Theorem UpdatePropertyMap_GetProperty (malloc : Heap -> ValuePtr)
  (index : PropertyIndex) (value : ValuePtr) (v : PropertyValue)
  (m : PropertyMap) (h : Heap) :
  allocator malloc -> heap_ok h -> owns m h ->
  deref value h = Some v -> ~ In value (map snd m) ->
  exists m' h' copy,
    Network_UpdatePropertyMap malloc index value m h = Some (m', h') /\
    Network_GetProperty index m' = Some copy /\
    deref copy h' = Some v /\ copy <> value /\ deref value h' = Some v /\
    forall j, j <> index ->
      Network_GetProperty j m' = Network_GetProperty j m /\
      forall q, Network_GetProperty j m = Some q -> deref q h' = deref q h.
Proof.
  intros Halloc Hh Ho Hv Hforeign.
  assert (Hlive : In value (map fst h)) by (apply deref_live; now exists v).
  assert (Hnn : value <> NULL) by (intros ->; now apply Hh).
  destruct (entry_cases m h index Hh Ho) as (Hentry & Hother & _).
  unfold Network_UpdatePropertyMap, Network_GetProperty.
  destruct (Nat.eqb_spec value NULL) as [|_]; [contradiction|].
  assert (Hve : value <>
                match map_find index m with Some p => p | None => NULL end).
  { intros E. destruct Hentry as [H|H].
    - apply H. rewrite <- E. assumption.
    - apply Hforeign. rewrite E. assumption. }
  set (entry := match map_find index m with Some p => p | None => NULL end)
    in *.
  assert (Hv1 : deref value (heap_delete entry h) = Some v).
  { rewrite deref_heap_delete.
    destruct (Nat.eqb_spec value entry); [contradiction|exact Hv]. }
  rewrite Hv1.
  destruct (Halloc (heap_delete entry h)) as [Hcn Hcf].
  set (copy := malloc (heap_delete entry h)) in *.
  assert (Hcv : copy <> value).
  { intros E. apply Hcf. rewrite E. apply In_heap_delete. now split. }
  exists (map_store index copy m), ((copy, v) :: heap_delete entry h), copy.
  split; [reflexivity|]. split; [apply map_find_store_same|].
  split; [cbn; now rewrite Nat.eqb_refl|]. split; [exact Hcv|].
  split.
  { cbn. destruct (Nat.eqb_spec value copy); [congruence|exact Hv1]. }
  intros j Hj. split; [now apply map_find_store_other|].
  intros q Hq.
  assert (Hqo : In q (map snd m)) by now apply (map_find_owned j).
  assert (Hqe : q <> entry).
  { apply Hother; [exact Hqo|]. intros Hi.
    destruct Ho as (Hs & Hnd & _).
    assert (E : map_find j (map_erase index m) = Some q).
    { now rewrite map_find_erase_other. }
    apply map_find_owned in E.
    apply (ptrs_erase index q m Hnd) in E. tauto. }
  assert (Hqc : q <> copy).
  { intros E. apply Hcf. rewrite <- E. apply In_heap_delete.
    split; [now apply Ho|exact Hqe]. }
  cbn. destruct (Nat.eqb_spec q copy); [contradiction|].
  rewrite deref_heap_delete.
  destruct (Nat.eqb_spec q entry); [contradiction|reflexivity].
Qed.

(** X15: [UpdatePropertyMap] keeps the map the owner of its values: the
    keys stay in order, every pointer stored points to a live object, no two
    entries share an object, the object replaced or cleared is deleted, and
    the objects the map does not own are neither deleted nor added to: no
    leak, no dangling pointer.  [value] is [NULL], or points to a live object
    that the map does not own. *)
Theorem UpdatePropertyMap_owns (malloc : Heap -> ValuePtr)
  (index : PropertyIndex) (value : ValuePtr) (m : PropertyMap) (h : Heap) :
  allocator malloc -> heap_ok h -> owns m h ->
  value = NULL \/ (In value (map fst h) /\ ~ In value (map snd m)) ->
  exists m' h',
    Network_UpdatePropertyMap malloc index value m h = Some (m', h') /\
    heap_ok h' /\ owns m' h' /\ foreign m' h' = foreign m h.
Proof.
  intros Halloc Hh Ho Hvalue.
  destruct (entry_cases m h index Hh Ho) as (Hentry & Hother & Hfind).
  pose proof Ho as (Hs & Hnd & Hlive).
  unfold Network_UpdatePropertyMap.
  destruct (Nat.eqb_spec value NULL) as [Hnull|Hnn].
  - destruct (map_find index m) as [p|] eqn:E.
    + exists (map_erase index m), (heap_delete p h).
      split; [reflexivity|]. split; [now apply heap_ok_delete|].
      split; [split; [|split]|].
      * now apply sorted_map_erase.
      * now apply NoDup_ptrs_erase.
      * intros q Hq. apply (ptrs_erase index q m Hnd) in Hq.
        destruct Hq as [Hq Hne]. apply In_heap_delete.
        split; [now apply Hlive|]. congruence.
      * apply foreign_after_delete; [exact Hentry|].
        intros q _ Hq. rewrite (ptrs_erase index q m Hnd).
        split; [tauto|]. intros H. split; [exact H|]. congruence.
    + exists m, h. split; [reflexivity|]. split; [exact Hh|].
      split; [exact Ho|reflexivity].
  - destruct Hvalue as [|[Hvl Hvf]]; [contradiction|].
    assert (Hve : value <>
                  match map_find index m with Some p => p | None => NULL end).
    { intros E. destruct Hentry as [H|H].
      - apply H. rewrite <- E. assumption.
      - apply Hvf. rewrite E. assumption. }
    set (entry := match map_find index m with Some p => p | None => NULL end)
      in *.
    apply deref_live in Hvl. destruct Hvl as [v Hv].
    assert (Hv1 : deref value (heap_delete entry h) = Some v).
    { rewrite deref_heap_delete.
      destruct (Nat.eqb_spec value entry); [contradiction|exact Hv]. }
    rewrite Hv1.
    destruct (Halloc (heap_delete entry h)) as [Hcn Hcf].
    set (copy := malloc (heap_delete entry h)) in *.
    assert (Hrest : forall q, In q (map snd (map_erase index m)) ->
                              In q (map fst (heap_delete entry h))).
    { intros q Hq. apply (ptrs_erase index q m Hnd) in Hq.
      destruct Hq as [Hq Hne]. apply In_heap_delete.
      split; [now apply Hlive|now apply Hother]. }
    exists (map_store index copy m), ((copy, v) :: heap_delete entry h).
    split; [reflexivity|].
    split; [apply heap_ok_new; [now apply heap_ok_delete|exact Hcn|exact Hcf]|].
    split; [split; [|split]|].
    + now apply sorted_map_store.
    + apply NoDup_ptrs_store; [exact Hs|now apply NoDup_ptrs_erase|].
      intros H. apply Hcf. now apply Hrest.
    + intros q Hq. apply (ptrs_store index copy q m Hs) in Hq.
      destruct Hq as [->|Hq]; [now left|]. right. now apply Hrest.
    + unfold foreign at 1. cbn [filter fst].
      assert (Hc : existsb (Nat.eqb copy) (map snd (map_store index copy m))
                   = true).
      { apply existsb_eqb_In. apply (ptrs_store index copy copy m Hs).
        now left. }
      rewrite Hc. cbn [negb].
      apply (foreign_after_delete m (map_store index copy m) entry h);
        [exact Hentry|].
      intros q Hq Hqe. rewrite (ptrs_store index copy q m Hs).
      rewrite (ptrs_erase index q m Hnd). split.
      * intros [->|[H _]]; [|exact H]. exfalso. apply Hcf.
        apply In_heap_delete. now split.
      * intros H. right. split; [exact H|now apply Hfind].
Qed.

(** X16: [UpdatePropertyMap] with [NULL] clears the property: it is gone
    from the map and the object it pointed to is deleted; for a key that is
    not in the map nothing happens.  The other entries and their objects are
    left alone. *)
Theorem UpdatePropertyMap_clear (malloc : Heap -> ValuePtr)
  (index : PropertyIndex) (m : PropertyMap) (h : Heap) :
  heap_ok h -> owns m h ->
  exists m' h',
    Network_UpdatePropertyMap malloc index NULL m h = Some (m', h') /\
    Network_GetProperty index m' = None /\
    (forall p, Network_GetProperty index m = Some p -> deref p h' = None) /\
    (Network_GetProperty index m = None -> m' = m /\ h' = h) /\
    forall j, j <> index ->
      Network_GetProperty j m' = Network_GetProperty j m /\
      forall q, Network_GetProperty j m = Some q -> deref q h' = deref q h.
Proof.
  intros Hh Ho. pose proof Ho as (Hs & Hnd & Hlive).
  unfold Network_UpdatePropertyMap, Network_GetProperty. cbn [Nat.eqb NULL].
  destruct (map_find index m) as [p|] eqn:E.
  - exists (map_erase index m), (heap_delete p h).
    split; [reflexivity|]. split; [now apply map_find_erase_same|].
    split.
    { intros p' [= <-]. rewrite deref_heap_delete. now rewrite Nat.eqb_refl. }
    split; [discriminate|].
    intros j Hj. split; [now apply map_find_erase_other|].
    intros q Hq. rewrite deref_heap_delete.
    destruct (Nat.eqb_spec q p) as [->|]; [|reflexivity].
    exfalso.
    assert (E' : map_find j (map_erase index m) = Some p)
      by now rewrite map_find_erase_other.
    apply map_find_owned in E'. apply (ptrs_erase index p m Hnd) in E'.
    tauto.
  - exists m, h. split; [reflexivity|]. split; [exact E|].
    split; [discriminate|]. split; [tauto|]. intros j _. tauto.
Qed.

(** X17: the pointer [GetProperty] hands out must not be passed back to
    [UpdatePropertyMap] for the same key: the entry is deleted before the
    copy is made, so the copy would be made from a deleted object. *)
Theorem UpdatePropertyMap_own_value_is_deleted_first
  (malloc : Heap -> ValuePtr) (index : PropertyIndex) (p : ValuePtr)
  (m : PropertyMap) (h : Heap) :
  heap_ok h -> owns m h -> Network_GetProperty index m = Some p ->
  Network_UpdatePropertyMap malloc index p m h = None.
Proof.
  intros Hh Ho Hp. unfold Network_GetProperty in Hp.
  assert (Hnn : p <> NULL).
  { apply (owned_not_null m h); [assumption|assumption|].
    now apply (map_find_owned index). }
  unfold Network_UpdatePropertyMap.
  destruct (Nat.eqb_spec p NULL); [contradiction|].
  rewrite Hp, deref_heap_delete, Nat.eqb_refl. reflexivity.
Qed.

(** X18: the destructor deletes every object the map owns and no other:
    what is left of the heap are the objects the map did not own. *)
Theorem destructor_frees_owned_values (m : PropertyMap) (h : Heap) :
  heap_ok h -> owns m h ->
  Network_destructor m h = foreign m h /\
  (forall p, In p (map snd m) -> deref p (Network_destructor m h) = None).
Proof.
  intros Hh Ho.
  assert (E : Network_destructor m h = foreign m h).
  { revert h Hh Ho. induction m as [|[k p] rest IH]; intros h Hh Ho.
    - cbn. unfold foreign. cbn. induction h as [|c h' IHh]; [reflexivity|].
      cbn. f_equal. apply IHh.
      + destruct Hh as [Hnd Hnull]. cbn in Hnd, Hnull.
        inversion Hnd; subst. split; [assumption|tauto].
      + repeat split; try constructor. intros q [].
    - destruct Ho as (Hs & Hnd & Hlive). cbn in Hs, Hnd, Hlive.
      inversion Hs as [|? ? Hs' Hall]; subst.
      inversion Hnd as [|? ? Hp Hnd']; subst.
      cbn [Network_destructor]. rewrite IH.
      + apply foreign_after_delete; [right; now left|].
        intros q _ Hq. cbn. split; [tauto|]. intros [E|H]; [congruence|exact H].
      + now apply heap_ok_delete.
      + split; [exact Hs'|]. split; [exact Hnd'|].
        intros q Hq. apply In_heap_delete. split; [apply Hlive; now right|].
        intros ->. contradiction. }
  split; [exact E|]. intros p Hp. rewrite E.
  destruct (deref p (foreign m h)) as [v|] eqn:Hd; [|reflexivity].
  exfalso. assert (Hin : In p (map fst (foreign m h)))
    by (apply deref_live; now exists v).
  apply in_map_iff in Hin. destruct Hin as [[a v'] [Ea Hin]]. cbn in Ea.
  subst a. unfold foreign in Hin. apply filter_In in Hin.
  destruct Hin as [_ Hf]. cbn in Hf.
  apply existsb_eqb_In in Hp. rewrite Hp in Hf. discriminate.
Qed.

(** * Properties of the netmask prefix length *)

Lemma mask_byte_bits_value (token : string) (bits : Z) :
  mask_byte_bits token = Some bits ->
  decimal_value token = Some (256 - 2 ^ (8 - bits)).
Proof.
  unfold mask_byte_bits.
  repeat (destruct (token =? _)%string eqn:E;
          [apply String.eqb_eq in E; subst token; intros H;
           injection H as H; subst bits; reflexivity|clear E]).
  discriminate.
Qed.

Lemma all_zero_bytes_value (tokens : list string) :
  all_zero_bytes tokens = true -> netmask_value tokens = Some 0.
Proof.
  induction tokens as [|token rest IH]; [reflexivity|].
  cbn [all_zero_bytes forallb]. intros H. apply andb_prop in H as [Ht Hr].
  apply String.eqb_eq in Ht. subst token. cbn [netmask_value].
  unfold all_zero_bytes in IH. rewrite (IH Hr). reflexivity.
Qed.

(** The value of a contiguous mask of n bytes with [bits] leading one bits
    is 2^(8n) - 2^(8n - bits). *)
Lemma contiguous_mask_value (tokens : list string) : forall bits,
  contiguous_mask_bits tokens = Some bits ->
  netmask_value tokens =
  Some (2 ^ (8 * Z.of_nat (List.length tokens))
        - 2 ^ (8 * Z.of_nat (List.length tokens) - bits)).
Proof.
  induction tokens as [|token rest IH]; intros bits H.
  - cbn [contiguous_mask_bits] in H.
    assert (bits = 0) by congruence. subst bits. reflexivity.
  - cbn [contiguous_mask_bits] in H.
    destruct (mask_byte_bits token) as [b|] eqn:Hb; [|discriminate].
    pose proof (mask_byte_bits_range _ _ Hb) as Hr.
    cbn [netmask_value List.length].
    rewrite (mask_byte_bits_value _ _ Hb).
    set (n := Z.of_nat (List.length rest)).
    assert (Hn : 0 <= n) by (unfold n; lia).
    replace (8 * Z.of_nat (S (List.length rest))) with (8 + 8 * n)
      by (unfold n; lia).
    destruct (Z.eqb_spec b 8) as [->|Hb8].
    + destruct (contiguous_mask_bits rest) as [more|] eqn:Hm; [|discriminate].
      assert (bits = 8 + more) by congruence. subst bits.
      pose proof (contiguous_mask_bits_range _ _ Hm) as Hmore.
      fold n in Hmore. rewrite (IH more eq_refl). fold n. f_equal.
      replace (8 + 8 * n - (8 + more)) with (8 * n - more) by lia.
      rewrite Z.pow_add_r by lia.
      change (2 ^ (8 - 8)) with 1. change (2 ^ 8) with 256. ring.
    + destruct (all_zero_bytes rest) eqn:Hz; [|discriminate].
      assert (bits = b) by congruence. subst bits.
      rewrite (all_zero_bytes_value _ Hz). f_equal.
      replace (8 + 8 * n - b) with ((8 - b) + 8 * n) by lia.
      rewrite !Z.pow_add_r by lia. change (2 ^ 8) with 256. ring.
Qed.

(** X19: a prefix length that [GetPrefixLength] returns is the number of
    leading one bits of the netmask: the four tokens are decimal bytes, and
    the 32-bit number they form is 2^32 - 2^(32 - prefix). *)
Theorem GetPrefixLength_counts_leading_ones
  (StringTokenizer : string -> string -> list string)
  (c : NetworkIPConfig) :
  GetPrefixLength StringTokenizer c <> -1 ->
  let prefix := GetPrefixLength StringTokenizer c in
  0 <= prefix <= 32 /\
  List.length (StringTokenizer (netmask c) ".") = 4%nat /\
  netmask_value (StringTokenizer (netmask c) ".") =
  Some (2 ^ 32 - 2 ^ (32 - prefix)).
Proof.
  cbv zeta. unfold GetPrefixLength.
  set (tokens := StringTokenizer (netmask c) ".").
  rewrite (GetPrefixLength_loop_open tokens 0 0) by lia.
  destruct (contiguous_mask_bits tokens) as [bits|] eqn:Hb;
    [|intros H; now elim H].
  pose proof (contiguous_mask_bits_range _ _ Hb) as Hr.
  pose proof (contiguous_mask_value _ _ Hb) as Hv.
  destruct (Z.eqb_spec (0 + Z.of_nat (List.length tokens)) 4) as [E|E];
    [|intros H; now elim H].
  intros _. assert (El : List.length tokens = 4%nat) by lia.
  rewrite El in Hr, Hv. cbn in Hr. cbn [Z.add].
  split; [lia|]. split; [exact El|]. exact Hv.
Qed.

(** X20: every prefix length from 0 to 32 has its netmask: the function
    maps the tokens of the netmask with that many leading one bits back to
    the prefix length. *)
Theorem GetPrefixLength_of_prefix_tokens
  (StringTokenizer : string -> string -> list string)
  (c : NetworkIPConfig) (prefix : Z) :
  0 <= prefix <= 32 ->
  StringTokenizer (netmask c) "." = prefix_tokens prefix ->
  GetPrefixLength StringTokenizer c = prefix /\
  netmask_value (prefix_tokens prefix) = Some (2 ^ 32 - 2 ^ (32 - prefix)).
Proof.
  intros Hp Ht. unfold GetPrefixLength. rewrite Ht. clear Ht c.
  assert (Hall :
    forallb (fun p =>
               (GetPrefixLength_loop (prefix_tokens p) 0 0 =? p) &&
               match netmask_value (prefix_tokens p) with
               | Some v => v =? 2 ^ 32 - 2 ^ (32 - p)
               | None => false
               end)
      (map Z.of_nat (seq 0 33)) = true) by (vm_compute; reflexivity).
  rewrite forallb_forall in Hall.
  assert (Hin : In prefix (map Z.of_nat (seq 0 33))).
  { apply in_map_iff. exists (Z.to_nat prefix).
    split; [lia|]. apply in_seq. lia. }
  specialize (Hall _ Hin). apply andb_prop in Hall as [H1 H2].
  apply Z.eqb_eq in H1. split; [exact H1|].
  destruct (netmask_value (prefix_tokens prefix)) as [v|]; [|discriminate].
  apply Z.eqb_eq in H2. now subst v.
Qed.

(** * Properties of the cellular data plan *)

(** X23: for a metered plan, paid or base, [GetUsageInfo] says "none
    available" exactly when no data remains, "less than one MB" when less
    than 2^20 bytes remain, and otherwise gives the whole megabytes that
    remain: that number is at least 1.  A metered plan used up or overdrawn
    has none available.  A plan whose type is neither unlimited nor metered
    gets the empty text, whatever its data. *)
Theorem GetUsageInfo_metered (now : Z) (p : CellularDataPlan) :
  (plan_type p = CELLULAR_DATA_PLAN_METERED_PAID \/
   plan_type p = CELLULAR_DATA_PLAN_METERED_BASE ->
   ((GetUsageInfo now p =
     GetStringUTF16 IDS_NETWORK_DATA_NONE_AVAILABLE_MESSAGE
     /\ remaining_data p = 0) \/
    (GetUsageInfo now p =
     GetStringUTF16 IDS_NETWORK_DATA_LESS_THAN_ONE_MB_AVAILABLE_MESSAGE
     /\ 0 < remaining_data p < 1048576) \/
    (exists mb,
       GetUsageInfo now p =
       GetStringFUTF16 IDS_NETWORK_DATA_MB_AVAILABLE_MESSAGE
         (Int64ToString_text mb) /\
       1 <= mb /\
       mb * 1048576 <= remaining_data p < (mb + 1) * 1048576)) /\
   (is_int64 (plan_data_bytes p - data_bytes_used p) ->
    plan_data_bytes p <= data_bytes_used p ->
    GetUsageInfo now p =
    GetStringUTF16 IDS_NETWORK_DATA_NONE_AVAILABLE_MESSAGE)) /\
  (GetUsageInfo now p = NoText <->
   plan_type p <> CELLULAR_DATA_PLAN_UNLIMITED /\
   plan_type p <> CELLULAR_DATA_PLAN_METERED_PAID /\
   plan_type p <> CELLULAR_DATA_PLAN_METERED_BASE).
Proof.
  assert (Hpos : 0 <= remaining_data p).
  { unfold remaining_data. cbv zeta.
    destruct (Z.ltb_spec (int64_sub (plan_data_bytes p) (data_bytes_used p))
                0); lia. }
  assert (Hcases :
      plan_type p = CELLULAR_DATA_PLAN_METERED_PAID \/
      plan_type p = CELLULAR_DATA_PLAN_METERED_BASE ->
      GetUsageInfo now p =
      if remaining_data p =? 0 then
        GetStringUTF16 IDS_NETWORK_DATA_NONE_AVAILABLE_MESSAGE
      else if remaining_data p <? 1048576 then
        GetStringUTF16 IDS_NETWORK_DATA_LESS_THAN_ONE_MB_AVAILABLE_MESSAGE
      else
        GetStringFUTF16 IDS_NETWORK_DATA_MB_AVAILABLE_MESSAGE
          (Int64ToString_text (Z.quot (remaining_data p) 1048576))).
  { intros [E|E]; unfold GetUsageInfo; rewrite E; reflexivity. }
  split.
  - intros Hmetered. specialize (Hcases Hmetered). split.
    + rewrite Hcases.
      destruct (Z.eqb_spec (remaining_data p) 0) as [E|E];
        [left; split; [reflexivity|exact E]|].
      destruct (Z.ltb_spec (remaining_data p) 1048576) as [Hlt|Hge];
        [right; left; split; [reflexivity|lia]|].
      right; right. exists (Z.quot (remaining_data p) 1048576).
      split; [reflexivity|].
      rewrite Z.quot_div_nonneg by lia.
      pose proof (Z.div_mod (remaining_data p) 1048576 ltac:(lia)).
      pose proof (Z.mod_pos_bound (remaining_data p) 1048576 ltac:(lia)).
      split; [apply Z.div_le_lower_bound; lia|lia].
    + intros Hrange Hused.
      assert (E : remaining_data p = 0).
      { unfold remaining_data, int64_sub. cbv zeta.
        rewrite (wrap64_in_range _ Hrange).
        destruct (Z.ltb_spec (plan_data_bytes p - data_bytes_used p) 0);
          lia. }
      rewrite Hcases, E. reflexivity.
  - split.
    + intros Hno.
      assert (Hmetered :
        plan_type p = CELLULAR_DATA_PLAN_METERED_PAID \/
        plan_type p = CELLULAR_DATA_PLAN_METERED_BASE -> False).
      { intros H. rewrite (Hcases H) in Hno.
        destruct (remaining_data p =? 0); try discriminate Hno.
        destruct (remaining_data p <? 1048576); discriminate Hno. }
      repeat split; intros E; try (apply Hmetered; auto; fail).
      unfold GetUsageInfo, GetPlanExpiration in Hno. rewrite E in Hno.
      discriminate Hno.
    + intros (H1 & H2 & H3). unfold GetUsageInfo.
      destruct (plan_type p); try reflexivity;
        exfalso; [apply H1|apply H2|apply H3]; reflexivity.
Qed.

Lemma no_bar_app (a b : string) : no_bar (a ++ b) = no_bar a && no_bar b.
Proof.
  induction a as [|c r IH]; cbn; [reflexivity|].
  rewrite IH. now rewrite andb_assoc.
Qed.

(** Two strings that agree after their last separator agree before it. *)
Lemma split_at_last_bar (a b x y : string) :
  no_bar x = true -> no_bar y = true ->
  a ++ "|" ++ x = b ++ "|" ++ y -> a = b /\ x = y.
Proof.
  intros Hx Hy. revert b.
  induction a as [|c a IH]; intros [|d b] E; cbn in E.
  - injection E as E. now split.
  - injection E as <- E. exfalso. rewrite E, no_bar_app in Hx.
    cbn in Hx. now rewrite andb_false_r in Hx.
  - injection E as -> E. exfalso. rewrite <- E, no_bar_app in Hy.
    cbn in Hy. now rewrite andb_false_r in Hy.
  - injection E as -> E. destruct (IH b E) as [-> ->]. now split.
Qed.

(** X24: the unique identifier of a data plan tells the plans apart by
    name, type, start time, end time and data allowance, and by nothing
    else: neither the data used nor the update time is part of it.  The
    number format is one-to-one and free of the separator, and the plan
    types have different numbers. *)
Theorem GetUniqueIdentifier_identifies
  (Int64ToString : Z -> string)
  (CellularDataPlanType_value : CellularDataPlanType -> Z)
  (p q : CellularDataPlan) :
  (forall a b, Int64ToString a = Int64ToString b -> a = b) ->
  (forall a, no_bar (Int64ToString a) = true) ->
  (forall a b,
     CellularDataPlanType_value a = CellularDataPlanType_value b -> a = b) ->
  (GetUniqueIdentifier Int64ToString CellularDataPlanType_value p =
   GetUniqueIdentifier Int64ToString CellularDataPlanType_value q <->
   plan_name p = plan_name q /\ plan_type p = plan_type q /\
   plan_start_time p = plan_start_time q /\
   plan_end_time p = plan_end_time q /\
   plan_data_bytes p = plan_data_bytes q).
Proof.
  intros Hinj Hbar Htype. unfold GetUniqueIdentifier. split.
  - intros E.
    rewrite !(string_app_assoc _ "|") in E.
    apply split_at_last_bar in E; [|apply Hbar|apply Hbar].
    destruct E as [E Ebytes].
    apply split_at_last_bar in E; [|apply Hbar|apply Hbar].
    destruct E as [E Eend].
    apply split_at_last_bar in E; [|apply Hbar|apply Hbar].
    destruct E as [E Estart].
    apply split_at_last_bar in E; [|apply Hbar|apply Hbar].
    destruct E as [Ename Etype].
    repeat split; auto.
  - intros (-> & -> & -> & -> & ->). reflexivity.
Qed.

(** * The reference allocator and number format *)

Lemma list_max_bound (l : list nat) (x : nat) :
  In x l -> (x <= list_max l)%nat.
Proof.
  intros H.
  pose proof (proj1 (list_max_le l (list_max l)) (Nat.le_refl _)) as Hall.
  rewrite Forall_forall in Hall. now apply Hall.
Qed.

Lemma next_address_allocator : allocator next_address.
Proof.
  intros h. unfold next_address, NULL. split; [discriminate|].
  intros H. apply list_max_bound in H. lia.
Qed.

Lemma string_of_uint_no_bar (u : Decimal.uint) :
  no_bar (DecimalString.NilZero.string_of_uint u) = true.
Proof.
  destruct u as [|u|u|u|u|u|u|u|u|u|u]; cbn; try reflexivity;
    induction u; cbn; try reflexivity; assumption.
Qed.

Lemma Int64ToString_model_no_bar (value : Z) :
  no_bar (Int64ToString_model value) = true.
Proof.
  unfold Int64ToString_model, DecimalString.NilZero.string_of_int.
  destruct (Z.to_int value) as [u|u].
  - apply string_of_uint_no_bar.
  - unfold DecimalString.NilEmpty.string_of_int.
    destruct u; cbn; try reflexivity;
      match goal with
      | |- no_bar (DecimalString.NilEmpty.string_of_uint ?u) = true =>
          induction u; cbn; try reflexivity; assumption
      end.
Qed.

Lemma Int64ToString_model_injective (a b : Z) :
  Int64ToString_model a = Int64ToString_model b -> a = b.
Proof.
  unfold Int64ToString_model. intros E.
  assert (H : forall d,
             option_map Z.of_int
               (DecimalString.NilZero.int_of_string
                  (DecimalString.NilZero.string_of_int d))
             = Some (Z.of_int d)).
  { intros d.
    destruct d as [[| | | | | | | | | |]|[| | | | | | | | | |]];
      try (rewrite DecimalString.NilZero.isi; [reflexivity|discriminate..]).
    - now rewrite DecimalString.NilZero.isi_posnil.
    - now rewrite DecimalString.NilZero.isi_negnil. }
  pose proof (H (Z.to_int a)) as Ha. pose proof (H (Z.to_int b)) as Hb.
  rewrite E in Ha. rewrite Ha in Hb. injection Hb as Hb.
  now rewrite !DecimalZ.of_to in Hb.
Qed.

(** * Properties of the credential wipe in memory

    In this section the names are those of [InMemory]. *)

Section InMemoryProperties.
Import InMemory.

Lemma bytes_length_le (b : Buffer) :
  Nat.ltb (String.length (bytes b)) (String.length (contents b)) = false.
Proof.
  apply Nat.ltb_ge. unfold bytes. rewrite string_length_app. lia.
Qed.

Lemma drop_contents (b : Buffer) :
  drop (String.length (contents b)) (bytes b) = slack b.
Proof. apply drop_app. Qed.

Lemma WipeString_effect (str : StringPtr) (m : Memory) :
  (empty_rep < brk m)%nat ->
  let p := buffer_of m str in
  let b := buffer_at m p in
  let zeros := fill (String.length (contents b)) NUL in
  let m' := WipeString str m in
  if is_shared p m then
    brk m' = S (brk m) /\
    (forall s, buffer_of m' s =
               if Nat.eqb s str then brk m else buffer_of m s) /\
    (forall q, buffer_at m' q =
               if Nat.eqb q (brk m) then mk_Buffer "" (zeros ++ "") 1
               else if Nat.eqb q p then set_users (pred (users b)) b
               else buffer_at m q)
  else
    brk m' = brk m /\
    (forall s, buffer_of m' s = buffer_of m s) /\
    (forall q, buffer_at m' q =
               if Nat.eqb q p && negb (Nat.eqb p empty_rep)
               then mk_Buffer "" (zeros ++ slack b) (users b)
               else buffer_at m q).
Proof.
  intros Hbrk. cbv zeta.
  unfold WipeString, assign_fill, size, value.
  destruct (is_shared (buffer_of m str) m) eqn:Hs; cbn [orb].
  - assert (Hp : Nat.eqb (buffer_of m str) empty_rep = false).
    { unfold is_shared in Hs. apply andb_prop in Hs as [H _].
      now apply negb_true_iff in H. }
    unfold move_to_new, release, allocate. rewrite Hp.
    unfold clear, point, store, is_shared. cbn.
    rewrite !Nat.eqb_refl. cbn.
    assert (Hb : Nat.eqb (brk m) empty_rep = false).
    { apply Nat.eqb_neq. lia. }
    rewrite Hb. cbn.
    repeat split. intros q.
    destruct (Nat.eqb q (brk m)); reflexivity.
  - rewrite bytes_length_le.
    destruct (Nat.eqb (buffer_of m str) empty_rep) eqn:Hp.
    + unfold clear. rewrite Hs, Hp. repeat split.
      intros q. rewrite andb_false_r. reflexivity.
    + assert (Hs' : is_shared (buffer_of m str)
                      (store (buffer_of m str)
                         (mk_Buffer
                            (fill (String.length
                                     (contents (buffer_at m (buffer_of m str))))
                               NUL)
                            (drop (String.length
                                     (contents (buffer_at m (buffer_of m str))))
                               (bytes (buffer_at m (buffer_of m str))))
                            (users (buffer_at m (buffer_of m str)))) m)
                    = false).
      { unfold is_shared, store in *. cbn [buffer_at users].
        now rewrite Nat.eqb_refl. }
      unfold clear. cbn [buffer_of store]. rewrite Hs', Hp.
      unfold store. cbn [buffer_of buffer_at brk].
      rewrite Nat.eqb_refl. repeat split. intros q. rewrite andb_true_r.
      destruct (Nat.eqb q (buffer_of m str)); [|reflexivity].
      unfold bytes at 1. cbn [contents slack users].
      now rewrite drop_contents.
Qed.

Lemma set_users_same (b : Buffer) : set_users (users b) b = b.
Proof. now destruct b. Qed.

Lemma uses_cons (p : BufferPtr) (str : StringPtr) (strs : list StringPtr)
  (m : Memory) :
  uses p (str :: strs) m =
  ((if Nat.eqb (buffer_of m str) p then 1 else 0) + uses p strs m)%nat.
Proof.
  unfold uses. cbn [filter].
  destruct (Nat.eqb (buffer_of m str) p); reflexivity.
Qed.

Lemma uses_ext (p : BufferPtr) (strs : list StringPtr) (m m' : Memory) :
  (forall s, In s strs -> buffer_of m' s = buffer_of m s) ->
  uses p strs m' = uses p strs m.
Proof.
  intros H. unfold uses. f_equal. apply filter_ext_in.
  intros s Hs. now rewrite H.
Qed.

Lemma uses_none (p : BufferPtr) (strs : list StringPtr) (m : Memory) :
  (forall s, In s strs -> buffer_of m s <> p) -> uses p strs m = 0%nat.
Proof.
  intros H. induction strs as [|s rest IH]; [reflexivity|].
  rewrite uses_cons, IH by (intros t Ht; apply H; now right).
  destruct (Nat.eqb_spec (buffer_of m s) p) as [E|E]; [|reflexivity].
  exfalso. apply (H s); [now left|exact E].
Qed.

Lemma uses_zero (p : BufferPtr) (strs : list StringPtr) (m : Memory)
  (s : StringPtr) :
  uses p strs m = 0%nat -> In s strs -> buffer_of m s <> p.
Proof.
  induction strs as [|t rest IH]; [intros _ []|].
  rewrite uses_cons. intros H [->|Hin].
  - destruct (Nat.eqb_spec (buffer_of m s) p); [discriminate|assumption].
  - apply IH; [lia|exact Hin].
Qed.

(** What one [WipeString] changes. *)
Lemma WipeString_brk (str : StringPtr) (m : Memory) :
  (empty_rep < brk m)%nat -> (brk m <= brk (WipeString str m))%nat.
Proof.
  intros H. pose proof (WipeString_effect str m H) as E. cbv zeta in E.
  destruct (is_shared _ _); destruct E as (-> & _); lia.
Qed.

Lemma WipeString_other_string (str s : StringPtr) (m : Memory) :
  (empty_rep < brk m)%nat -> s <> str ->
  buffer_of (WipeString str m) s = buffer_of m s.
Proof.
  intros H Hne. pose proof (WipeString_effect str m H) as E. cbv zeta in E.
  destruct (is_shared _ _); destruct E as (_ & -> & _); [|reflexivity].
  now rewrite (proj2 (Nat.eqb_neq s str) Hne).
Qed.

Lemma WipeString_other_buffer (str : StringPtr) (q : BufferPtr)
  (m : Memory) :
  (empty_rep < brk m)%nat -> (q < brk m)%nat ->
  q <> buffer_of m str \/ q = empty_rep ->
  buffer_at (WipeString str m) q = buffer_at m q.
Proof.
  intros H Hq Hne. pose proof (WipeString_effect str m H) as E.
  cbv zeta in E.
  destruct (is_shared _ _) eqn:Hs; destruct E as (_ & _ & ->).
  - rewrite (proj2 (Nat.eqb_neq q (brk m))) by lia.
    destruct (Nat.eqb_spec q (buffer_of m str)) as [->|]; [|reflexivity].
    destruct Hne as [Hne|Hne]; [now elim Hne|].
    unfold is_shared in Hs. rewrite Hne in Hs. discriminate Hs.
  - destruct (Nat.eqb_spec q (buffer_of m str)) as [->|]; [|reflexivity].
    destruct Hne as [Hne|Hne]; [now elim Hne|].
    rewrite Hne. reflexivity.
Qed.

Lemma is_shared_users (p : BufferPtr) (m : Memory) :
  p <> empty_rep ->
  is_shared p m = Nat.ltb 1 (users (buffer_at m p)).
Proof.
  intros H. unfold is_shared.
  now rewrite (proj2 (Nat.eqb_neq p empty_rep) H).
Qed.

Lemma WipeString_value (str : StringPtr) (m : Memory) :
  (empty_rep < brk m)%nat -> contents (buffer_at m empty_rep) = "" ->
  value str (WipeString str m) = "".
Proof.
  intros H He. pose proof (WipeString_effect str m H) as E. cbv zeta in E.
  unfold value.
  destruct (is_shared _ _) eqn:Hs; destruct E as (_ & -> & ->).
  - now rewrite !Nat.eqb_refl.
  - rewrite Nat.eqb_refl. cbn [andb].
    destruct (Nat.eqb_spec (buffer_of m str) empty_rep) as [->|];
      [exact He|reflexivity].
Qed.

Lemma in_order_step (str : StringPtr) (strs : list StringPtr) (m : Memory) :
  in_order (str :: strs) m -> in_order strs (WipeString str m).
Proof.
  intros (Hnd & Hlt & Huse & Hbrk & He).
  inversion Hnd as [|? ? Hnotin Hnd']; subst.
  assert (Hsame : forall s, In s strs ->
            buffer_of (WipeString str m) s = buffer_of m s).
  { intros s Hs. apply WipeString_other_string; [exact Hbrk|].
    intros ->. contradiction. }
  pose proof (WipeString_brk str m Hbrk) as Hmono.
  split; [exact Hnd'|]. split; [|split; [|split]].
  - intros s Hs. rewrite Hsame by exact Hs.
    specialize (Hlt s (or_intror Hs)). lia.
  - intros p Hp. rewrite (uses_ext p strs m _ Hsame).
    specialize (Huse p Hp). rewrite uses_cons in Huse.
    pose proof (WipeString_effect str m Hbrk) as E. cbv zeta in E.
    destruct (is_shared _ _) eqn:Hs; destruct E as (_ & _ & ->).
    + destruct (Nat.eqb_spec p (brk m)) as [->|Hnb].
      * rewrite uses_none; [cbn; lia|].
        intros s Hin. specialize (Hlt s (or_intror Hin)). lia.
      * destruct (Nat.eqb_spec p (buffer_of m str)) as [->|Hnp].
        -- rewrite Nat.eqb_refl in Huse. cbn [set_users users]. lia.
        -- lia.
    + destruct (Nat.eqb_spec p (buffer_of m str)) as [->|Hnp];
        cbn [andb]; [|lia].
      rewrite (proj2 (Nat.eqb_neq _ _) Hp). cbn [negb users]. lia.
  - lia.
  - rewrite WipeString_other_buffer; auto.
Qed.

Lemma wipe_all_brk (strs : list StringPtr) : forall m,
  in_order strs m -> (brk m <= brk (wipe_all strs m))%nat.
Proof.
  induction strs as [|str rest IH]; intros m Hm; [cbn; lia|].
  cbn [wipe_all fold_left]. fold (wipe_all rest (WipeString str m)).
  specialize (IH _ (in_order_step _ _ _ Hm)).
  destruct Hm as (_ & _ & _ & Hbrk & _).
  pose proof (WipeString_brk str m Hbrk). lia.
Qed.

Lemma wipe_all_other_string (strs : list StringPtr) : forall m s,
  in_order strs m -> ~ In s strs ->
  buffer_of (wipe_all strs m) s = buffer_of m s.
Proof.
  induction strs as [|str rest IH]; intros m s Hm Hs; [reflexivity|].
  cbn [wipe_all fold_left]. fold (wipe_all rest (WipeString str m)).
  rewrite IH; [|now apply in_order_step|intros H; apply Hs; now right].
  destruct Hm as (_ & _ & _ & Hbrk & _).
  apply WipeString_other_string; [exact Hbrk|].
  intros ->. apply Hs. now left.
Qed.

Lemma wipe_all_empty_rep (strs : list StringPtr) : forall m,
  in_order strs m -> contents (buffer_at (wipe_all strs m) empty_rep) = "".
Proof.
  induction strs as [|str rest IH]; intros m Hm.
  - now destruct Hm as (_ & _ & _ & _ & He).
  - cbn [wipe_all fold_left]. fold (wipe_all rest (WipeString str m)).
    apply IH. now apply in_order_step.
Qed.

(** What becomes of a buffer when the strings [strs] are wiped. *)
Lemma wipe_all_buffer (strs : list StringPtr) : forall m p,
  in_order strs m -> p <> empty_rep -> (p < brk m)%nat ->
  let b := buffer_at m p in
  let m' := wipe_all strs m in
  ((uses p strs m = 0 \/ uses p strs m < users b)%nat ->
   buffer_at m' p = set_users (users b - uses p strs m) b) /\
  ((0 < uses p strs m)%nat -> uses p strs m = users b ->
   buffer_at m' p =
   mk_Buffer "" (fill (String.length (contents b)) NUL ++ slack b) 1).
Proof.
  induction strs as [|str rest IH]; intros m p Hm Hp Hlt; cbv zeta.
  - cbn. split; [|lia]. intros _. rewrite Nat.sub_0_r.
    symmetry. apply set_users_same.
  - cbn [wipe_all fold_left]. fold (wipe_all rest (WipeString str m)).
    pose proof (in_order_step _ _ _ Hm) as Hm1.
    destruct Hm as (Hnd & Hlts & Huse & Hbrk & He).
    inversion Hnd as [|? ? Hnotin Hnd']; subst.
    assert (Hsame : forall s, In s rest ->
              buffer_of (WipeString str m) s = buffer_of m s).
    { intros s Hs. apply WipeString_other_string; [exact Hbrk|].
      intros ->. contradiction. }
    pose proof (WipeString_brk str m Hbrk) as Hmono.
    specialize (IH (WipeString str m) p Hm1 Hp ltac:(lia)).
    cbv zeta in IH. rewrite (uses_ext p rest m _ Hsame) in IH.
    specialize (Huse p Hp). rewrite uses_cons in *.
    destruct (Nat.eqb_spec (buffer_of m str) p) as [Eq|Hne].
    + (* the string uses the buffer *)
      subst p.
      pose proof (WipeString_effect str m Hbrk) as E. cbv zeta in E.
      rewrite (is_shared_users _ m Hp) in E.
      destruct (Nat.ltb_spec 1 (users (buffer_at m (buffer_of m str))))
        as [Hshared|Hsole]; destruct E as (_ & _ & E).
      * assert (Eb : buffer_at (WipeString str m) (buffer_of m str) =
                     set_users (pred (users (buffer_at m (buffer_of m str))))
                       (buffer_at m (buffer_of m str))).
        { rewrite E, (proj2 (Nat.eqb_neq _ (brk m))) by lia.
          now rewrite Nat.eqb_refl. }
        rewrite Eb in IH. cbn [set_users users contents slack] in IH.
        destruct IH as [IH1 IH2]. split.
        -- intros [H|H]; [lia|].
           rewrite IH1 by lia. unfold set_users. cbn [contents slack].
           f_equal. lia.
        -- intros _ H. apply IH2; lia.
      * assert (Eb : buffer_at (WipeString str m) (buffer_of m str) =
                     mk_Buffer ""
                       (fill (String.length
                                (contents (buffer_at m (buffer_of m str))))
                          NUL ++ slack (buffer_at m (buffer_of m str)))
                       (users (buffer_at m (buffer_of m str)))).
        { rewrite E, Nat.eqb_refl.
          now rewrite (proj2 (Nat.eqb_neq _ _) Hp). }
        rewrite Eb in IH. cbn [set_users users contents slack] in IH.
        destruct IH as [IH1 _]. split; [intros [H|H]; lia|].
        intros _ H. rewrite IH1 by lia. unfold set_users.
        cbn [contents slack]. f_equal. lia.
    + (* the string uses another buffer *)
      rewrite (WipeString_other_buffer str p m Hbrk Hlt) in IH
        by (left; intros ->; now apply Hne).
      cbn [Nat.add]. exact IH.
Qed.


Lemma wipe_all_keeps_value (strs : list StringPtr) (m : Memory)
  (s : StringPtr) :
  in_order strs m -> ~ In s strs -> (buffer_of m s < brk m)%nat ->
  buffer_of m s = empty_rep \/ uses (buffer_of m s) strs m = 0%nat ->
  value s (wipe_all strs m) = value s m.
Proof.
  intros Hm Hs Hlt Hown. unfold value.
  rewrite (wipe_all_other_string strs m s Hm Hs).
  destruct (Nat.eq_dec (buffer_of m s) empty_rep) as [E|Hne].
  - rewrite E, (wipe_all_empty_rep strs m Hm).
    now destruct Hm as (_ & _ & _ & _ & ->).
  - destruct Hown as [E|Hnone]; [contradiction|].
    destruct (wipe_all_buffer strs m _ Hm Hne Hlt) as [H _].
    cbv zeta in H. rewrite H by (left; exact Hnone). reflexivity.
Qed.

Lemma wipe_all_values (strs : list StringPtr) : forall m,
  in_order strs m ->
  forall s, In s strs -> value s (wipe_all strs m) = "".
Proof.
  induction strs as [|str rest IH]; intros m Hm s Hs; [destruct Hs|].
  cbn [wipe_all fold_left]. fold (wipe_all rest (WipeString str m)).
  pose proof (in_order_step _ _ _ Hm) as Hm1.
  destruct Hm as (Hnd & Hlts & Huse & Hbrk & He).
  inversion Hnd as [|? ? Hnotin Hnd']; subst.
  destruct (Nat.eq_dec s str) as [->|Hne].
  - assert (Hsame : forall t, In t rest ->
              buffer_of (WipeString str m) t = buffer_of m t).
    { intros t Ht. apply WipeString_other_string; [exact Hbrk|].
      intros ->. contradiction. }
    pose proof (WipeString_effect str m Hbrk) as E. cbv zeta in E.
    rewrite wipe_all_keeps_value;
      [now apply WipeString_value|exact Hm1|exact Hnotin| |].
    + destruct (is_shared _ _); destruct E as (-> & -> & _);
        [rewrite Nat.eqb_refl; lia|].
      apply Hlts. now left.
    + destruct (Nat.eq_dec (buffer_of m str) empty_rep) as [E0|Hp].
      * left. unfold is_shared in E. rewrite E0 in E. cbn in E.
        destruct E as (_ & -> & _). exact E0.
      * right. rewrite (is_shared_users _ m Hp) in E.
        destruct (Nat.ltb_spec 1 (users (buffer_at m (buffer_of m str))))
          as [Hshared|Hsole]; destruct E as (_ & E & _).
        -- rewrite E, Nat.eqb_refl. apply uses_none.
           intros t Ht. rewrite Hsame by exact Ht.
           specialize (Hlts t (or_intror Ht)). lia.
        -- rewrite E, (uses_ext _ rest m _ Hsame).
           specialize (Huse _ Hp). rewrite uses_cons, Nat.eqb_refl in Huse.
           lia.
  - apply IH; [exact Hm1|]. destruct Hs as [Hs|Hs]; [|exact Hs].
    now elim Hne.
Qed.

Lemma wipe_all_moves (strs : list StringPtr) : forall m s,
  in_order strs m -> In s strs -> buffer_of m s <> empty_rep ->
  (uses (buffer_of m s) strs m < users (buffer_at m (buffer_of m s)))%nat ->
  (brk m <= buffer_of (wipe_all strs m) s)%nat.
Proof.
  induction strs as [|str rest IH]; intros m s Hm Hs Hp Hout;
    [destruct Hs|].
  cbn [wipe_all fold_left]. fold (wipe_all rest (WipeString str m)).
  pose proof (in_order_step _ _ _ Hm) as Hm1.
  destruct Hm as (Hnd & Hlts & Huse & Hbrk & He).
  inversion Hnd as [|? ? Hnotin Hnd']; subst.
  assert (Hsame : forall t, In t rest ->
            buffer_of (WipeString str m) t = buffer_of m t).
  { intros t Ht. apply WipeString_other_string; [exact Hbrk|].
    intros ->. contradiction. }
  pose proof (WipeString_brk str m Hbrk) as Hmono.
  pose proof (WipeString_effect str m Hbrk) as E. cbv zeta in E.
  rewrite uses_cons in Hout.
  destruct (Nat.eq_dec s str) as [->|Hne].
  - rewrite (wipe_all_other_string rest _ str Hm1 Hnotin).
    rewrite Nat.eqb_refl in Hout.
    rewrite (is_shared_users _ m Hp) in E.
    destruct (Nat.ltb_spec 1 (users (buffer_at m (buffer_of m str))))
      as [Hshared|Hsole]; [|lia].
    destruct E as (_ & -> & _). rewrite Nat.eqb_refl. lia.
  - destruct Hs as [Hs|Hs]; [now elim Hne|].
    assert (Hlt : (buffer_of m s < brk m)%nat) by (apply Hlts; now right).
    enough (brk (WipeString str m) <= buffer_of (wipe_all rest
                                                  (WipeString str m)) s)%nat
      by lia.
    apply IH; [exact Hm1|exact Hs|now rewrite Hsame|].
    rewrite (Hsame s Hs), (uses_ext _ rest m _ Hsame).
    destruct (Nat.eqb_spec (buffer_of m str) (buffer_of m s)) as [Eq|Hnp].
    + rewrite <- Eq in *. rewrite (is_shared_users _ m Hp) in E.
      destruct (Nat.ltb_spec 1 (users (buffer_at m (buffer_of m str))))
        as [Hshared|Hsole]; [|lia].
      destruct E as (_ & _ & ->).
      rewrite (proj2 (Nat.eqb_neq _ (brk m))) by lia.
      rewrite Nat.eqb_refl. cbn [set_users users]. lia.
    + rewrite WipeString_other_buffer; [lia|exact Hbrk|exact Hlt|].
      left. intros H. apply Hnp. now symmetry.
Qed.


Lemma uses_positive (p : BufferPtr) (strs : list StringPtr) (m : Memory)
  (s : StringPtr) :
  In s strs -> buffer_of m s = p -> (0 < uses p strs m)%nat.
Proof.
  intros Hs E. destruct (uses p strs m) eqn:U; [|lia].
  exfalso. exact (uses_zero p strs m s U Hs E).
Qed.

(** X26: what [EraseCredentials] does in memory.  Afterwards every secret is
    the empty string.  A buffer that only the erased strings use is
    overwritten: it holds zeros where the characters were.  A buffer that a
    string outside the erased ones uses as well is left as it is, with the
    erased strings taken off its users; these strings have moved to buffers
    that were allocated during the call. *)
Theorem EraseCredentials_in_memory (strs : list StringPtr) (m m' : Memory) :
  (exists this, strs = VirtualNetwork_secrets this /\
                m' = VirtualNetwork_EraseCredentials this m) \/
  (exists this, strs = WifiNetwork_secrets this /\
                m' = WifiNetwork_EraseCredentials this m) ->
  in_order strs m ->
  forall str, In str strs ->
    let p := buffer_of m str in
    let b := buffer_at m p in
    value str m' = "" /\
    (p <> empty_rep -> uses p strs m = users b ->
     buffer_at m' p =
     mk_Buffer "" (fill (String.length (contents b)) NUL ++ slack b) 1) /\
    (p <> empty_rep -> (uses p strs m < users b)%nat ->
     buffer_at m' p = set_users (users b - uses p strs m) b /\
     (brk m <= buffer_of m' str)%nat).
Proof.
  intros Hwhich Hm str Hstr. cbv zeta.
  assert (Em : m' = wipe_all strs m).
  { destruct Hwhich as [[this [-> ->]]|[this [-> ->]]];
      [unfold VirtualNetwork_EraseCredentials, VirtualNetwork_secrets
      |unfold WifiNetwork_EraseCredentials, WifiNetwork_secrets];
      unfold wipe_all; cbn [fold_left]; reflexivity. }
  subst m'. clear Hwhich.
  assert (Hlt : (buffer_of m str < brk m)%nat).
  { destruct Hm as (_ & H & _). now apply H. }
  split; [now apply wipe_all_values|]. split.
  - intros Hp Hall.
    destruct (wipe_all_buffer strs m _ Hm Hp Hlt) as [_ H]. cbv zeta in H.
    apply H; [|exact Hall].
    now apply (uses_positive _ strs m str).
  - intros Hp Hout.
    destruct (wipe_all_buffer strs m _ Hm Hp Hlt) as [H _]. cbv zeta in H.
    split; [apply H; now right|].
    now apply wipe_all_moves.
Qed.

End InMemoryProperties.


(** * The properties at concrete inputs *)

(** A cellular network that goes from Ready to Failure with no error set
    ends with ERROR_UNKNOWN and the notification flag; a network that fails
    from Idle keeps its flag and its error. *)
Lemma SetState_failure_notification_witness :
  (In (state_ cellular_ready) reporting_states /\
   error_ cellular_ready = ERROR_NO_ERROR /\
   let n' := object (Network_SetState true (fun _ => None)
                       IsConnectingState_model IsConnectedState_model
                       STATE_FAILURE cellular_ready) in
   notify_failure_ n' = true /\ error_ n' = ERROR_UNKNOWN) /\
  (state_ ethernet_idle = STATE_IDLE /\
   let n' := object (Network_SetState true (fun _ => None)
                       IsConnectingState_model IsConnectedState_model
                       STATE_FAILURE ethernet_idle) in
   notify_failure_ n' = false /\ error_ n' = ERROR_NO_ERROR).
Proof.
  split.
  - assert (Hin : In (state_ cellular_ready) reporting_states)
      by (simpl; tauto).
    split; [exact Hin|]. split; [reflexivity|].
    destruct (SetState_failure_notification true (fun _ => None)
                IsConnectingState_model IsConnectedState_model cellular_ready)
      as [H _].
    destruct (H Hin) as (_ & Hn & He & _).
    split; [exact Hn|]. apply He. reflexivity.
  - split; [reflexivity|].
    destruct (SetState_failure_notification true (fun _ => None)
                IsConnectingState_model IsConnectedState_model ethernet_idle)
      as [_ H].
    destruct (H (or_introl eq_refl)) as (_ & Hn & He).
    split; [exact Hn | exact He].
Defined.

(** "255.255.255.0" has prefix length 24, "255.255.128.0" has 17, and
    "255.224.255.0", "255.255.255" and "255.255.256.0" have none. *)
Lemma GetPrefixLength_canonical_witness :
  GetPrefixLength StringTokenizer_model (netmask_config "255.255.255.0") = 24 /\
  GetPrefixLength StringTokenizer_model (netmask_config "255.255.128.0") = 17 /\
  GetPrefixLength StringTokenizer_model (netmask_config "255.224.255.0") = -1 /\
  GetPrefixLength StringTokenizer_model (netmask_config "255.255.255") = -1 /\
  GetPrefixLength StringTokenizer_model (netmask_config "255.255.256.0") = -1.
Proof.
  split; [|split; [|split; [|split]]].
  - apply (GetPrefixLength_canonical StringTokenizer_model
             (netmask_config "255.255.255.0")). reflexivity.
  - apply (GetPrefixLength_canonical StringTokenizer_model
             (netmask_config "255.255.128.0")). reflexivity.
  - apply (GetPrefixLength_canonical StringTokenizer_model
             (netmask_config "255.224.255.0")). reflexivity.
  - destruct (GetPrefixLength_canonical StringTokenizer_model
                (netmask_config "255.255.255")) as (_ & _ & H & _).
    apply H. vm_compute. discriminate.
  - destruct (GetPrefixLength_canonical StringTokenizer_model
                (netmask_config "255.255.256.0")) as (_ & _ & _ & H & _).
    apply (H "256"); [vm_compute; tauto | reflexivity].
Defined.


(** Two sightings of one network, under different service paths, get one
    unique id. *)
Lemma CalculateUniqueId_depends_on_identity_only_witness :
  service_path_ (wifi_base home_wifi_a) <> service_path_ (wifi_base home_wifi_b)
  /\
  unique_id_ (wifi_base (object (WifiNetwork_CalculateUniqueId
                                   SecurityToString_model home_wifi_a))) =
  unique_id_ (wifi_base (object (WifiNetwork_CalculateUniqueId
                                   SecurityToString_model home_wifi_b)))
  /\
  unique_id_ (vpn_base (object (VirtualNetwork_CalculateUniqueId
                                  ProviderTypeToString_model office_vpn_a))) =
  unique_id_ (vpn_base (object (VirtualNetwork_CalculateUniqueId
                                  ProviderTypeToString_model office_vpn_b)))
  /\
  unique_id_ (object (Network_CalculateUniqueId (wifi_base home_wifi_a))) =
  unique_id_ (object (Network_CalculateUniqueId (wifi_base home_wifi_b))).
Proof.
  destruct (CalculateUniqueId_depends_on_identity_only
              SecurityToString_model ProviderTypeToString_model)
    as (Hnet & Hwifi & Hvpn & _).
  split; [discriminate|]. split; [|split].
  - apply Hwifi; reflexivity.
  - apply Hvpn; reflexivity.
  - apply Hnet; reflexivity.
Defined.

(** The hex dump of "Hello" on a WEP network. *)
Lemma SetHexSsid_Hello_unique_id_witness :
  let r := WifiNetwork_SetHexSsid HexStringToBytes_model IsStringUTF8_model
             (fun _ => None) (fun s _ => (true, s))
             ReadUnicodeCharacter_model WriteUnicodeCharacter_model
             "48656c6c6f" wep_wifi in
  result r = true /\
  name_ (wifi_base (object r)) = "Hello" /\
  unique_id_ (wifi_base (object (WifiNetwork_CalculateUniqueId
                                   SecurityToString_model (object r))))
  = "WEP|Hello".
Proof.
  apply (SetHexSsid_Hello_unique_id SecurityToString_model
           HexStringToBytes_model IsStringUTF8_model
           (fun _ => None) (fun s _ => (true, s))
           ReadUnicodeCharacter_model WriteUnicodeCharacter_model wep_wifi).
  - reflexivity.
  - reflexivity.
  - intros i c H.
    do 5 (destruct i as [|i]; [injection H as <-; reflexivity|]).
    discriminate.
  - intros i c H.
    do 5 (destruct i as [|i]; [injection H as <-; reflexivity|]).
    discriminate.
  - reflexivity.
  - reflexivity.
Defined.

(** A hex dump with a character that is no hexadecimal digit, and one with
    an odd number of digits: the network keeps its name. *)
Lemma SetHexSsid_decode_failure_witness :
  (fst (HexStringToBytes_model "48g5") = false /\
   let r := WifiNetwork_SetHexSsid HexStringToBytes_model IsStringUTF8_model
              (fun _ => None) (fun s _ => (true, s))
              ReadUnicodeCharacter_model WriteUnicodeCharacter_model
              "48g5" home_wifi_a in
   result r = false /\ object r = home_wifi_a /\ calls r = [] /\
   name_ (wifi_base (object r)) = "Home") /\
  (fst (HexStringToBytes_model "486") = false /\
   let r := WifiNetwork_SetHexSsid HexStringToBytes_model IsStringUTF8_model
              (fun _ => None) (fun s _ => (true, s))
              ReadUnicodeCharacter_model WriteUnicodeCharacter_model
              "486" home_wifi_a in
   result r = false /\ object r = home_wifi_a /\ calls r = [] /\
   name_ (wifi_base (object r)) = "Home").
Proof.
  split; (split; [reflexivity|]).
  - apply (SetHexSsid_decode_failure HexStringToBytes_model IsStringUTF8_model
             (fun _ => None) (fun s _ => (true, s))
             ReadUnicodeCharacter_model WriteUnicodeCharacter_model
             "48g5" home_wifi_a). reflexivity.
  - apply (SetHexSsid_decode_failure HexStringToBytes_model IsStringUTF8_model
             (fun _ => None) (fun s _ => (true, s))
             ReadUnicodeCharacter_model WriteUnicodeCharacter_model
             "486" home_wifi_a). reflexivity.
Defined.

(** An OpenVPN network with host, user, passphrase and certificate, and no
    error, still needs more information. *)
Lemma OpenVPN_always_needs_more_info_witness :
  provider_type_ complete_openvpn = PROVIDER_TYPE_OPEN_VPN /\
  server_hostname_ complete_openvpn <> "" /\
  username_ complete_openvpn <> "" /\
  IsUserPassphraseRequired complete_openvpn = false /\
  error_ (vpn_base complete_openvpn) = ERROR_NO_ERROR /\
  empty (client_cert_id_ complete_openvpn) = false /\
  VirtualNetwork_NeedMoreInfoToConnect complete_openvpn = true.
Proof.
  split; [reflexivity|]. split; [discriminate|]. split; [discriminate|].
  split; [reflexivity|]. split; [reflexivity|]. split; [reflexivity|].
  apply (OpenVPN_always_needs_more_info complete_openvpn). reflexivity.
Defined.

(** 4 GB are left of the metered plan, and 1000000 microseconds at time
    1000000; nothing is left of it at time 3000000. *)
Lemma remaining_is_clamped_difference_witness :
  remaining_data metered_plan = 4294967296 /\
  remaining_time 1000000 metered_plan = 1000000 /\
  remaining_time 3000000 metered_plan = 0.
Proof.
  split; [|split].
  - destruct (remaining_is_clamped_difference metered_plan 0)
      as (_ & H & _).
    rewrite H; [reflexivity|]. unfold is_int64, INT64_MIN, INT64_MAX.
    simpl. lia.
  - destruct (remaining_is_clamped_difference metered_plan 1000000)
      as (_ & _ & H & _).
    rewrite H; [reflexivity|]. unfold is_int64, INT64_MIN, INT64_MAX.
    simpl. lia.
  - destruct (remaining_is_clamped_difference metered_plan 3000000)
      as (_ & _ & H & _).
    rewrite H; [reflexivity|]. unfold is_int64, INT64_MIN, INT64_MAX.
    simpl. lia.
Defined.

(** With 64-bit values at the ends of the range the subtraction wraps around:
    the plan allows 2^63 - 1 bytes and -1 are used, the difference 2^63 is
    no 64-bit value, and nothing is reported as remaining; likewise for the
    time at -1.  max(0, difference) would be 2^63. *)
Lemma remaining_data_wraps_around :
  is_int64 (plan_data_bytes overflowing_plan) /\
  is_int64 (data_bytes_used overflowing_plan) /\
  remaining_data overflowing_plan = 0 /\
  Z.max 0 (plan_data_bytes overflowing_plan
           - data_bytes_used overflowing_plan) = 2 ^ 63 /\
  remaining_data overflowing_plan <>
  Z.max 0 (plan_data_bytes overflowing_plan
           - data_bytes_used overflowing_plan) /\
  remaining_time (-1) overflowing_plan <>
  Z.max 0 (plan_end_time overflowing_plan - (-1)).
Proof.
  unfold is_int64. vm_compute. repeat split; discriminate.
Defined.

(** * The further properties at concrete inputs *)

(** The connected cellular network gets the second address libcros lists,
    the first being empty. *)
Lemma InitIPAddress_first_listed_address_witness :
  let r := Network_InitIPAddress true two_ipconfigs IsConnectedState_model
             cellular_on_device in
  ip_address_ (object r) = "10.0.0.2" /\
  calls r = [Call_InitIPAddress; CrosListIPConfigs_call "/device/cell0"].
Proof.
  cbv zeta.
  destruct (InitIPAddress_first_listed_address true two_ipconfigs
              IsConnectedState_model cellular_on_device)
    as (_ & _ & Hfirst & _ & _).
  split; [|reflexivity].
  apply (Hfirst [mk_IPConfig "" "" "" ""]
           (mk_IPConfig "10.0.0.2" "255.255.255.0" "10.0.0.1" "8.8.8.8") []);
    try reflexivity; try discriminate.
  repeat constructor.
Defined.

(** A network that failed before keeps its flag and its error when it
    goes on to Association, and is no longer started after Disconnect. *)
Lemma SetState_postcondition_witness :
  let n' := object (Network_SetState true two_ipconfigs
                      IsConnectingState_model IsConnectedState_model
                      STATE_DISCONNECT failed_before) in
  state_ n' = STATE_DISCONNECT /\ notify_failure_ n' = true /\
  error_ n' = ERROR_DHCP_FAILED /\ connection_started_ n' = false /\
  name_ n' = "Cafe".
Proof.
  cbv zeta.
  destruct (SetState_postcondition true two_ipconfigs IsConnectingState_model
              IsConnectedState_model STATE_DISCONNECT failed_before)
    as (Hs & Hn & He & _ & Hc & _ & Hsame).
  split; [exact Hs|]. split; [apply Hn; reflexivity|].
  split; [apply He; discriminate|].
  split; [apply Hc; [discriminate|reflexivity]|].
  destruct Hsame as (_ & _ & _ & _ & _ & _ & _ & _ & _ & _ & Hname & _).
  symmetry. exact Hname.
Defined.

(** A failure while disconnecting is reported. *)
Lemma SetState_notifies_exactly_witness :
  notify_failure_ disconnecting = false /\
  notify_failure_
    (object (Network_SetState true two_ipconfigs IsConnectingState_model
               IsConnectedState_model STATE_FAILURE disconnecting)) = true.
Proof.
  split; [reflexivity|].
  apply (SetState_notifies_exactly true two_ipconfigs IsConnectingState_model
           IsConnectedState_model STATE_FAILURE disconnecting eq_refl).
  repeat split; discriminate.
Defined.

(** The connected cellular network loses its address when it goes idle. *)
Lemma SetState_disconnected_drops_address_witness :
  ip_address_ cellular_on_device = "10.0.0.9" /\
  let r := Network_SetState true two_ipconfigs IsConnectingState_model
             IsConnectedState_model STATE_IDLE cellular_on_device in
  ip_address_ (object r) = "" /\ calls r = [Call_InitIPAddress].
Proof.
  split; [reflexivity|].
  apply (SetState_disconnected_drops_address true two_ipconfigs
           IsConnectingState_model IsConnectedState_model STATE_IDLE
           cellular_on_device); [discriminate|discriminate|reflexivity].
Defined.

(** Clearing the certificate id of the 802.1X network, and setting it. *)
Lemma SetOrClearStringProperty_never_sends_empty_witness :
  let run (id : string) :=
    SetOrClearStringProperty true wifi_base "EAP.CertID" id
      (Some eap_client_cert_pkcs11_id_field) tls_wifi in
  chars (eap_client_cert_pkcs11_id_ (object (run ""))) = "" /\
  calls (run "") =
  [CrosClearNetworkServiceProperty "/service/wifi5" "EAP.CertID"] /\
  calls (run "0:ab") =
  [CrosSetNetworkServicePropertyGValue "/service/wifi5" "EAP.CertID"
     (StringValue "0:ab")].
Proof.
  cbv zeta.
  destruct (SetOrClearStringProperty_never_sends_empty true wifi_base
              "EAP.CertID" "" eap_client_cert_pkcs11_id_field tls_wifi)
    as (_ & _ & Hd & _ & _ & Hclear & _).
  { intros x o'. destruct o'. reflexivity. }
  destruct (SetOrClearStringProperty_never_sends_empty true wifi_base
              "EAP.CertID" "0:ab" eap_client_cert_pkcs11_id_field tls_wifi)
    as (_ & _ & _ & _ & _ & _ & Hset).
  { intros x o'. destruct o'. reflexivity. }
  split; [exact Hd|]. split.
  - apply Hclear; reflexivity.
  - apply Hset; [reflexivity|discriminate|].
    intros x o'. destruct o'. reflexivity.
Defined.

(** A new passphrase is read back; the empty one brings the remembered
    passphrase back. *)
Lemma SetPassphrase_GetPassphrase_witness :
  WifiNetwork_GetPassphrase
    (object (WifiNetwork_SetPassphrase true "Passphrase" "s3cret" tls_wifi))
  = "s3cret" /\
  WifiNetwork_GetPassphrase
    (object (WifiNetwork_SetPassphrase true "Passphrase" "" tls_wifi))
  = "remembered".
Proof.
  split.
  - destruct (SetPassphrase_GetPassphrase true "Passphrase" "s3cret" tls_wifi)
      as [H _].
    apply H. discriminate.
  - destruct (SetPassphrase_GetPassphrase true "Passphrase" "" tls_wifi)
      as [_ H].
    apply H. reflexivity.
Defined.

(** The 802.1X network before and after its credentials are erased: the
    encryption string is the same, and so are encryption and method. *)
Lemma GetEncryptionString_injective_witness :
  let erased := object (WifiNetwork_EraseCredentials tls_wifi) in
  WifiNetwork_GetEncryptionString tls_wifi =
  WifiNetwork_GetEncryptionString erased /\
  encryption_ tls_wifi = encryption_ erased /\
  eap_method_ tls_wifi = eap_method_ erased.
Proof.
  cbv zeta. split; [reflexivity|].
  destruct (GetEncryptionString_injective tls_wifi
              (object (WifiNetwork_EraseCredentials tls_wifi)) eq_refl)
    as [He Hm].
  split; [exact He|]. apply Hm. reflexivity.
Defined.

(** With its credentials erased the complete OpenVPN network needs more
    information, and so does the pre-shared-key network, whose key is
    required. *)
Lemma EraseCredentials_then_NeedMoreInfoToConnect_witness :
  VirtualNetwork_NeedMoreInfoToConnect
    (object (VirtualNetwork_EraseCredentials complete_openvpn)) = true /\
  VirtualNetwork_NeedMoreInfoToConnect
    (object (VirtualNetwork_EraseCredentials office_vpn_b)) = true.
Proof.
  split.
  - destruct (EraseCredentials_then_NeedMoreInfoToConnect complete_openvpn)
      as (H & _).
    apply H. right. reflexivity.
  - destruct (EraseCredentials_then_NeedMoreInfoToConnect office_vpn_b)
      as (_ & _ & H & _).
    apply H; reflexivity.
Defined.

(** The new pre-shared-key network is complete once key, user and
    passphrase are given. *)
Lemma SetL2TPIPsecPSKCredentials_completes_witness :
  VirtualNetwork_NeedMoreInfoToConnect new_psk_vpn = true /\
  let r := VirtualNetwork_SetL2TPIPsecPSKCredentials true "L2TPIPsec.PSK"
             "L2TPIPsec.User" "L2TPIPsec.Password" "L2TPIPsec.GroupName"
             "key" "erin" "pass" "staff" new_psk_vpn in
  VirtualNetwork_NeedMoreInfoToConnect (object r) = false /\
  forall p k,
    ~ In (CrosSetNetworkServicePropertyGValue p k (StringValue "")) (calls r).
Proof.
  split; [reflexivity|]. cbv zeta.
  destruct (SetL2TPIPsecPSKCredentials_completes true "L2TPIPsec.PSK"
              "L2TPIPsec.User" "L2TPIPsec.Password" "L2TPIPsec.GroupName"
              "key" "erin" "pass" "staff" new_psk_vpn)
    as (_ & _ & _ & _ & _ & _ & Hsent & Hdone).
  split.
  - apply Hdone; try reflexivity; discriminate.
  - apply Hsent; discriminate.
Defined.

(** The one-time password is not kept, and an empty passphrase keeps the
    passphrase stored. *)
Lemma SetOpenVPNCredentials_otp_not_stored_witness :
  let r := VirtualNetwork_SetOpenVPNCredentials true "OpenVPN.Pkcs11.ID"
             "OpenVPN.User" "OpenVPN.Password" "OpenVPN.OTP"
             "0:1a2b" "alice" "" "123456" complete_openvpn in
  object r =
  object (VirtualNetwork_SetOpenVPNCredentials true "OpenVPN.Pkcs11.ID"
            "OpenVPN.User" "OpenVPN.Password" "OpenVPN.OTP"
            "0:1a2b" "alice" "" "654321" complete_openvpn) /\
  vpn_user_passphrase_ (object r) = fresh "hunter2".
Proof.
  cbv zeta.
  destruct (SetOpenVPNCredentials_otp_not_stored true "OpenVPN.Pkcs11.ID"
              "OpenVPN.User" "OpenVPN.Password" "OpenVPN.OTP"
              "0:1a2b" "alice" "" "123456" "654321" complete_openvpn)
    as (Hsame & _ & _ & Hkeep & _).
  split; [exact Hsame|]. apply Hkeep. reflexivity.
Defined.

(** The certificate matched supplies what the user-certificate network
    lacked. *)
Lemma MatchCertificatePattern_supplies_certificate_witness :
  let Empty := fun p => Nat.eqb (pattern_id p) 0 in
  let GetMatch := fun _ : CertificatePattern => Some (os_cert_handle 5) in
  let GetPkcs11Id := fun _ : X509Certificate => "0:1a2b" in
  VirtualNetwork_NeedMoreInfoToConnect cert_vpn = true /\
  VirtualNetwork_NeedMoreInfoToConnect
    (object (VirtualNetwork_MatchCertificatePattern true Empty GetMatch
               GetPkcs11Id "OpenVPN.Pkcs11.ID" "L2TPIPsec.ClientCertID"
               (closure_id 3) cert_vpn)) = false.
Proof.
  cbv zeta.
  destruct (MatchCertificatePattern_supplies_certificate true
              (fun p => Nat.eqb (pattern_id p) 0)
              (fun _ => Some (os_cert_handle 5)) (fun _ => "0:1a2b")
              "OpenVPN.Pkcs11.ID" "L2TPIPsec.ClientCertID" (closure_id 3)
              cert_vpn (os_cert_handle 5))
    as [Hafter Hbefore]; try reflexivity; try discriminate.
  split; [apply Hbefore; reflexivity|exact Hafter].
Defined.

(** The EAP-TLS network requires a user profile once it has a certificate
    id, and not after its credentials are erased; the PEAP network never
    does. *)
Lemma RequiresUserProfile_certificates_witness :
  WifiNetwork_RequiresUserProfile
    (object (WifiNetwork_SetEAPClientCertPkcs11Id true "EAP.CertID"
               "EAP.KeyID" "0:1a2b" tls_wifi)) = true /\
  WifiNetwork_RequiresUserProfile
    (object (WifiNetwork_EraseCredentials tls_wifi)) <> true /\
  WifiNetwork_RequiresUserProfile peap_wifi <> true.
Proof.
  split; [|split].
  - destruct (RequiresUserProfile_certificates true "EAP.CertID" "EAP.KeyID"
                tls_wifi) as (_ & H & _).
    apply H; try reflexivity. discriminate.
  - destruct (RequiresUserProfile_certificates true "EAP.CertID" "EAP.KeyID"
                tls_wifi) as (_ & _ & H).
    intros E. apply H in E. destruct E as (_ & _ & E). discriminate E.
  - destruct (RequiresUserProfile_certificates true "EAP.CertID" "EAP.KeyID"
                peap_wifi) as (H & _).
    intros E. apply H in E. destruct E as (_ & E). discriminate E.
Defined.

(** Storing the caller's object under key 8 and under key 3. *)
Lemma UpdatePropertyMap_GetProperty_witness :
  exists m' h' copy,
    Network_UpdatePropertyMap next_address 8 5%nat sample_map sample_heap
    = Some (m', h') /\
    Network_GetProperty 8 m' = Some copy /\
    deref copy h' = Some (IntegerValue 7) /\ copy <> 5%nat /\
    Network_GetProperty 3 m' = Some 1%nat /\
    deref 1%nat h' = Some (StringValue "office").
Proof.
  destruct (UpdatePropertyMap_GetProperty next_address 8 5%nat
              (IntegerValue 7) sample_map sample_heap)
    as (m' & h' & copy & Hu & Hg & Hd & Hne & _ & Hframe).
  - exact next_address_allocator.
  - split; [repeat constructor; simpl; intuition discriminate
           |simpl; intuition discriminate].
  - split; [repeat constructor|].
    split; [repeat constructor; simpl; tauto|].
    simpl. intros p [<-|[]]. now left.
  - reflexivity.
  - simpl. intuition discriminate.
  - exists m', h', copy. repeat (split; [assumption|]).
    destruct (Hframe 3) as [H3 Hd3]; [discriminate|].
    split; [rewrite H3; reflexivity|].
    rewrite (Hd3 1%nat eq_refl). reflexivity.
Defined.

Lemma sample_heap_ok : heap_ok sample_heap.
Proof.
  split; [repeat constructor; simpl; intuition discriminate
         |simpl; intuition discriminate].
Defined.

Lemma sample_map_owns : owns sample_map sample_heap.
Proof.
  split; [repeat constructor|].
  split; [repeat constructor; simpl; tauto|].
  simpl. intros p [<-|[]]. now left.
Defined.

(** After the update the map still owns its values, and the caller's
    object is the only one it does not own. *)
Lemma UpdatePropertyMap_owns_witness :
  exists m' h',
    Network_UpdatePropertyMap next_address 3 5%nat sample_map sample_heap
    = Some (m', h') /\
    owns m' h' /\ foreign m' h' = [(5%nat, IntegerValue 7)].
Proof.
  destruct (UpdatePropertyMap_owns next_address 3 5%nat sample_map
              sample_heap next_address_allocator sample_heap_ok
              sample_map_owns)
    as (m' & h' & Hu & _ & Ho & Hf).
  - right. simpl. intuition discriminate.
  - exists m', h'. split; [exact Hu|]. split; [exact Ho|].
    rewrite Hf. reflexivity.
Defined.

(** Clearing key 3 deletes the object at address 1. *)
Lemma UpdatePropertyMap_clear_witness :
  exists m' h',
    Network_UpdatePropertyMap next_address 3 NULL sample_map sample_heap
    = Some (m', h') /\
    Network_GetProperty 3 m' = None /\ deref 1%nat h' = None.
Proof.
  destruct (UpdatePropertyMap_clear next_address 3 sample_map sample_heap
              sample_heap_ok sample_map_owns)
    as (m' & h' & Hu & Hg & Hd & _).
  exists m', h'. split; [exact Hu|]. split; [exact Hg|].
  apply Hd. reflexivity.
Defined.

(** Passing the pointer stored under key 3 back for key 3. *)
Lemma UpdatePropertyMap_own_value_is_deleted_first_witness :
  Network_GetProperty 3 sample_map = Some 1%nat /\
  Network_UpdatePropertyMap next_address 3 1%nat sample_map sample_heap
  = None.
Proof.
  split; [reflexivity|].
  apply (UpdatePropertyMap_own_value_is_deleted_first next_address 3 1%nat
           sample_map sample_heap sample_heap_ok sample_map_owns).
  reflexivity.
Defined.

(** The destructor leaves the caller's object. *)
Lemma destructor_frees_owned_values_witness :
  Network_destructor sample_map sample_heap = [(5%nat, IntegerValue 7)] /\
  deref 1%nat (Network_destructor sample_map sample_heap) = None.
Proof.
  destruct (destructor_frees_owned_values sample_map sample_heap
              sample_heap_ok sample_map_owns) as [Hd Hfreed].
  split; [rewrite Hd; reflexivity|]. apply Hfreed. simpl. tauto.
Defined.

(** 255.255.240.0 has 20 leading one bits. *)
Lemma GetPrefixLength_counts_leading_ones_witness :
  GetPrefixLength StringTokenizer_model (netmask_config "255.255.240.0") = 20
  /\
  netmask_value (StringTokenizer_model "255.255.240.0" ".")
  = Some (2 ^ 32 - 2 ^ 12).
Proof.
  split; [reflexivity|].
  destruct (GetPrefixLength_counts_leading_ones StringTokenizer_model
              (netmask_config "255.255.240.0")) as (_ & _ & H).
  - vm_compute. discriminate.
  - exact H.
Defined.

Lemma GetPrefixLength_of_prefix_tokens_witness :
  prefix_tokens 20 = ["255"; "255"; "240"; "0"] /\
  GetPrefixLength StringTokenizer_model (netmask_config "255.255.240.0") = 20.
Proof.
  split; [reflexivity|].
  apply (GetPrefixLength_of_prefix_tokens StringTokenizer_model
           (netmask_config "255.255.240.0") 20); [lia|reflexivity].
Defined.

(** A name with a tab in it. *)
Lemma ValidateUTF8_replaces_control_characters_witness :
  ValidateUTF8 ReadUnicodeCharacter_model WriteUnicodeCharacter_model
    (String "a" (String (ascii_of_nat 9) "b")) =
  String "a" (WriteUnicodeCharacter_model 65533 ++ "b").
Proof.
  destruct (ValidateUTF8_replaces_control_characters
              ReadUnicodeCharacter_model WriteUnicodeCharacter_model
              (String "a" (String (ascii_of_nat 9) "b"))) as [H _].
  - intros i c Hc.
    do 3 (destruct i as [|i]; [injection Hc as <-; reflexivity|]).
    discriminate.
  - intros i c Hc _.
    do 3 (destruct i as [|i]; [injection Hc as <-; reflexivity|]).
    discriminate.
  - rewrite H. reflexivity.
Defined.

(** An SSID in Latin-1 names the network by its conversion; one whose
    conversion fails names it as it is. *)
Lemma SetSsid_names_the_network_witness :
  let latin1 := String (ascii_of_nat 233) "t" in
  let named (convert : string -> string -> bool * string) :=
    name_ (wifi_base (object
      (WifiNetwork_SetSsid (fun _ => false) (fun _ => Some "ISO-8859-1")
         convert ReadUnicodeCharacter_model WriteUnicodeCharacter_model
         latin1 wep_wifi))) in
  named (fun _ _ => (true, "et")) = "et" /\
  named (fun _ _ => (false, "et")) =
  ValidateUTF8 ReadUnicodeCharacter_model WriteUnicodeCharacter_model latin1.
Proof.
  cbv zeta. split.
  - destruct (SetSsid_names_the_network (fun _ => false)
                (fun _ => Some "ISO-8859-1") (fun _ _ => (true, "et"))
                ReadUnicodeCharacter_model WriteUnicodeCharacter_model
                (String (ascii_of_nat 233) "t") wep_wifi)
      as (_ & _ & _ & Hconv & _).
    rewrite (Hconv "ISO-8859-1" "et");
      [reflexivity|reflexivity|reflexivity|reflexivity|discriminate].
  - destruct (SetSsid_names_the_network (fun _ => false)
                (fun _ => Some "ISO-8859-1") (fun _ _ => (false, "et"))
                ReadUnicodeCharacter_model WriteUnicodeCharacter_model
                (String (ascii_of_nat 233) "t") wep_wifi)
      as (_ & _ & _ & _ & Hraw).
    apply Hraw. right; right. exists "ISO-8859-1".
    split; [reflexivity|left; reflexivity].
Defined.

(** The overdrawn plan has no data available; 4096 MB are left of the
    metered plan; a plan of no known type has no text. *)
Lemma GetUsageInfo_metered_witness :
  GetUsageInfo 0 overdrawn_plan =
  GetStringUTF16 IDS_NETWORK_DATA_NONE_AVAILABLE_MESSAGE /\
  GetUsageInfo 0 metered_plan =
  GetStringFUTF16 IDS_NETWORK_DATA_MB_AVAILABLE_MESSAGE
    (Int64ToString_text 4096) /\
  GetUsageInfo 0 untyped_plan = NoText.
Proof.
  split; [|split; [reflexivity|]].
  - destruct (GetUsageInfo_metered 0 overdrawn_plan) as [H _].
    destruct H as [_ H]; [right; reflexivity|].
    apply H; [|simpl; lia].
    unfold is_int64, INT64_MIN, INT64_MAX. simpl. lia.
  - destruct (GetUsageInfo_metered 0 untyped_plan) as [_ [_ H]].
    apply H. repeat split; discriminate.
Defined.

(** The metered plan and the same plan with more data used have one
    identifier. *)
Lemma GetUniqueIdentifier_identifies_witness :
  let used_more :=
    mk_CellularDataPlan "5 GB" CELLULAR_DATA_PLAN_METERED_PAID 77 1000000
      2000000 5368709120 2073741824 in
  GetUniqueIdentifier Int64ToString_model CellularDataPlanType_value_model
    metered_plan =
  GetUniqueIdentifier Int64ToString_model CellularDataPlanType_value_model
    used_more /\
  GetUniqueIdentifier Int64ToString_model CellularDataPlanType_value_model
    metered_plan = "5 GB|2|1000000|2000000|5368709120".
Proof.
  cbv zeta. split; [|reflexivity].
  apply (GetUniqueIdentifier_identifies Int64ToString_model
           CellularDataPlanType_value_model).
  - exact Int64ToString_model_injective.
  - exact Int64ToString_model_no_bar.
  - intros [] []; simpl; intros H; try reflexivity; discriminate H.
  - repeat split.
Defined.

(** The modem accepts: the network is activating and needs activation. *)
Lemma StartActivation_marks_activating_witness :
  let r := CellularNetwork_StartActivation true (fun _ => true)
             activating_cellular in
  fst (fst r) = true /\
  activation_state_ (snd (fst r)) = ACTIVATION_STATE_ACTIVATING /\
  CellularNetwork_NeedsActivation (fun _ => false) (snd (fst r)) = true.
Proof.
  cbv zeta.
  destruct (StartActivation_marks_activating true (fun _ => true)
              (fun _ => false) activating_cellular) as (Hok & Hthen & _).
  assert (H : fst (fst (CellularNetwork_StartActivation true (fun _ => true)
                          activating_cellular)) = true).
  { apply Hok. split; reflexivity. }
  split; [exact H|]. destruct (Hthen H) as (_ & Ha & _ & Hn).
  split; [exact Ha|exact Hn].
Defined.

Lemma passphrase_set_in_order :
  InMemory.in_order (InMemory.WifiNetwork_secrets InMemory.this_wifi)
    InMemory.passphrase_set.
Proof.
  split; [|split; [|split; [|split]]].
  - repeat constructor; cbn; intuition discriminate.
  - intros str Hstr. cbn in Hstr.
    repeat (destruct Hstr as [<-|Hstr]; [vm_compute; lia|]).
    destruct Hstr.
  - intros p Hp.
    do 4 (destruct p as [|p]; [try (now elim Hp); vm_compute; lia|]).
    vm_compute. lia.
  - vm_compute. lia.
  - reflexivity.
Qed.

(** The passphrase and the user passphrase share a buffer that no other
    string uses: the buffer is overwritten. *)
Lemma EraseCredentials_in_memory_witness :
  InMemory.bytes
    (InMemory.buffer_at
       (InMemory.WifiNetwork_EraseCredentials InMemory.this_wifi
          InMemory.passphrase_set) 1%nat) = fill 6 NUL.
Proof.
  destruct (EraseCredentials_in_memory
              (InMemory.WifiNetwork_secrets InMemory.this_wifi)
              InMemory.passphrase_set
              (InMemory.WifiNetwork_EraseCredentials InMemory.this_wifi
                 InMemory.passphrase_set)
              (or_intror (ex_intro _ InMemory.this_wifi
                            (conj eq_refl eq_refl)))
              passphrase_set_in_order 10%nat (or_introl eq_refl))
    as (_ & H & _).
  cbv zeta in H.
  change (InMemory.buffer_of InMemory.passphrase_set 10%nat) with 1%nat in H.
  rewrite H; [reflexivity|discriminate|reflexivity].
Defined.
